(** * Cancel-object preprocessing of G-code: a shallow embedding

    Source: [moonraker/components/file_manager/preprocess_cancellation.py].

    The Python program is embedded function by function.  A file is the
    [string] of its bytes; opened in text mode it is read as the [string]
    of its characters (code points below 256), its line ends CR LF and CR
    read as newlines; iterating a file yields its lines with their
    terminating newline; a generator is the list of the chunks it yields
    together with the exception, if any, that ended it; a dict is an
    association list in insertion order; a Python set of points is the
    list of the points added to it, which it iterates in the order its
    hash table gives ([set_order]). *)

From Stdlib Require Import String Ascii List ZArith NArith Bool Lia PeanoNat.
From Stdlib Require Import DecimalString DecimalPos Permutation.
From Stdlib Require Import SpecFloat.
Import ListNotations.
Open Scope string_scope.
Open Scope list_scope.

Set Implicit Arguments.
Set Warnings "-register-all".

(* ================================================================== *)
(** ** Python strings *)

Module Py.

Definition code (c : ascii) : N := N_of_ascii c.

Definition between (lo hi : N) (c : ascii) : bool :=
  ((lo <=? code c) && (code c <=? hi))%N.

(** [str.isspace] on code points below 256: the characters [str.strip()]
    removes and [str.split()] separates on. *)
Definition isspace (c : ascii) : bool :=
  between 9 13 c || between 28 32 c || (code c =? 133)%N || (code c =? 160)%N.

(** The whitespace [int()] and [float()] skip around a literal. *)
Definition isspace_num (c : ascii) : bool :=
  between 9 13 c || (code c =? 32)%N || (code c =? 133)%N || (code c =? 160)%N.

Definition isdigit (c : ascii) : bool := between 48 57 c.

(** The regular-expression class [\w] on a [str] pattern: alphanumeric in
    the Unicode sense, or the underscore. *)
Definition isword (c : ascii) : bool :=
  between 48 57 c || between 65 90 c || between 97 122 c || (code c =? 95)%N
  || (code c =? 170)%N || between 178 179 c || (code c =? 181)%N
  || between 185 186 c || between 188 190 c
  || between 192 214 c || between 216 246 c || between 248 255 c.

Definition lower_char (c : ascii) : ascii :=
  if between 65 90 c || between 192 214 c || between 216 222 c
  then ascii_of_N (code c + 32) else c.

(** [c.upper()].  Three characters of the range leave it: the sharp s
    becomes "SS", the micro sign and y-diaeresis become code points above
    255, for which the character itself stands here (no other character of
    the range maps to them, so keys built from them stay distinct). *)
Definition upper_char (c : ascii) : string :=
  if between 97 122 c || between 224 246 c || between 248 254 c
  then String (ascii_of_N (code c - 32)) ""
  else if (code c =? 223)%N then "SS"
  else String c "".

Fixpoint lower (s : string) : string :=
  match s with
  | "" => ""
  | String c s' => String (lower_char c) (lower s')
  end.

(** [s.startswith(p)] *)
Fixpoint startswith (s p : string) {struct p} : bool :=
  match p with
  | "" => true
  | String b p' =>
      match s with
      | "" => false
      | String a s' => Ascii.eqb a b && startswith s' p'
      end
  end.

Fixpoint lstrip_with (f : ascii -> bool) (s : string) : string :=
  match s with
  | "" => ""
  | String c s' => if f c then lstrip_with f s' else s
  end.

Fixpoint rstrip_with (f : ascii -> bool) (s : string) : string :=
  match s with
  | "" => ""
  | String c s' =>
      match rstrip_with f s' with
      | "" => if f c then "" else String c ""
      | r => String c r
      end
  end.

Definition strip_with (f : ascii -> bool) (s : string) : string :=
  rstrip_with f (lstrip_with f s).

(** [s.strip()] *)
Definition strip (s : string) : string := strip_with isspace s.

(** [s.strip(chars)] *)
Definition strip_chars (chars s : string) : string :=
  strip_with (fun c => existsb (Ascii.eqb c) (list_ascii_of_string chars)) s.

(** [s.split()]: the maximal runs of non-whitespace characters. *)
Fixpoint split_ws (s : string) : list string :=
  match s with
  | "" => []
  | String c s' =>
      if isspace c then split_ws s'
      else match s' with
           | "" => [String c ""]
           | String c' _ =>
               if isspace c' then String c "" :: split_ws s'
               else match split_ws s' with
                    | t :: ts => String c t :: ts
                    | [] => [String c ""]
                    end
           end
  end.

Fixpoint rev_string (acc s : string) : string :=
  match s with
  | "" => acc
  | String c s' => rev_string (String c acc) s'
  end.

(** [s.split(sep)] for a non-empty [sep]: occurrences of [sep] are found
    left to right without overlap; [skip] counts the characters of a
    separator still to pass, [cur] holds the current piece reversed. *)
Fixpoint split_aux (sep : string) (skip : nat) (cur s : string) : list string :=
  match s with
  | "" => [rev_string "" cur]
  | String c s' =>
      match skip with
      | S k => split_aux sep k cur s'
      | O =>
          if startswith s sep
          then rev_string "" cur :: split_aux sep (String.length sep - 1) "" s'
          else split_aux sep 0 (String c cur) s'
      end
  end.

Definition split (sep s : string) : list string := split_aux sep 0 "" s.

(** [s.split(sep)[1]].  Every use in the program is guarded by a
    [startswith] test whose prefix contains [sep], which makes index 1
    exist; the default is never reached there. *)
Definition split_item1 (sep s : string) : string := nth 1 (split sep s) "".

(** [s.split(c, maxsplit=1)[1]]: what follows the first [c]. *)
Fixpoint after_first (c : ascii) (s : string) : string :=
  match s with
  | "" => ""
  | String a s' => if Ascii.eqb a c then s' else after_first c s'
  end.

(** [sep.join(l)] *)
Fixpoint join (sep : string) (l : list string) : string :=
  match l with
  | [] => ""
  | [x] => x
  | x :: rest => x ++ sep ++ join sep rest
  end.

Definition concat (l : list string) : string := String.concat "" l.

(** [str(n)] for an [int]. *)
Definition str_of_Z (z : Z) : string := NilEmpty.string_of_int (Z.to_int z).

Definition digit_val (c : ascii) : Z := Z.of_N (code c) - 48.

(** The digits of an [int()] literal: single underscores may separate
    digits. *)
Fixpoint int_digits (acc : Z) (after_digit : bool) (s : string) : option Z :=
  match s with
  | "" => if after_digit then Some acc else None
  | String c s' =>
      if Ascii.eqb c "_" then
        if after_digit then int_digits acc false s' else None
      else if isdigit c then int_digits (10 * acc + digit_val c) true s'
      else None
  end.

(** The number of digit characters of a literal. *)
Fixpoint count_digits (s : string) : Z :=
  match s with
  | "" => 0
  | String c s' => (if isdigit c then 1 else 0) + count_digits s'
  end.

(** The digits [int()] converts at most ([sys.int_max_str_digits] as it is
    set by default, in CPython 3.11 and later and in the security releases
    of 3.7 to 3.10). *)
Definition int_max_str_digits : Z := 4300.

(** [int(s)]; [None] stands for [ValueError], which a literal of more
    digits than the limit raises too. *)
Definition int_of_string (s : string) : option Z :=
  let t := strip_with isspace_num s in
  if (int_max_str_digits <? count_digits t)%Z then None
  else
    match t with
    | String "-" r => option_map Z.opp (int_digits 0 false r)
    | String "+" r => int_digits 0 false r
    | _ => int_digits 0 false t
    end.

(** The text holds no newline. *)
Fixpoint single_line (s : string) : bool :=
  match s with
  | "" => true
  | String c s' => negb (Ascii.eqb c "010") && single_line s'
  end.

(** Iterating a text file: each line keeps its newline; a last line
    without one is yielded as it is. *)
Fixpoint readlines (s : string) : list string :=
  match s with
  | "" => []
  | String c s' =>
      if Ascii.eqb c "010" then String c "" :: readlines s'
      else match readlines s' with
           | [] => [String c ""]
           | l :: ls => String c l :: ls
           end
  end.

End Py.

Import Py.

(* ================================================================== *)
(** ** Exceptions and generators *)

(** The exceptions the program can end with.  [OutsideModel] is not a
    Python exception: it marks the few inputs whose behaviour this
    embedding does not cover (a code point above 255, in the bytes of a
    file or in a JSON escape). *)
Inductive exn : Type :=
| KeyError | TypeError | ValueError | AssertionError | RuntimeError
| JSONDecodeError | OverflowError | UnicodeDecodeError | OutsideModel.

(** A computation that may raise. *)
Definition res (A : Type) : Type := (exn + A)%type.

Definition ret {A : Type} (a : A) : res A := inr a.
Definition raise {A : Type} (e : exn) : res A := inl e.
Definition bind {A B : Type} (m : res A) (k : A -> res B) : res B :=
  match m with
  | inl e => inl e
  | inr a => k a
  end.

Notation "x <- m ;; k" := (bind m (fun x => k))
  (at level 61, m at next level, right associativity).
Notation "' p <- m ;; k" := (bind m (fun p => k))
  (at level 61, p pattern, m at next level, right associativity).

(** A generator run to its end, or a piece of one: the chunks it yielded,
    in order, and either the exception that ended it or the value it
    computed. *)
Definition emit (A : Type) : Type := (list string * res A)%type.

(** A whole generator computes nothing beyond its chunks. *)
Definition gen : Type := emit unit.

Definition yielded {A : Type} (g : emit A) : list string := fst g.

Definition raised {A : Type} (g : emit A) : option exn :=
  match snd g with
  | inl e => Some e
  | inr _ => None
  end.

Definition pure {A : Type} (a : A) : emit A := ([], inr a).
Definition yield (chunks : list string) : gen := (chunks, inr tt).
Definition throw {A : Type} (e : exn) : emit A := ([], inl e).
Definition lift {A : Type} (m : res A) : emit A := ([], m).

Definition ebind {A B : Type} (m : emit A) (k : A -> emit B) : emit B :=
  match m with
  | (out, inl e) => (out, inl e)
  | (out, inr a) => let (out', r) := k a in (out ++ out', r)
  end.

Notation "x <~ m ;; k" := (ebind m (fun x => k))
  (at level 61, m at next level, right associativity).
Notation "' p <~ m ;; k" := (ebind m (fun p => k))
  (at level 61, p pattern, m at next level, right associativity).
Notation "m ;;; k" := (ebind m (fun _ => k))
  (at level 61, right associativity).

(** A loop [for line in infile: body] whose body yields chunks and updates
    the loop's variables [S], followed by the code after the loop. *)
Fixpoint for_lines {S : Type} (body : S -> string -> emit S)
  (s : S) (lines : list string) : emit S :=
  match lines with
  | [] => pure s
  | line :: rest => s' <~ body s line ;; for_lines body s' rest
  end.

(** The same for a loop that yields nothing. *)
Fixpoint for_lines_res {S : Type} (body : S -> string -> res S)
  (s : S) (lines : list string) : res S :=
  match lines with
  | [] => ret s
  | line :: rest => s' <- body s line ;; for_lines_res body s' rest
  end.

(* ================================================================== *)
(** ** Files opened in text mode

    The driver opens its files with [open("r")] and [open("w")]: the
    bytes of the input are decoded and its line ends are read as newlines;
    the text written is encoded.  The encoding is UTF-8 (that of
    [open] in a UTF-8 locale) and the newline of the platform is the line
    feed, as on the Linux hosts the program runs on.  A file is the
    [string] of its bytes. *)

(** The bytes of a text: UTF-8 for code points below 256. *)
Fixpoint utf8_encode (text : string) : string :=
  match text with
  | "" => ""
  | String c rest =>
      if (code c <? 128)%N then String c (utf8_encode rest)
      else String (ascii_of_N (192 + code c / 64))
             (String (ascii_of_N (128 + code c mod 64)) (utf8_encode rest))
  end.

(** The text of bytes.  A byte that cannot start a character, or a
    first byte without its continuation byte, raises
    [UnicodeDecodeError]; the first bytes of characters above 255 are
    left out of the model. *)
Fixpoint utf8_decode (bytes : string) : res string :=
  match bytes with
  | "" => ret ""
  | String b rest =>
      if (code b <? 128)%N then
        text <- utf8_decode rest ;; ret (String b text)
      else if between 194 195 b then
        match rest with
        | String b2 rest' =>
            if between 128 191 b2 then
              text <- utf8_decode rest' ;;
              ret (String (ascii_of_N ((code b - 192) * 64 + (code b2 - 128)))
                          text)
            else raise UnicodeDecodeError
        | "" => raise UnicodeDecodeError
        end
      else if between 196 244 b then raise OutsideModel
      else raise UnicodeDecodeError
  end.

(** Universal newlines: a carriage return, with the line feed that
    follows it if any, is read as one newline. *)
Fixpoint universal_newlines (text : string) : string :=
  match text with
  | "" => ""
  | String c rest =>
      if Ascii.eqb c "013" then
        match rest with
        | String c2 rest' =>
            if Ascii.eqb c2 "010"
            then String "010" (universal_newlines rest')
            else String "010" (universal_newlines rest)
        | "" => String "010" ""
        end
      else String c (universal_newlines rest)
  end.

(** What [open("r")] hands over of a file when it is read to its end. *)
Definition read_text (file : string) : res string :=
  text <- utf8_decode file ;; ret (universal_newlines text).

(** The bytes [open("w")] writes for a text. *)
Definition write_text (text : string) : string := utf8_encode text.

(* ================================================================== *)
(** ** Floating-point numbers and sets of points

    The program reads coordinates with [float()], compares, adds and
    divides them and prints them with [str()] and [json.dumps], and it
    keeps the points of an object in a [set], which it iterates in the
    order of its hash table.  These operations belong to the Python
    runtime; the embedding takes them as an interface, and everything
    below is stated for any implementation of it. *)

Class FloatOps : Type := {
  float : Type;
  (** [float(s)]; [None] stands for [ValueError] *)
  float_of_string : string -> option float;
  (** [float(n)] for an [int]; [None] stands for [OverflowError] *)
  float_of_Z : Z -> option float;
  (** [float(n)] for the length of a collection *)
  float_of_nat : nat -> float;
  (** [a / b] on two [int]s, [b] not zero; [None] stands for
      [OverflowError] *)
  int_truediv : Z -> Z -> option float;
  float_add : float -> float -> float;
  float_sub : float -> float -> float;
  float_div : float -> float -> float;
  (** [a < b] and [a == b] *)
  float_ltb : float -> float -> bool;
  float_eqb : float -> float -> bool;
  (** [str(x)], which is also [repr(x)] *)
  float_str : float -> string;
  (** the rendering of [json.dumps], which differs from [str] on [nan]
      and the infinities *)
  float_json : float -> string;
  (** neither rendering holds a newline *)
  float_text_line :
    forall x, single_line (float_str x) = true
              /\ single_line (float_json x) = true;
  (** the order in which a [set] iterates the points that were added to
      it, empty, in the order of the list (no two of them equal) *)
  set_order : list (float * float) -> list (float * float);
  (** iterating a set goes through each of its elements once *)
  set_order_perm : forall l, Permutation (set_order l) l
}.

(* ================================================================== *)
(** ** Python values

    The values [json.loads] produces and the program passes around.  A
    tuple is represented as a list: the program only tests such values for
    truth, iterates over them and prints their elements. *)

Section Values.
Context {F : FloatOps}.

Inductive pyval : Type :=
| PNone
| PBool (b : bool)
| PInt (z : Z)
| PFloat (x : float)
| PStr (s : string)
| PList (l : list pyval)
| PDict (d : list (string * pyval)).

(** *** Dicts with string keys, in insertion order *)

Fixpoint dict_get {V : Type} (k : string) (d : list (string * V)) : option V :=
  match d with
  | [] => None
  | (k', v) :: rest => if String.eqb k k' then Some v else dict_get k rest
  end.

(** [d[k] = v]: an existing key keeps its place. *)
Fixpoint dict_set {V : Type} (k : string) (v : V) (d : list (string * V))
  : list (string * V) :=
  match d with
  | [] => [(k, v)]
  | (k', v') :: rest =>
      if String.eqb k k' then (k, v) :: rest else (k', v') :: dict_set k v rest
  end.

Definition dict_mem {V : Type} (k : string) (d : list (string * V)) : bool :=
  match dict_get k d with Some _ => true | None => false end.

Definition dict_values {V : Type} (d : list (string * V)) : list V :=
  map snd d.

(** *** Truth, iteration, printing *)

Definition py_truthy (v : pyval) : bool :=
  match v with
  | PNone => false
  | PBool b => b
  | PInt z => negb (z =? 0)%Z
  | PFloat x => negb (float_eqb x (float_of_nat 0))
  | PStr s => negb (String.eqb s "")
  | PList l => match l with [] => false | _ => true end
  | PDict d => match d with [] => false | _ => true end
  end.

(** [iter(v)]; [None] stands for [TypeError]. *)
Definition py_iter (v : pyval) : option (list pyval) :=
  match v with
  | PList l => Some l
  | PStr s => Some (map (fun c => PStr (String c "")) (list_ascii_of_string s))
  | PDict d => Some (map (fun kv => PStr (fst kv)) d)
  | _ => None
  end.

Definition hex_digit (n : N) : ascii :=
  if (n <? 10)%N then ascii_of_N (48 + n) else ascii_of_N (87 + n).

Definition isprintable (c : ascii) : bool :=
  between 32 126 c || (between 161 255 c && negb (code c =? 173)%N).

Definition repr_char (quote c : ascii) : string :=
  if Ascii.eqb c quote || Ascii.eqb c "\" then String "\" (String c "")
  else if Ascii.eqb c "009" then "\t"
  else if Ascii.eqb c "010" then "\n"
  else if Ascii.eqb c "013" then "\r"
  else if isprintable c then String c ""
  else String "\" (String "x" (String (hex_digit (code c / 16))
                                (String (hex_digit (code c mod 16)) ""))).

Fixpoint repr_chars (quote : ascii) (s : string) : string :=
  match s with
  | "" => ""
  | String c s' => repr_char quote c ++ repr_chars quote s'
  end.

Definition has_char (c : ascii) (s : string) : bool :=
  existsb (Ascii.eqb c) (list_ascii_of_string s).

(** [repr(s)] of a [str]. *)
Definition repr_str (s : string) : string :=
  let quote : ascii :=
    if has_char "'" s && negb (has_char "034" s)
    then "034"%char else "'"%char in
  String quote (repr_chars quote s ++ String quote "").

Fixpoint py_repr (v : pyval) : string :=
  match v with
  | PNone => "None"
  | PBool b => if b then "True" else "False"
  | PInt z => str_of_Z z
  | PFloat x => float_str x
  | PStr s => repr_str s
  | PList l => "[" ++ join ", " (map py_repr l) ++ "]"
  | PDict d =>
      "{" ++ join ", "
               (map (fun kv => match kv with
                               | (k, v') =>
                                   (repr_str k ++ ": " ++ py_repr v')%string
                               end) d) ++ "}"
  end.

(** [str(v)] *)
Definition py_str (v : pyval) : string :=
  match v with
  | PStr s => s
  | _ => py_repr v
  end.

End Values.

(* ================================================================== *)
(** ** [json.loads]

    The decoder of the [json] module in its default (strict) mode.  A
    [\u] escape denoting a code point above 255 is outside the model. *)

Inductive jres (A : Type) : Type :=
| JOk (a : A) (rest : string)
| JErr   (* JSONDecodeError *)
| JOut.  (* outside the model *)

Arguments JErr {A}.
Arguments JOut {A}.

Section Json.
Context {F : FloatOps}.

Definition json_ws (c : ascii) : bool :=
  (code c =? 32)%N || (code c =? 9)%N || (code c =? 10)%N || (code c =? 13)%N.

Definition skip_ws (s : string) : string := lstrip_with json_ws s.

Fixpoint drop (n : nat) (s : string) : string :=
  match n, s with
  | O, _ => s
  | S k, String _ s' => drop k s'
  | S _, "" => ""
  end.

(** The longest prefix of characters satisfying [f], and what follows. *)
Fixpoint span (f : ascii -> bool) (s : string) : string * string :=
  match s with
  | "" => ("", "")
  | String c s' =>
      if f c then let (a, b) := span f s' in (String c a, b) else ("", s)
  end.

Definition hex_val (c : ascii) : option N :=
  if between 48 57 c then Some (code c - 48)%N
  else if between 97 102 c then Some (code c - 87)%N
  else if between 65 70 c then Some (code c - 55)%N
  else None.

Definition hex4 (a b c d : ascii) : option N :=
  match hex_val a, hex_val b, hex_val c, hex_val d with
  | Some x, Some y, Some z, Some w => Some (((x * 16 + y) * 16 + z) * 16 + w)%N
  | _, _, _, _ => None
  end.

Definition unescape (e : ascii) : option ascii :=
  if Ascii.eqb e "034" then Some "034"%char
  else if Ascii.eqb e "\" then Some "\"%char
  else if Ascii.eqb e "/" then Some "/"%char
  else if Ascii.eqb e "b" then Some "008"%char
  else if Ascii.eqb e "f" then Some "012"%char
  else if Ascii.eqb e "n" then Some "010"%char
  else if Ascii.eqb e "r" then Some "013"%char
  else if Ascii.eqb e "t" then Some "009"%char
  else None.

(** The body of a string literal, after its opening quote; [acc] holds
    the decoded characters reversed. *)
Fixpoint scan_string (acc s : string) : jres string :=
  match s with
  | "" => JErr
  | String c s' =>
      if Ascii.eqb c "034" then JOk (rev_string "" acc) s'
      else if Ascii.eqb c "\" then
        match s' with
        | "" => JErr
        | String e s'' =>
            if Ascii.eqb e "u" then
              match s'' with
              | String h1 (String h2 (String h3 (String h4 r))) =>
                  match hex4 h1 h2 h3 h4 with
                  | Some n =>
                      if (n <? 256)%N
                      then scan_string (String (ascii_of_N n) acc) r
                      else JOut
                  | None => JErr
                  end
              | _ => JErr
              end
            else
              match unescape e with
              | Some ch => scan_string (String ch acc) s''
              | None => JErr
              end
        end
      else if (code c <? 32)%N then JErr
      else scan_string (String c acc) s'
  end.

(** The extent of a number literal: its text, whether it denotes a
    [float], and what follows it. *)
Definition scan_number (s : string) : option (string * bool * string) :=
  let '(sign, s1) :=
    match s with String "-" r => ("-", r) | _ => ("", s) end in
  match s1 with
  | "" => None
  | String c r =>
      let int_part :=
        if Ascii.eqb c "0" then Some ("0", r)
        else if between 49 57 c then Some (span isdigit s1)
        else None in
      match int_part with
      | None => None
      | Some (ip, r1) =>
          let '(frac, r2) :=
            match r1 with
            | String "." (String d _ as r') =>
                if isdigit d
                then let (fs, rr) := span isdigit r' in (String "." fs, rr)
                else ("", r1)
            | _ => ("", r1)
            end in
          let '(ex, r3) :=
            match r2 with
            | String e r' =>
                if Ascii.eqb e "e" || Ascii.eqb e "E" then
                  let '(sg, r'') :=
                    match r' with
                    | String "+" t => ("+", t)
                    | String "-" t => ("-", t)
                    | _ => ("", r')
                    end in
                  match r'' with
                  | String d _ =>
                      if isdigit d
                      then let (es, rr) := span isdigit r'' in
                           (String e (sg ++ es), rr)
                      else ("", r2)
                  | "" => ("", r2)
                  end
                else ("", r2)
            | "" => ("", r2)
            end in
          Some ((sign ++ ip ++ frac ++ ex)%string,
                negb (String.eqb frac "" && String.eqb ex ""), r3)
      end
  end.

Definition parse_number (s : string) : jres pyval :=
  match scan_number s with
  | None => JErr
  | Some (text, true, rest) =>
      match float_of_string text with
      | Some x => JOk (PFloat x) rest
      | None => JOut
      end
  | Some (text, false, rest) =>
      match int_of_string text with
      | Some z => JOk (PInt z) rest
      | None => JOut
      end
  end.

Definition parse_constant (name : string) (s : string) : jres pyval :=
  match float_of_string name with
  | Some x => JOk (PFloat x) s
  | None => JOut
  end.

Fixpoint parse_value (fuel : nat) (s : string) : jres pyval :=
  match fuel with
  | O => JOut
  | S fuel' =>
      match s with
      | "" => JErr
      | String c r =>
          if Ascii.eqb c "034" then
            match scan_string "" r with
            | JOk str rest => JOk (PStr str) rest
            | JErr => JErr
            | JOut => JOut
            end
          else if Ascii.eqb c "{" then
            match skip_ws r with
            | String "}" rest => JOk (PDict []) rest
            | r1 => parse_members fuel' [] r1
            end
          else if Ascii.eqb c "[" then
            match skip_ws r with
            | String "]" rest => JOk (PList []) rest
            | r1 => parse_elems fuel' [] r1
            end
          else if startswith s "null" then JOk PNone (drop 4 s)
          else if startswith s "true" then JOk (PBool true) (drop 4 s)
          else if startswith s "false" then JOk (PBool false) (drop 5 s)
          else if startswith s "NaN" then parse_constant "nan" (drop 3 s)
          else if startswith s "Infinity"
               then parse_constant "inf" (drop 8 s)
          else if startswith s "-Infinity"
               then parse_constant "-inf" (drop 9 s)
          else parse_number s
      end
  end

(** The pairs of an object after the first has been found to start;
    a repeated key keeps its first place and takes the last value. *)
with parse_members (fuel : nat) (acc : list (string * pyval)) (s : string)
  : jres pyval :=
  match fuel with
  | O => JOut
  | S fuel' =>
      match s with
      | String "034" r =>
          match scan_string "" r with
          | JOk k r1 =>
              match skip_ws r1 with
              | String ":" r2 =>
                  match parse_value fuel' (skip_ws r2) with
                  | JOk v r3 =>
                      let acc' := dict_set k v acc in
                      match skip_ws r3 with
                      | String "}" rest => JOk (PDict acc') rest
                      | String "," r4 => parse_members fuel' acc' (skip_ws r4)
                      | _ => JErr
                      end
                  | JErr => JErr
                  | JOut => JOut
                  end
              | _ => JErr
              end
          | JErr => JErr
          | JOut => JOut
          end
      | _ => JErr
      end
  end

(** The elements of an array; [acc] holds them reversed. *)
with parse_elems (fuel : nat) (acc : list pyval) (s : string) : jres pyval :=
  match fuel with
  | O => JOut
  | S fuel' =>
      match parse_value fuel' s with
      | JOk v r1 =>
          match skip_ws r1 with
          | String "]" rest => JOk (PList (rev (v :: acc))) rest
          | String "," r2 => parse_elems fuel' (v :: acc) (skip_ws r2)
          | _ => JErr
          end
      | JErr => JErr
      | JOut => JOut
      end
  end.

(** [json.loads(s)] *)
Definition json_loads (s : string) : res pyval :=
  match parse_value (2 * String.length s + 2) (skip_ws s) with
  | JOk v rest =>
      match skip_ws rest with
      | "" => ret v
      | _ => raise JSONDecodeError
      end
  | JErr => raise JSONDecodeError
  | JOut => raise OutsideModel
  end.

End Json.

(* ================================================================== *)
(** ** The program *)

Definition nl : string := String "010" "".

Definition HEADER_MARKER : string :=
  "; Pre-Processed for Cancel-Object support" ++ nl.

(** [re.sub(cls+, repl, s)] for a character class [cls]: every maximal
    run of characters of the class is replaced by [repl].  [in_match]
    tells that the previous character belonged to the run being
    replaced. *)
Fixpoint re_sub_plus (cls : ascii -> bool) (repl : string) (in_match : bool)
  (s : string) : string :=
  match s with
  | "" => ""
  | String c s' =>
      if cls c then
        if in_match then re_sub_plus cls repl true s'
        else (repl ++ re_sub_plus cls repl true s')%string
      else String c (re_sub_plus cls repl false s')
  end.

(** [re.sub(r"\W+", "_", id).strip("_")] *)
Definition _clean_id (id : string) : string :=
  strip_chars "_" (re_sub_plus (fun c => negb (isword c)) "_" false id).

Section Preprocess.
Context {F : FloatOps}.

(** *** Points and hulls *)

Definition Point : Type := (float * float)%type.

Definition point_eqb (p q : Point) : bool :=
  float_eqb (fst p) (fst q) && float_eqb (snd p) (snd q).

(** [HullTracker]: [points] lists the elements of the set in the order
    in which they were added (the field [pos] is never used); the set is
    iterated in the order [set_order] gives. *)
Record HullTracker : Type := { points : list Point }.

Definition new_hull : HullTracker := {| points := [] |}.

Definition add_point (h : HullTracker) (point : Point) : HullTracker :=
  if existsb (point_eqb point) (points h) then h
  else {| points := points h ++ [point] |}.

(** [sum(...)], which starts from the integer 0. *)
Definition float_sum (l : list float) : float :=
  fold_left float_add l (float_of_nat 0).

Definition center (h : HullTracker) : option Point :=
  match points h with
  | [] => None
  | _ :: _ =>
      let x := float_sum (map fst (set_order (points h))) in
      let y := float_sum (map snd (set_order (points h))) in
      let n := float_of_nat (List.length (points h)) in
      Some (float_div x n, float_div y n)
  end.

Definition boundingbox (pmin pmax : Point) : list Point :=
  [ (fst pmin, snd pmin);
    (fst pmin, snd pmax);
    (fst pmax, snd pmax);
    (fst pmax, snd pmin) ].

(** The loop of [exterior] over the points after the first. *)
Fixpoint extent (min_x max_x min_y max_y : float) (pts : list Point)
  : float * float * float * float :=
  match pts with
  | [] => (min_x, max_x, min_y, max_y)
  | (x, y) :: rest =>
      let min_x := if float_ltb x min_x then x else min_x in
      let max_x := if float_ltb max_x x then x else max_x in
      let min_y := if float_ltb y min_y then y else min_y in
      let max_y := if float_ltb max_y y then y else max_y in
      extent min_x max_x min_y max_y rest
  end.

(** [next(points)] finds a first element: the set is not empty. *)
Definition exterior (h : HullTracker) : option (list Point) :=
  match points h with
  | [] => None
  | _ :: _ =>
      match set_order (points h) with
      | [] => None
      | first :: rest =>
          let '(min_x, max_x, min_y, max_y) :=
            extent (fst first) (fst first) (snd first) (snd first) rest in
          Some (boundingbox (min_x, min_y) (max_x, max_y))
      end
  end.

Record KnownObject : Type := { name : string; hull : HullTracker }.

(** [known_objects]: native id to object, in insertion order. *)
Definition registry : Type := list (string * KnownObject).

Definition count {V : Type} (d : list (string * V)) : Z :=
  Z.of_nat (List.length d).

(** [known_objects[k]] *)
Definition lookup {V : Type} (k : string) (d : list (string * V)) : emit V :=
  match dict_get k d with
  | Some v => pure v
  | None => throw KeyError
  end.

(** [if id not in known_objects:
       known_objects[id] = KnownObject(_clean_id(source), HullTracker())] *)
Definition register (id source : string) (known : registry) : registry :=
  if dict_mem id known then known
  else dict_set id {| name := _clean_id source; hull := new_hull |} known.

(** [current_hull.add_point(p)] where [current_hull] is the hull held by
    [known_objects[id]]: the registry sees the new point. *)
Definition add_point_to (id : string) (p : Point) (known : registry)
  : registry :=
  map (fun entry : string * KnownObject =>
         let (k, o) := entry in
         if String.eqb k id
         then (k, {| name := name o; hull := add_point (hull o) p |})
         else (k, o)) known.

(** *** Markers *)

Definition _dump_coords (coords : pyval) : res string :=
  match py_iter coords with
  | Some l => ret (join "," (map py_str l))
  | None => raise TypeError
  end.

Definition header (object_count : Z) : gen :=
  yield [ (nl ++ nl)%string;
          HEADER_MARKER;
          ("; " ++ str_of_Z object_count ++ " known objects" ++ nl)%string ].

(** [json.dumps(polygon, separators=(',', ':'))] on a list of pairs of
    floats. *)
Definition dumps_polygon (polygon : list Point) : string :=
  ("[" ++ join ","
            (map (fun p : Point =>
                    "[" ++ float_json (fst p) ++ "," ++ float_json (snd p)
                        ++ "]") polygon) ++ "]")%string.

(** No call passes [region]; its branch is not embedded. *)
Definition define_object (name : string) (center : pyval)
  (polygon : option (list Point)) : gen :=
  yield [("DEFINE_OBJECT NAME=" ++ name)%string] ;;;
  (if py_truthy center
   then coords <~ lift (_dump_coords center) ;;
        yield [(" CENTER=" ++ coords)%string]
   else pure tt) ;;;
  match polygon with
  | Some ((_ :: _) as pts) =>
      yield [(" POLYGON=" ++ dumps_polygon pts)%string]
  | _ => pure tt
  end ;;;
  yield [nl].

Definition object_start_marker (object_name : string) : gen :=
  yield [("START_CURRENT_OBJECT NAME=" ++ object_name ++ nl)%string].

Definition object_end_marker (object_name : string) : gen :=
  yield [("END_CURRENT_OBJECT NAME=" ++ object_name ++ nl)%string].

(** The value [hull.center()] passes on: a pair, or [None]. *)
Definition center_value (h : HullTracker) : pyval :=
  match center h with
  | Some (x, y) => PList [PFloat x; PFloat y]
  | None => PNone
  end.

(** [for ... in known_objects.values():
       yield from define_object(name, center=hull.center(),
                                polygon=hull.exterior())] *)
Fixpoint define_all (objects : list KnownObject) : gen :=
  match objects with
  | [] => pure tt
  | o :: rest =>
      define_object (name o) (center_value (hull o)) (exterior (hull o)) ;;;
      define_all rest
  end.

Definition preprocess_pipe (infile : list string) : gen := yield infile.

(** *** Geometry of a G-code line *)

Definition parse_gcode (line : string)
  : res (string * list (string * string)) :=
  match split_ws (strip line) with
  | [] => raise ValueError
  | command :: params =>
      ret (command,
           fold_left (fun d p =>
                        match p with
                        | String c r => dict_set (upper_char c) r d
                        | "" => d
                        end) params [])
  end.

(** The test and body every scan pass applies to a line while a hull is
    current: the point of the line, if it is a G command with E, X and Y
    parameters. *)
Definition gcode_point (line : string) : res (option Point) :=
  if startswith (lower (strip line)) "g" then
    '(_, params) <- parse_gcode line ;;
    if dict_mem "E" params && dict_mem "X" params && dict_mem "Y" params then
      match dict_get "X" params, dict_get "Y" params with
      | Some xs, Some ys =>
          match float_of_string xs with
          | None => raise ValueError
          | Some x =>
              match float_of_string ys with
              | None => raise ValueError
              | Some y => ret (Some (x, y))
              end
          end
      | _, _ => raise KeyError
      end
    else ret None
  else ret None.

(** [if current_hull and ...: ... current_hull.add_point(Point(x, y))];
    the current hull is named by the key of its object. *)
Definition track (known : registry) (current_hull : option string)
  (line : string) : res registry :=
  match current_hull with
  | None => ret known
  | Some id =>
      p <- gcode_point line ;;
      match p with
      | Some pt => ret (add_point_to id pt known)
      | None => ret known
      end
  end.

(** *** PrusaSlicer and Slic3r *)

Definition slicer_scan_line (st : registry * option string) (line : string)
  : res (registry * option string) :=
  let '(known_objects, current_hull) := st in
  let '(known_objects, current_hull) :=
    if startswith line "; printing object " then
      let object_id := strip (split_item1 "printing object" line) in
      (register object_id object_id known_objects, Some object_id)
    else (known_objects, current_hull) in
  known_objects <- track known_objects current_hull line ;;
  ret (known_objects, current_hull).

Definition slicer_scan (lines : list string) : res registry :=
  st <- for_lines_res slicer_scan_line ([], None) lines ;; ret (fst st).

Definition slicer_emit_line (known_objects : registry) (_ : unit)
  (line : string) : gen :=
  yield [line] ;;;
  (if startswith line "; generated by" then
     header (count known_objects) ;;;
     define_all (dict_values known_objects)
   else pure tt) ;;;
  (if startswith line "; printing object " then
     o <~ lookup (strip (split_item1 "printing object" line)) known_objects ;;
     object_start_marker (name o)
   else pure tt) ;;;
  (if startswith line "; stop printing object " then
     o <~ lookup (strip (split_item1 "printing object" line)) known_objects ;;
     object_end_marker (name o)
   else pure tt).

Definition preprocess_slicer (infile : list string) : gen :=
  known_objects <~ lift (slicer_scan infile) ;;
  for_lines (slicer_emit_line known_objects) tt infile.

(** *** Cura *)

Record cura_scan_state : Type := {
  cs_known : registry;
  cs_hull : option string;
  cs_last_time_elapsed : option string
}.

Definition cura_scan_line (st : cura_scan_state) (line : string)
  : res cura_scan_state :=
  let after_mesh (known : registry) (current_hull : option string) :=
    known' <- track known current_hull line ;;
    ret {| cs_known := known';
           cs_hull := current_hull;
           cs_last_time_elapsed :=
             if startswith line ";TIME_ELAPSED:" then Some line
             else cs_last_time_elapsed st |} in
  if startswith line ";MESH:" then
    let object_name := strip (after_first ":" line) in
    if String.eqb object_name "NONMESH" then ret st
    else after_mesh (register object_name object_name (cs_known st))
                    (Some object_name)
  else after_mesh (cs_known st) (cs_hull st).

Definition cura_scan (lines : list string) : res cura_scan_state :=
  for_lines_res cura_scan_line
    {| cs_known := []; cs_hull := None; cs_last_time_elapsed := None |} lines.

(** The first emission loop: lines are passed on up to and including the
    first one that is neither blank nor a comment; the second component
    is what the file iterator has left. *)
Fixpoint cura_leading (lines : list string) : list string * list string :=
  match lines with
  | [] => ([], [])
  | line :: rest =>
      if negb (String.eqb (strip line) "") && negb (startswith line ";")
      then ([line], rest)
      else let (passed, remaining) := cura_leading rest in
           (line :: passed, remaining)
  end.

(** [if current_object: yield from object_end_marker(current_object);
    current_object = None], where [current_object] is a name or [None]:
    an empty name counts as false. *)
Definition cura_close (current_object : option string)
  : emit (option string) :=
  match current_object with
  | Some s =>
      if negb (String.eqb s "")
      then object_end_marker s ;;; pure None
      else pure current_object
  | None => pure current_object
  end.

Definition cura_emit_line (known_objects : registry)
  (last_time_elapsed : option string) (current_object : option string)
  (line : string) : emit (option string) :=
  let at_time_elapsed (current_object : option string) :=
    match last_time_elapsed with
    | Some l => if String.eqb line l then cura_close current_object
                else pure current_object
    | None => pure current_object
    end in
  yield [line] ;;;
  if startswith line ";MESH:" then
    current_object <~ cura_close current_object ;;
    let mesh := strip (after_first ":" line) in
    if String.eqb mesh "NONMESH" then pure current_object
    else
      o <~ lookup mesh known_objects ;;
      object_start_marker (name o) ;;;
      at_time_elapsed (Some (name o))
  else at_time_elapsed current_object.

Definition preprocess_cura (infile : list string) : gen :=
  st <~ lift (cura_scan infile) ;;
  let (passed, remaining) := cura_leading infile in
  yield passed ;;;
  header (count (cs_known st)) ;;;
  define_all (dict_values (cs_known st)) ;;;
  current_object <~
    for_lines (cura_emit_line (cs_known st) (cs_last_time_elapsed st))
              None remaining ;;
  cura_close current_object ;;; pure tt.

(** *** ideaMaker *)

(** The scan loop; [next(infile)] takes the line after a [;PRINTING:]
    line out of the iteration, and running out of lines there ends the
    generator with [RuntimeError]. *)
Fixpoint ideamaker_scan (known_objects : registry)
  (current_hull : option string) (lines : list string) : res registry :=
  match lines with
  | [] => ret known_objects
  | line :: rest =>
      if startswith line ";PRINTING:" then
        let name := strip (split_item1 ":" line) in
        match rest with
        | [] => raise RuntimeError
        | id_line :: rest' =>
            if negb (startswith id_line ";PRINTING_ID:")
            then raise AssertionError
            else
              let id := strip (split_item1 ":" id_line) in
              if String.eqb id "-1"
              then ideamaker_scan known_objects current_hull rest'
              else
                known' <- track (register id name known_objects) (Some id)
                                line ;;
                ideamaker_scan known' (Some id) rest'
        end
      else
        known' <- track known_objects current_hull line ;;
        ideamaker_scan known' current_hull rest
  end.

Definition ideamaker_close (current_object : option KnownObject)
  : emit (option KnownObject) :=
  match current_object with
  | Some o => object_end_marker (name o) ;;; pure None
  | None => pure None
  end.

Definition ideamaker_emit_line (known_objects : registry)
  (current_object : option KnownObject) (line : string)
  : emit (option KnownObject) :=
  yield [line] ;;;
  (if startswith line ";TOTAL_NUM:" then
     match int_of_string (strip (split_item1 ":" line)) with
     | None => throw ValueError
     | Some total_num =>
         if (total_num =? count known_objects)%Z then
           header total_num ;;;
           define_all (dict_values known_objects)
         else throw AssertionError
     end
   else pure tt) ;;;
  let at_remaining_time (current_object : option KnownObject) :=
    if String.eqb line (";REMAINING_TIME: 0" ++ nl)
    then ideamaker_close current_object
    else pure current_object in
  if startswith line ";PRINTING_ID:" then
    let printing_id := strip (split_item1 ":" line) in
    current_object <~ ideamaker_close current_object ;;
    if String.eqb printing_id "-1" then pure current_object
    else
      o <~ lookup printing_id known_objects ;;
      object_start_marker (name o) ;;;
      at_remaining_time (Some o)
  else at_remaining_time current_object.

Definition preprocess_ideamaker (infile : list string) : gen :=
  known_objects <~ lift (ideamaker_scan [] None infile) ;;
  current_object <~
    for_lines (ideamaker_emit_line known_objects) None infile ;;
  ideamaker_close current_object ;;; pure tt.

End Preprocess.

(* ================================================================== *)
(** ** SuperSlicer, detection and the driver *)

Section Orchestrator.
Context {F : FloatOps}.

(** *** SuperSlicer *)

(** The arithmetic of [x - w / 2] and [x + w / 2] on decoded JSON
    values: numbers are [int], [bool] or [float]; anything else raises
    [TypeError]. *)
Definition int_of_bool (b : bool) : Z := if b then 1%Z else 0%Z.

Definition opt_overflow {A : Type} (o : option A) : res A :=
  match o with
  | Some a => ret a
  | None => raise OverflowError
  end.

Definition as_float (v : pyval) : res float :=
  match v with
  | PInt z => opt_overflow (float_of_Z z)
  | PBool b => opt_overflow (float_of_Z (int_of_bool b))
  | PFloat x => ret x
  | _ => raise TypeError
  end.

(** [v / 2] *)
Definition halve (v : pyval) : res float :=
  match v with
  | PInt z => opt_overflow (int_truediv z 2)
  | PBool b => opt_overflow (int_truediv (int_of_bool b) 2)
  | PFloat x => ret (float_div x (float_of_nat 2))
  | _ => raise TypeError
  end.

(** [[a, b, *_] = v] *)
Definition unpack2 (v : pyval) : res (pyval * pyval) :=
  match py_iter v with
  | None => raise TypeError
  | Some (a :: b :: _) => ret (a, b)
  | Some _ => raise ValueError
  end.

(** [d.get(k)] *)
Definition dict_get_none (k : string) (d : list (string * pyval)) : pyval :=
  match dict_get k d with
  | Some v => v
  | None => PNone
  end.

Definition superslicer_polygon (object_data : list (string * pyval))
  : res (option (list Point)) :=
  let boundingbox_center := dict_get_none "boundingbox_center" object_data in
  let boundingbox_size := dict_get_none "boundingbox_size" object_data in
  if py_truthy boundingbox_center && py_truthy boundingbox_size then
    '(x, y) <- unpack2 boundingbox_center ;;
    '(w, h) <- unpack2 boundingbox_size ;;
    w2 <- halve w ;; x' <- as_float x ;;
    h2 <- halve h ;; y' <- as_float y ;;
    ret (Some (boundingbox (float_sub x' w2, float_sub y' h2)
                           (float_add x' w2, float_add y' h2)))
  else ret None.

(** [object_data["clean_id"]], formatted into a marker. *)
Definition clean_id_of (object_data : list (string * pyval)) : emit string :=
  v <~ lookup "clean_id" object_data ;; pure (py_str v).

Fixpoint superslicer_define_all
  (objects : list (list (string * pyval))) : gen :=
  match objects with
  | [] => pure tt
  | object_data :: rest =>
      polygon <~ lift (superslicer_polygon object_data) ;;
      id <~ clean_id_of object_data ;;
      define_object id (dict_get_none "object_center" object_data) polygon ;;;
      superslicer_define_all rest
  end.

(** [object_data = json.loads(...)], [object_data["clean_id"] = ...],
    [known_objects[object_data["id"]] = object_data] *)
Definition superslicer_object (line : string)
  (known_objects : list (string * list (string * pyval)))
  : res (list (string * list (string * pyval))) :=
  v <- json_loads (strip (after_first ":" line)) ;;
  match v with
  | PDict object_data =>
      match dict_get "id" object_data with
      | None => raise KeyError
      | Some (PStr id) =>
          ret (dict_set id
                 (dict_set "clean_id" (PStr (_clean_id id)) object_data)
                 known_objects)
      | Some _ => raise TypeError
      end
  | _ => raise TypeError
  end.

(** The first loop, up to the [; plater:] line; it hands the registry and
    the lines the iterator has left to the second loop. *)
Fixpoint superslicer_head
  (known_objects : list (string * list (string * pyval)))
  (lines : list string)
  : emit (list (string * list (string * pyval)) * list string) :=
  match lines with
  | [] => pure (known_objects, [])
  | line :: rest =>
      yield [line] ;;;
      known_objects <~
        (if startswith line "; object:"
         then lift (superslicer_object line known_objects)
         else pure known_objects) ;;
      if startswith line "; plater:" then
        header (count known_objects) ;;;
        superslicer_define_all (dict_values known_objects) ;;;
        pure (known_objects, rest)
      else superslicer_head known_objects rest
  end.

Definition superslicer_emit_line
  (known_objects : list (string * list (string * pyval))) (_ : unit)
  (line : string) : gen :=
  yield [line] ;;;
  (if startswith line "; printing object " then
     o <~ lookup (strip (split_item1 "printing object" line)) known_objects ;;
     id <~ clean_id_of o ;;
     object_start_marker id
   else pure tt) ;;;
  (if startswith line "; stop printing object " then
     o <~ lookup (strip (split_item1 "printing object" line)) known_objects ;;
     id <~ clean_id_of o ;;
     object_end_marker id
   else pure tt).

Definition preprocess_superslicer (infile : list string) : gen :=
  '(known_objects, remaining) <~ superslicer_head [] infile ;;
  for_lines (superslicer_emit_line known_objects) tt remaining.

(** *** Detection *)

Inductive processor : Type :=
| Superslicer | Slicer | Cura | Ideamaker.

Definition run_processor (p : processor) (infile : list string) : gen :=
  match p with
  | Superslicer => preprocess_superslicer infile
  | Slicer => preprocess_slicer infile
  | Cura => preprocess_cura infile
  | Ideamaker => preprocess_ideamaker infile
  end.

Definition SLICERS : list (string * (string * processor)) :=
  [ ("superslicer", ("; generated by SuperSlicer", Superslicer));
    ("prusaslicer", ("; generated by PrusaSlicer", Slicer));
    ("slic3r", ("; generated by Slic3r", Slicer));
    ("cura", (";Generated with Cura_SteamEngine", Cura));
    ("ideamaker", (";Sliced by ideaMaker", Ideamaker)) ].

(** The name and processor of the first dialect whose marker the
    stripped line starts with; [None] when the function falls off its
    end. *)
Definition identify_slicer_marker (line : string)
  : option (string * processor) :=
  match find (fun entry : string * (string * processor) =>
                startswith (strip line) (fst (snd entry))) SLICERS with
  | Some (name, (_, p)) => Some (name, p)
  | None => None
  end.

Inductive log_record : Type :=
| LogInfo (msg : string)
| LogError (msg : string)
| LogDebug (msg arg : string).

(** How the detection loop of [preprocessor] ends. *)
Inductive detection : Type :=
| Identified (name : string) (p : processor)  (* [break] *)
| NoMarker          (* the lines ran out: [processor] is still [None] *)
| EndOfComments.    (* [return] after the error is logged *)

Fixpoint detect (lines : list string) : detection :=
  match lines with
  | [] => NoMarker
  | line :: rest =>
      if String.eqb (strip line) "" then detect rest
      else if negb (startswith line ";") then EndOfComments
      else match identify_slicer_marker line with
           | Some (name, p) => Identified name p
           | None => detect rest
           end
  end.

(** *** [preprocessor] *)

Inductive outcome : Type :=
| ReturnedTrue
| ReturnedNone
| Raised (e : exn).

(** What a call of [preprocessor(infile, outfile)] leaves behind: its
    result, the text written to [outfile], the log records. *)
Record run : Type := {
  result : outcome;
  written : string;
  logged : list log_record
}.

Definition already_annotated (lines : list string) : bool :=
  existsb (fun line => startswith line "DEFINE_OBJECT") lines.

Definition preprocessor (infile : string) : run :=
  let lines := readlines infile in
  if already_annotated lines then
    {| result := ReturnedTrue;
       written := infile;
       logged := [LogInfo "GCode already supports cancellation"] |}
  else
    match detect lines with
    | EndOfComments =>
        {| result := ReturnedNone;
           written := "";
           logged :=
             [LogError
                "Error, reached the end of the comments without finding a slicer marker"] |}
    | NoMarker =>
        (* [processor(infile)] with [processor] being [None] *)
        {| result := Raised TypeError; written := ""; logged := [] |}
    | Identified name p =>
        let g := run_processor p lines in
        {| result := match raised g with
                     | Some e => Raised e
                     | None => ReturnedTrue
                     end;
           written := concat (yielded g);
           logged := [LogDebug "Identified slicer {}" name] |}
    end.

(** *** [process_file_for_cancellation]

    The file system is reduced to the path of the input, given by the
    bytes [file] it holds, and to what the driver does with the scratch
    file: [committed] is the bytes moved over the output path, if any.
    The preprocessor reads the whole input before it writes anything
    (its first loop goes through every line, or it calls [read()]), so
    that bytes which cannot be decoded end the run before any output. *)
Record driver_run : Type := {
  driver_result : outcome;
  committed : option string;
  scratch_left : bool
}.

Definition process_file_for_cancellation (file : string) : driver_run :=
  match read_text file with
  | inl e =>
      {| driver_result := Raised e;
         committed := None;
         scratch_left := true |}
  | inr infile =>
      let r := preprocessor infile in
      match result r with
      | ReturnedTrue =>
          {| driver_result := ReturnedTrue;
             committed := Some (write_text (written r));
             scratch_left := false |}
      | ReturnedNone =>
          {| driver_result := ReturnedNone;
             committed := None;
             scratch_left := false |}
      | Raised e =>
          {| driver_result := Raised e;
             committed := None;
             scratch_left := true |}
      end
  end.

End Orchestrator.

(* ================================================================== *)
(** ** The floats of CPython

    An implementation of the interface: IEEE 754 binary64 with rounding to
    nearest even, given by the Standard Library's specification of
    floating-point numbers; literals are read with correct rounding and
    values are printed with the shortest digits that read back. *)

Module Binary64.

Definition prec : Z := 53.
Definition emax : Z := 1024.

(** The float nearest to [n / d], for [0 <= n] and [0 < d].  The
    quotient is taken with at least 66 bits and one bit more that records
    a non-zero remainder. *)
Definition round_ratio (neg : bool) (n d : Z) : spec_float :=
  if (n =? 0)%Z then S754_zero neg
  else
    let s := Z.max 0 (66 + Z.log2 d - Z.log2 n) in
    let q := (n * 2 ^ s / d)%Z in
    let r := ((n * 2 ^ s) mod d)%Z in
    let m := (2 * q + (if r =? 0 then 0 else 1))%Z in
    binary_normalize prec emax (if neg then - m else m)%Z (- (s + 1))%Z false.

(** The float nearest to [m * 10 ^ e], for [0 <= m]. *)
Definition round_decimal (neg : bool) (m e : Z) : spec_float :=
  if (0 <=? e)%Z then round_ratio neg (m * 10 ^ e) 1
  else round_ratio neg m (10 ^ (- e)).

Definition finite (x : spec_float) : option spec_float :=
  match x with
  | S754_infinity _ => None
  | _ => Some x
  end.

Definition of_Z (z : Z) : spec_float :=
  round_ratio (z <? 0)%Z (Z.abs z) 1.

Definition truediv (a b : Z) : spec_float :=
  round_ratio (negb (Bool.eqb (a <? 0)%Z (b <? 0)%Z)) (Z.abs a) (Z.abs b).

(** *** Reading a literal *)

(** A run of digits in which single underscores may separate digits:
    its value, its number of digits, and what follows it. *)
Fixpoint digitpart (acc : Z) (cnt : nat) (s : string) : Z * nat * string :=
  match s with
  | "" => (acc, cnt, s)
  | String c r =>
      if isdigit c then digitpart (10 * acc + digit_val c) (S cnt) r
      else if Ascii.eqb c "_" then
        match cnt, r with
        | S _, String d _ => if isdigit d then digitpart acc cnt r
                             else (acc, cnt, s)
        | _, _ => (acc, cnt, s)
        end
      else (acc, cnt, s)
  end.

Definition exponent (s : string) : option Z :=
  match s with
  | "" => Some 0%Z
  | String c r =>
      if Ascii.eqb c "e" || Ascii.eqb c "E" then
        let '(neg, r') :=
          match r with
          | String "-" t => (true, t)
          | String "+" t => (false, t)
          | _ => (false, r)
          end in
        match digitpart 0 0 r' with
        | (v, S _, "") => Some (if neg then - v else v)%Z
        | _ => None
        end
      else None
  end.

Definition of_string (s : string) : option spec_float :=
  let t := strip_with isspace_num s in
  let '(neg, body) :=
    match t with
    | String "-" r => (true, r)
    | String "+" r => (false, r)
    | _ => (false, t)
    end in
  let word := lower body in
  if String.eqb word "inf" || String.eqb word "infinity"
  then Some (S754_infinity neg)
  else if String.eqb word "nan" then Some S754_nan
  else
    let '(ip, ni, r1) := digitpart 0 0 body in
    let '(fp, nf, r2) :=
      match r1 with
      | String "." r => digitpart ip 0 r
      | _ => (ip, O, r1)
      end in
    match (ni + nf)%nat with
    | O => None
    | S _ =>
        match exponent r2 with
        | Some e => Some (round_decimal neg fp (e - Z.of_nat nf))
        | None => None
        end
    end.

(** *** Printing *)

(** The exact value of a positive finite float as a fraction. *)
Definition fraction (m : positive) (e : Z) : Z * Z :=
  if (0 <=? e)%Z then (Zpos m * 2 ^ e, 1)%Z else (Zpos m, 2 ^ (- e))%Z.

(** [10 ^ k <= n / d] *)
Definition pow10_le (n d k : Z) : bool :=
  if (0 <=? k)%Z then (10 ^ k * d <=? n)%Z else (d <=? n * 10 ^ (- k))%Z.

(** The largest [k] with [10 ^ k <= n / d], searched downwards from [k]. *)
Fixpoint floor_log10 (fuel : nat) (n d k : Z) : Z :=
  match fuel with
  | O => k
  | S fuel' => if pow10_le n d k then k else floor_log10 fuel' n d (k - 1)
  end.

(** The shortest digits [c], with their exponent [p], such that
    [c * 10 ^ p] reads back as [x]; [digits] counts upwards from the
    number of digits tried so far. *)
Fixpoint shortest (fuel : nat) (x : spec_float) (n d k : Z) (digits : Z)
  : Z * Z :=
  let p := (k - digits + 1)%Z in
  let '(num, den) :=
    if (0 <=? p)%Z then (n, d * 10 ^ p)%Z else (n * 10 ^ (- p), d)%Z in
  let lo := (num / den)%Z in
  let r := (num mod den)%Z in
  let ok_lo := SFeqb x (round_decimal false lo p)
               && negb (lo =? 0)%Z in
  let ok_hi := SFeqb x (round_decimal false (lo + 1) p) in
  let nearer_lo :=
    (2 * r <? den)%Z || ((2 * r =? den)%Z && Z.even lo) in
  match fuel with
  | O => (lo, p)
  | S fuel' =>
      if (r =? 0)%Z && ok_lo then (lo, p)
      else if ok_lo && ok_hi then if nearer_lo then (lo, p) else (lo + 1, p)%Z
      else if ok_lo then (lo, p)
      else if ok_hi then (lo + 1, p)%Z
      else shortest fuel' x n d k (digits + 1)
  end.

Fixpoint zeros (n : nat) : string :=
  match n with
  | O => ""
  | S k => String "0" (zeros k)
  end.

Definition strip_zeros (s : string) : string :=
  match rstrip_with (Ascii.eqb "0") s with
  | "" => "0"
  | t => t
  end.

(** [repr] of a positive finite float [m * 2 ^ e]. *)
Definition repr_positive (m : positive) (e : Z) : string :=
  let '(n, d) := fraction m e in
  let k0 := ((Z.log2 n - Z.log2 d) * 30103 / 100000 + 2)%Z in
  let k := floor_log10 8 n d k0 in
  let '(c, p) := shortest 17 (S754_finite false m e) n d k 1 in
  let all := str_of_Z c in
  let decpt := (p + Z.of_nat (String.length all))%Z in
  let ds := strip_zeros all in
  let len := Z.of_nat (String.length ds) in
  if (decpt <=? -4)%Z || (16 <? decpt)%Z then
    let ex := (decpt - 1)%Z in
    let mant :=
      match ds with
      | String c1 "" => ds
      | String c1 more => String c1 (String "." more)
      | "" => ds
      end in
    let digits := str_of_Z (Z.abs ex) in
    (mant ++ "e" ++ (if ex <? 0 then "-" else "+")%Z
          ++ (if Z.abs ex <? 10 then "0" else "")%Z ++ digits)%string
  else if (decpt <=? 0)%Z then
    ("0." ++ zeros (Z.to_nat (- decpt)) ++ ds)%string
  else if (len <=? decpt)%Z then
    (ds ++ zeros (Z.to_nat (decpt - len)) ++ ".0")%string
  else
    (String.substring 0 (Z.to_nat decpt) ds ++ "."
       ++ String.substring (Z.to_nat decpt) (Z.to_nat (len - decpt)) ds)%string.

Definition sign_text (neg : bool) : string := if neg then "-" else "".

Definition repr (x : spec_float) : string :=
  match x with
  | S754_zero s => (sign_text s ++ "0.0")%string
  | S754_infinity s => (sign_text s ++ "inf")%string
  | S754_nan => "nan"
  | S754_finite s m e => (sign_text s ++ repr_positive m e)%string
  end.

Definition json (x : spec_float) : string :=
  match x with
  | S754_infinity s => (sign_text s ++ "Infinity")%string
  | S754_nan => "NaN"
  | _ => repr x
  end.

End Binary64.

(* ================================================================== *)
(** ** The sets of CPython

    The order in which CPython iterates a set of points: that of the
    slots of its hash table (CPython 3.8 to 3.13, 64-bit).  The hash of a
    point is that of a tuple of two floats; a [nan] coordinate is hashed
    as 0, as before CPython 3.10 (from 3.10 on its hash is taken from the
    address of the object, which no value determines). *)

Module PySet.

Definition two64 : Z := 2 ^ 64.

(** [_PyHASH_MODULUS]: floats are hashed as rational numbers modulo
    [2 ^ 61 - 1]. *)
Definition hash_modulus : Z := 2 ^ 61 - 1.

(** [hash(x)] for a float. *)
Definition float_hash (x : spec_float) : Z :=
  match x with
  | S754_zero _ => 0
  | S754_infinity s => if s then -314159 else 314159
  | S754_nan => 0
  | S754_finite s m e =>
      let h := ((Z.pos m mod hash_modulus) * 2 ^ (e mod 61)) mod hash_modulus in
      let h := if s then - h else h in
      if h =? -1 then -2 else h
  end%Z.

Definition point : Type := (spec_float * spec_float)%type.

(** One round of the hash of a tuple, on unsigned 64-bit numbers. *)
Definition hash_round (acc : Z) (x : spec_float) : Z :=
  let lane := (float_hash x mod two64)%Z in
  let acc := ((acc + lane * 14029467366897019727) mod two64)%Z in
  let acc := (((acc * 2 ^ 31) mod two64) + acc / 2 ^ 33)%Z in
  ((acc * 11400714785074694791) mod two64)%Z.

(** [hash(p)] for a tuple of two floats, as an unsigned number. *)
Definition point_hash (p : point) : Z :=
  let acc := hash_round (hash_round 2870177450012600261 (fst p)) (snd p) in
  let acc :=
    ((acc + Z.lxor 2 (Z.lxor 2870177450012600261 3527539)) mod two64)%Z in
  if (acc =? two64 - 1)%Z then 1546275796%Z else acc.

(** A slot of the table holds a key with its hash, or nothing. *)
Definition table : Type := list (option (Z * point)).

Fixpoint put (i : nat) (entry : Z * point) (t : table) : table :=
  match t, i with
  | [], _ => []
  | _ :: rest, O => Some entry :: rest
  | slot :: rest, S i' => slot :: put i' entry rest
  end.

(** The first free slot among [i], [i + 1], ..., [i + probes]. *)
Fixpoint free_slot (t : table) (i probes : nat) : option nat :=
  match nth_error t i with
  | Some None => Some i
  | _ =>
      match probes with
      | O => None
      | S probes' => free_slot t (S i) probes'
      end
  end.

(** The probe sequence of [set_add_entry] for a key that the table does
    not hold: runs of [LINEAR_PROBES + 1] slots, from one start to the
    next by the recurrence on [perturb]. *)
Fixpoint probe (fuel : nat) (t : table) (mask i perturb : Z) : option nat :=
  match fuel with
  | O => None
  | S fuel' =>
      let probes := if (i + 9 <=? mask)%Z then 9 else 0 in
      match free_slot t (Z.to_nat i) probes with
      | Some j => Some j
      | None =>
          let perturb := (perturb / 32)%Z in
          probe fuel' t mask (Z.land (i * 5 + 1 + perturb) mask) perturb
      end
  end.

Definition insert (t : table) (entry : Z * point) : table :=
  let mask := (Z.of_nat (List.length t) - 1)%Z in
  match probe (List.length t + 64) t mask (Z.land (fst entry) mask)
              (fst entry) with
  | Some j => put j entry t
  | None => t
  end.

Definition entries (t : table) : list (Z * point) :=
  flat_map (fun slot => match slot with
                        | Some entry => [entry]
                        | None => []
                        end) t.

(** The size of the table after a resize: the first power of two above
    [minused], from 8. *)
Fixpoint new_size (fuel : nat) (size minused : Z) : Z :=
  match fuel with
  | O => size
  | S fuel' =>
      if (size <=? minused)%Z then new_size fuel' (2 * size)%Z minused
      else size
  end.

(** [set_table_resize]: the entries are inserted again, in the order of
    their slots. *)
Definition resize (t : table) (used : Z) : table :=
  let minused := (if 50000 <? used then used * 2 else used * 4)%Z in
  fold_left insert (entries t)
    (repeat None (Z.to_nat (new_size 64 8 minused))).

(** [set.add] of a key that the set does not hold. *)
Definition add (t : table) (p : point) : table :=
  let t := insert t (point_hash p, p) in
  let fill := Z.of_nat (List.length (entries t)) in
  let mask := (Z.of_nat (List.length t) - 1)%Z in
  if (fill * 5 <? mask * 3)%Z then t else resize t fill.

(** The keys in the order of their slots, after they were added to an
    empty set. *)
Definition slot_order (l : list point) : list point :=
  map snd (entries (fold_left add l (repeat None 8))).

(** Equality of floats as values of their type (unlike [==], it tells
    the two zeros apart and takes [nan] as equal to itself). *)
Definition same_float (a b : spec_float) : bool :=
  match a, b with
  | S754_zero s, S754_zero s' => Bool.eqb s s'
  | S754_infinity s, S754_infinity s' => Bool.eqb s s'
  | S754_nan, S754_nan => true
  | S754_finite s m e, S754_finite s' m' e' =>
      Bool.eqb s s' && Pos.eqb m m' && Z.eqb e e'
  | _, _ => false
  end.

Definition same_point (p q : point) : bool :=
  same_float (fst p) (fst q) && same_float (snd p) (snd q).

Fixpoint take_out (p : point) (l : list point) : option (list point) :=
  match l with
  | [] => None
  | q :: rest =>
      if same_point p q then Some rest
      else option_map (cons q) (take_out p rest)
  end.

(** [l1] lists the elements of [l2], each as often. *)
Fixpoint same_elements (l1 l2 : list point) : bool :=
  match l1 with
  | [] => match l2 with [] => true | _ => false end
  | p :: rest =>
      match take_out p l2 with
      | Some l2' => same_elements rest l2'
      | None => false
      end
  end.

(** The iteration order of the set.  The table always has a free slot
    for a key, so that the slots hold the keys that were added; the test
    makes this evident without an argument on the probe sequence. *)
Definition iteration_order (l : list point) : list point :=
  if same_elements (slot_order l) l then slot_order l else l.

End PySet.

#[global, refine] Instance python_floats : FloatOps := {|
  float := spec_float;
  float_of_string := Binary64.of_string;
  float_of_Z := fun z => Binary64.finite (Binary64.of_Z z);
  float_of_nat := fun n => Binary64.of_Z (Z.of_nat n);
  int_truediv := fun a b => Binary64.finite (Binary64.truediv a b);
  float_add := SFadd Binary64.prec Binary64.emax;
  float_sub := SFsub Binary64.prec Binary64.emax;
  float_div := SFdiv Binary64.prec Binary64.emax;
  float_ltb := SFltb;
  float_eqb := SFeqb;
  float_str := Binary64.repr;
  float_json := Binary64.json;
  set_order := PySet.iteration_order
|}.
Proof.
- (* the renderings *)
  assert (Happ : forall a b, single_line a = true -> single_line b = true ->
                             single_line (a ++ b) = true).
  { induction a as [| c a IH]; cbn [append single_line]; intros b Ha Hb;
      [exact Hb |].
    apply andb_true_iff in Ha as [Hc Ha]. rewrite Hc. apply IH; assumption. }
  assert (Hint : forall z, single_line (str_of_Z z) = true).
  { assert (Hu : forall d, single_line (NilEmpty.string_of_uint d) = true)
      by (induction d; cbn [NilEmpty.string_of_uint single_line];
          try reflexivity; exact IHd).
    intros z. unfold str_of_Z, NilEmpty.string_of_int.
    destruct (Z.to_int z); [apply Hu | cbn [single_line]; apply Hu]. }
  assert (Hstrip : forall f s, single_line s = true ->
                               single_line (rstrip_with f s) = true).
  { intros f. induction s as [| c s IH]; cbn [rstrip_with single_line];
      intros H; [reflexivity |].
    apply andb_true_iff in H as [Hc Hs]. specialize (IH Hs).
    destruct (rstrip_with f s).
    - destruct (f c); cbn [single_line]; [reflexivity |].
      rewrite Hc. reflexivity.
    - cbn [single_line] in *. rewrite Hc. exact IH. }
  assert (Hzeros : forall n, single_line (Binary64.zeros n) = true)
    by (induction n; [reflexivity | exact IHn]).
  assert (Hsub : forall s n m, single_line s = true ->
                               single_line (String.substring n m s) = true).
  { induction s as [| c s IH]; intros n m H.
    - destruct n, m; reflexivity.
    - cbn [single_line] in H. apply andb_true_iff in H as [Hc Hs].
      destruct n as [| n]; [destruct m as [| m] |];
        cbn [String.substring single_line].
      + reflexivity.
      + rewrite Hc. apply IH, Hs.
      + apply IH, Hs. }
  assert (Hpos : forall m e, single_line (Binary64.repr_positive m e) = true).
  { intros m e. unfold Binary64.repr_positive.
    destruct (Binary64.fraction m e) as [n d].
    destruct (Binary64.shortest 17 (S754_finite false m e) n d _ 1)
      as [c p].
    pose proof (Hstrip (Ascii.eqb "0") (str_of_Z c) (Hint c)) as Hds.
    assert (Hds' : single_line (Binary64.strip_zeros (str_of_Z c)) = true).
    { unfold Binary64.strip_zeros.
      destruct (rstrip_with (Ascii.eqb "0") (str_of_Z c));
        [reflexivity | exact Hds]. }
    clear Hds. revert Hds'.
    generalize (Binary64.strip_zeros (str_of_Z c)).
    generalize (String.length (str_of_Z c)).
    intros len ds Hds. cbv zeta.
    destruct (_ || _).
    - apply Happ.
      + destruct ds as [| c1 [| c2 more]]; [reflexivity | exact Hds |].
        cbn [single_line] in *.
        apply andb_true_iff in Hds as [H1 H2]. rewrite H1. exact H2.
      + apply Happ; [reflexivity |].
        apply Happ; [destruct (_ <? 0)%Z; reflexivity |].
        apply Happ; [destruct (_ <? 10)%Z; reflexivity | apply Hint].
    - destruct (_ <=? 0)%Z.
      + apply Happ; [reflexivity |]. apply Happ; [apply Hzeros | exact Hds].
      + destruct (_ <=? _)%Z.
        * apply Happ; [exact Hds |]. apply Happ; [apply Hzeros | reflexivity].
        * apply Happ; [apply Hsub, Hds |].
          apply Happ; [reflexivity | apply Hsub, Hds]. }
  assert (Hrepr : forall x, single_line (Binary64.repr x) = true).
  { intros [s | s | | s m e]; cbn [Binary64.repr].
    - destruct s; reflexivity.
    - destruct s; reflexivity.
    - reflexivity.
    - apply Happ; [destruct s; reflexivity | apply Hpos]. }
  intros x. split; [apply Hrepr |].
  destruct x as [s | s | | s m e]; try apply Hrepr;
    [destruct s |]; reflexivity.
- (* the order of iteration *)
  assert (Hfloat : forall a b, PySet.same_float a b = true -> a = b).
  { intros [s | s | | s m e] [s' | s' | | s' m' e']; cbn;
      try discriminate; try reflexivity.
    - intros H. apply Bool.eqb_prop in H. congruence.
    - intros H. apply Bool.eqb_prop in H. congruence.
    - intros H. apply andb_true_iff in H as [H He].
      apply andb_true_iff in H as [Hs Hm].
      apply Bool.eqb_prop in Hs. apply Pos.eqb_eq in Hm.
      apply Z.eqb_eq in He. congruence. }
  assert (Hpoint : forall p q, PySet.same_point p q = true -> p = q).
  { intros [a b] [a' b'] H. unfold PySet.same_point in H. cbn in H.
    apply andb_true_iff in H as [Ha Hb].
    apply Hfloat in Ha, Hb. congruence. }
  assert (Htake : forall p l l',
             PySet.take_out p l = Some l' -> Permutation l (p :: l')).
  { intros p l. induction l as [| q rest IH]; intros l'; cbn;
      [discriminate |].
    destruct (PySet.same_point p q) eqn:E.
    - intros H. injection H as <-. apply Hpoint in E. subst q.
      apply Permutation_refl.
    - destruct (PySet.take_out p rest) as [r |]; cbn; [| discriminate].
      intros H. injection H as <-.
      apply Permutation_trans with (q :: p :: r);
        [apply perm_skip, IH; reflexivity | apply perm_swap]. }
  assert (Hsame : forall l1 l2,
             PySet.same_elements l1 l2 = true -> Permutation l1 l2).
  { induction l1 as [| p rest IH]; intros l2; cbn.
    - destruct l2; [intros _; apply perm_nil | discriminate].
    - destruct (PySet.take_out p l2) as [l2' |] eqn:E; [| discriminate].
      intros H. apply Permutation_sym.
      apply Permutation_trans with (p :: l2'); [apply (Htake p l2 l2' E) |].
      apply perm_skip, Permutation_sym, IH, H. }
  intros l. unfold PySet.iteration_order.
  destruct (PySet.same_elements (PySet.slot_order l) l) eqn:E.
  + apply Hsame, E.
  + apply Permutation_refl.
Defined.

(* ================================================================== *)
(** ** Vocabulary of the properties *)

Definition dq : string := String "034" "".

(** The five dialect markers of [SLICERS]. *)
Definition dialect_markers : list string :=
  [ "; generated by SuperSlicer";
    "; generated by PrusaSlicer";
    "; generated by Slic3r";
    ";Generated with Cura_SteamEngine";
    ";Sliced by ideaMaker" ].

(** The leading block of a file: its lines up to the first one that is
    neither blank nor a comment. *)
Fixpoint leading_block (lines : list string) : list string :=
  match lines with
  | [] => []
  | line :: rest =>
      if String.eqb (strip line) "" || startswith line ";"
      then line :: leading_block rest
      else []
  end.

(** A line of the file begins with the token of an object definition. *)
Definition annotated (infile : string) : Prop :=
  exists line,
    In line (readlines infile) /\ startswith line "DEFINE_OBJECT" = true.

(** The file can be read, and a line of its text begins with the token
    of an object definition. *)
Definition annotated_file (file : string) : Prop :=
  exists infile, read_text file = inr infile /\ annotated infile.

(** The bytes hold no carriage return. *)
Definition no_carriage_return (file : string) : bool :=
  forallb (fun c => negb (Ascii.eqb c "013")) (list_ascii_of_string file).

(** A text that is empty or ends with a newline: what follows it starts
    a line. *)
Definition ends_line (s : string) : Prop :=
  s = "" \/ exists t, s = (t ++ nl)%string.

(** No line of the leading block starts, once stripped, with a marker. *)
Definition no_marker_in_leading_block (infile : string) : Prop :=
  forall line marker,
    In line (leading_block (readlines infile)) ->
    In marker dialect_markers ->
    startswith (strip line) marker = false.

Section ClaimVocabulary.
Context {F : FloatOps}.

(** The preprocessor succeeds on [infile] and writes [out]. *)
Definition succeeds_with (infile out : string) : Prop :=
  result (preprocessor infile) = ReturnedTrue /\
  written (preprocessor infile) = out.

(** No success, nothing written, and nothing committed for a file
    whose text is [infile]. *)
Definition fails_cleanly (infile : string) : Prop :=
  result (preprocessor infile) <> ReturnedTrue /\
  written (preprocessor infile) = "" /\
  forall file,
    read_text file = inr infile ->
    committed (process_file_for_cancellation file) = None.

(** C1 as the specification words it: the file committed is the input
    file, byte for byte. *)
Definition copied_byte_identical (file : string) : Prop :=
  committed (process_file_for_cancellation file) = Some file.

(** The points of the hull registered under [id]. *)
Definition hull_points (id : string) (known : registry) : list Point :=
  match dict_get id known with
  | Some o => points (hull o)
  | None => []
  end.

End ClaimVocabulary.

(** The id of a [; printing object <id>] line. *)
Definition printing_object_id (line : string) : option string :=
  if startswith line "; printing object "
  then Some (strip (split_item1 "printing object" line))
  else None.

(** [line] is the [; stop printing object <id>] line of [id]. *)
Definition stops_object (id line : string) : bool :=
  startswith line "; stop printing object "
  && String.eqb (strip (split_item1 "printing object" line)) id.

(** Line [j] lies after a [; printing object <id>] line with no
    [; stop printing object <id>] line in between. *)
Definition in_window (id : string) (lines : list string) (j : nat) : Prop :=
  exists i opening,
    i < j /\
    nth_error lines i = Some opening /\
    printing_object_id opening = Some id /\
    forall k l, i < k < j -> nth_error lines k = Some l ->
                stops_object id l = false.

(** The id of the last [; printing object] line among lines [0..j],
    starting from [cur] when there is none. *)
Fixpoint printing_at (cur : option string) (lines : list string) (j : nat)
  : option string :=
  match lines with
  | [] => cur
  | line :: rest =>
      let cur' := match printing_object_id line with
                  | Some id => Some id
                  | None => cur
                  end in
      match j with
      | O => cur'
      | S j' => printing_at cur' rest j'
      end
  end.

Section ScanVocabulary.
Context {F : FloatOps}.

(** C3 as the specification words it: every point of a hull comes from a
    G-command line inside a window of that hull's id. *)
Definition points_only_inside_windows (lines : list string) : Prop :=
  forall (known : registry) (id : string) (p : Point),
    slicer_scan lines = inr known ->
    In p (hull_points id known) ->
    exists j line,
      nth_error lines j = Some line
      /\ gcode_point line = inr (Some p)
      /\ in_window id lines j.

(** The point [p] is in a hull: itself, or as a point equal to it that
    the set already held. *)
Definition recorded (p : Point) (hull_points : list Point) : Prop :=
  In p hull_points
  \/ exists q, In q hull_points /\ point_eqb p q = true.

(** The current hull, if any, is the hull of a registered id. *)
Definition registered (cur : option string) (known : registry) : Prop :=
  forall id, cur = Some id -> dict_mem id known = true.

End ScanVocabulary.

(** *** Sanitization as the design words it *)

(** The maximal runs of a string, each with the flag of its characters:
    [true] for word characters (alphanumeric or underscore). *)
Fixpoint runs (s : string) : list (bool * string) :=
  match s with
  | "" => []
  | String c s' =>
      match runs s' with
      | (b, r) :: rest =>
          if Bool.eqb b (isword c) then (b, String c r) :: rest
          else (isword c, String c "") :: (b, r) :: rest
      | [] => [(isword c, String c "")]
      end
  end.

(** The string starts with a character that is not a word character. *)
Definition starts_nonword (s : string) : bool :=
  match s with
  | String c _ => negb (isword c)
  | "" => false
  end.

(** A run of other characters collapses to one underscore. *)
Definition collapse (run : bool * string) : string :=
  if fst run then snd run else "_".

Fixpoint drop_underscores (l : list ascii) : list ascii :=
  match l with
  | c :: rest => if Ascii.eqb c "_" then drop_underscores rest else l
  | [] => []
  end.

(** Underscores are removed from both ends. *)
Definition trim_underscores (s : string) : string :=
  string_of_list_ascii
    (rev (drop_underscores (rev (drop_underscores (list_ascii_of_string s))))).

Definition sanitize (id : string) : string :=
  trim_underscores (concat (map collapse (runs id))).

(** *** Header and definition lines *)

Section MarkerVocabulary.
Context {F : FloatOps}.

(** The chunks of the header for [n] objects. *)
Definition header_chunks (n : Z) : list string :=
  [ (nl ++ nl)%string;
    HEADER_MARKER;
    ("; " ++ str_of_Z n ++ " known objects" ++ nl)%string ].

(** The chunks of the definition line of a registered object: its name,
    the centre and the rectangle of its hull when it has points. *)
Definition definition_chunks (o : KnownObject) : list string :=
  [("DEFINE_OBJECT NAME=" ++ name o)%string]
  ++ match center (hull o) with
     | Some (x, y) =>
         [(" CENTER=" ++ float_str x ++ "," ++ float_str y)%string]
     | None => []
     end
  ++ match exterior (hull o) with
     | Some polygon => [(" POLYGON=" ++ dumps_polygon polygon)%string]
     | None => []
     end
  ++ [nl].

End MarkerVocabulary.

(** *** Order on coordinates *)

Section OrderVocabulary.
Context {F : FloatOps}.

(** [a <= b] on floats: [a < b or a == b]. *)
Definition float_leb (a b : float) : bool := float_ltb a b || float_eqb a b.

(** The comparison [<] is a strict total order on the values of [l]:
    so it is on floats other than [nan]. *)
Definition strict_total_on (l : list float) : Prop :=
  (forall a, In a l -> float_ltb a a = false) /\
  (forall a b c, In a l -> In b l -> In c l ->
                 float_ltb a b = true -> float_ltb b c = true ->
                 float_ltb a c = true) /\
  (forall a b, In a l -> In b l ->
               float_ltb a b = true \/ float_eqb a b = true
               \/ float_ltb b a = true).

Definition is_min (m : float) (l : list float) : Prop :=
  In m l /\ forall x, In x l -> float_leb m x = true.

Definition is_max (m : float) (l : list float) : Prop :=
  In m l /\ forall x, In x l -> float_leb x m = true.

(** A check of [strict_total_on] by evaluation. *)
Definition strict_total_onb (l : list float) : bool :=
  forallb (fun a => negb (float_ltb a a)) l
  && forallb (fun a =>
       forallb (fun b =>
         forallb (fun c =>
           implb (float_ltb a b && float_ltb b c) (float_ltb a c)) l) l) l
  && forallb (fun a =>
       forallb (fun b =>
         float_ltb a b || float_eqb a b || float_ltb b a) l) l.

(** The minimum and the maximum kept by the loop of [exterior]. *)
Definition run_min (m : float) (l : list float) : float :=
  fold_left (fun m x => if float_ltb x m then x else m) l m.

Definition run_max (m : float) (l : list float) : float :=
  fold_left (fun m x => if float_ltb m x then x else m) l m.

(** The polygon is the rectangle of the points: its four corners, from
    the least and the greatest coordinate on each axis. *)
Definition bounding_rectangle (pts polygon : list Point) : Prop :=
  exists min_x max_x min_y max_y,
    polygon = [ (min_x, min_y); (min_x, max_y);
                (max_x, max_y); (max_x, min_y) ]
    /\ is_min min_x (map fst pts) /\ is_max max_x (map fst pts)
    /\ is_min min_y (map snd pts) /\ is_max max_y (map snd pts).

(** C7 as the specification words it, for the points [pts]. *)
Definition exterior_is_bounding_rectangle (pts : list Point) : Prop :=
  exists polygon,
    exterior {| points := pts |} = Some polygon
    /\ bounding_rectangle pts polygon.

End OrderVocabulary.

(** The point with whole coordinates [x] and [y]. *)
Definition pt (x y : Z) : Point (F := python_floats) :=
  (Binary64.of_Z x, Binary64.of_Z y).

(** Two lines of a file, and the points the scan passes read from them:
    the X value of the first one is not a number. *)
Definition nan_lines : list string :=
  [ ("G1 Xnan Y0 E1" ++ nl)%string; ("G1 X1 Y0 E1" ++ nl)%string ].

Definition nan_points : list (Point (F := python_floats)) :=
  [ (S754_nan, Binary64.of_Z 0); pt 1 0 ].

(** *** Markers in an output *)

Inductive marker : Type :=
| Start (object_line : string)
| End_ (object_line : string).

(** The marker a chunk of the output is, with what follows NAME= on its
    line. *)
Definition marker_of (chunk : string) : option marker :=
  if startswith chunk "START_CURRENT_OBJECT NAME="
  then Some (Start (drop 26 chunk))
  else if startswith chunk "END_CURRENT_OBJECT NAME="
  then Some (End_ (drop 24 chunk))
  else None.

(** Start and end markers alternate from the state [open] (the object
    started and not yet ended, if any), every end names the object
    started before it, and nothing is open at the end. *)
Fixpoint balanced (open : option string) (chunks : list string) : Prop :=
  match chunks with
  | [] => open = None
  | chunk :: rest =>
      match marker_of chunk with
      | Some (Start object_line) =>
          open = None /\ balanced (Some object_line) rest
      | Some (End_ object_line) =>
          open = Some object_line /\ balanced None rest
      | None => balanced open rest
      end
  end.

(** A line with its newline: the newline is its last character and its
    only one. *)
Fixpoint whole_line (s : string) : bool :=
  match s with
  | "" => false
  | String c s' =>
      match s' with
      | "" => Ascii.eqb c "010"
      | String _ _ => negb (Ascii.eqb c "010") && whole_line s'
      end
  end.

(** The chunks make up whole lines, and the lines of their text carry
    the markers the chunks carry: what is balanced over the chunks is
    balanced over the lines. *)
Definition line_structured (chunks : list string) : Prop :=
  ends_line (concat chunks) /\
  forall (open : option string) (tail : list string),
    balanced open (chunks ++ tail) ->
    balanced open (readlines (concat chunks) ++ tail).

Section OpenObject.
Context {F : FloatOps}.

(** The name of every registered object is free of newlines. *)
Definition names_single_line (known : registry) : Prop :=
  Forall (fun entry : string * KnownObject =>
            single_line (name (snd entry)) = true) known.

(** What follows NAME= on the markers of the object an emission pass
    holds open: for ideaMaker, which holds the object, and for Cura,
    which holds its name. *)
Definition open_object (current_object : option KnownObject)
  : option string :=
  option_map (fun o => (name o ++ nl)%string) current_object.

Definition open_name (current_object : option string) : option string :=
  option_map (fun s => (s ++ nl)%string) current_object.

(** The name held by [current_object], if any, is not empty. *)
Definition name_ok (current_object : option string) : Prop :=
  match current_object with
  | Some s => s <> ""
  | None => True
  end.

(** No registered object has an empty name. *)
Definition names_nonempty (known : registry) : Prop :=
  forall k o, dict_get k known = Some o -> name o <> "".

End OpenObject.

(** Example files. *)
Definition annotated_example : string :=
  "G1 X0" ++ nl ++ "DEFINE_OBJECT NAME=a" ++ nl ++ "G1 X1" ++ nl.

(** The same file with the line ends of DOS, and what is committed for
    it. *)
Definition crlf : string := String "013" nl.

Definition annotated_crlf : string :=
  "G1 X0" ++ crlf ++ "DEFINE_OBJECT NAME=a" ++ crlf ++ "G1 X1" ++ crlf.


Definition prusa_one_object : string :=
  "; generated by PrusaSlicer" ++ nl ++ "; printing object a" ++ nl
  ++ "G1 X1 Y1 E1" ++ nl ++ "; stop printing object a" ++ nl.

Definition prusa_one_object_output : string :=
  Eval vm_compute in
    written (preprocessor (F := python_floats) prusa_one_object).

Definition comments_then_code : string :=
  "; some other slicer" ++ nl ++ nl ++ "G28" ++ nl.

(** A line of text with its newline. *)
Definition ln (s : string) : string := (s ++ nl)%string.

(** The registry the scan pass builds from [prusa_after_stop]. *)
Definition prusa_after_stop_known : registry (F := python_floats) :=
  [ ("a", {| name := "a"; hull := {| points := [pt 1 1; pt 9 9] |} |}) ].

(** An ideaMaker file around its [;TOTAL_NUM:] line, and the registry its
    scan pass builds. *)
Definition ideamaker_before : list string := [ln ";Sliced by ideaMaker"].

Definition ideamaker_after : list string :=
  [ ln ";PRINTING: part.3mf";
    ln ";PRINTING_ID: 0";
    ln "G1 X1 Y1 E1";
    ln ";PRINTING_ID: -1";
    ln ";REMAINING_TIME: 0" ].

Definition ideamaker_known : registry (F := python_floats) :=
  [ ("0", {| name := "part_3mf"; hull := {| points := [pt 1 1] |} |}) ].

Definition prusa_after_stop : list string :=
  [ ln "; printing object a";
    ln "G1 X1 Y1 E1";
    ln "; stop printing object a";
    ln "G1 X9 Y9 E1" ].

Definition superslicer_scenario : list string :=
  [ ln ("; object: {" ++ dq ++ "id" ++ dq ++ ":" ++ dq ++ "a" ++ dq ++ ","
        ++ dq ++ "name" ++ dq ++ ":" ++ dq ++ "a" ++ dq ++ ","
        ++ dq ++ "object_center" ++ dq ++ ":[1,1,0]}");
    ln "; plater:";
    ln "; printing object a";
    ln "G1 X0 Y0";
    ln "; stop printing object a" ].

Definition cura_empty_name : list string :=
  [ ln ";Generated with Cura_SteamEngine";
    ln "G28";
    ln ";MESH:!!!";
    ln ";MESH:a" ].

(** *** Vocabulary of the further properties *)

(** A letter or a digit: a word character other than the underscore. *)
Definition isalnum (c : ascii) : bool := isword c && negb (Ascii.eqb c "_").

Definition first_char (s : string) : option ascii :=
  match s with
  | String c _ => Some c
  | "" => None
  end.

Fixpoint last_char (s : string) : option ascii :=
  match s with
  | "" => None
  | String c "" => Some c
  | String _ s' => last_char s'
  end.

(** The value of the last parameter of a G-code line whose letter, once
    upper-cased, is [key]. *)
Fixpoint last_param (key : string) (params : list string) : option string :=
  match params with
  | [] => None
  | p :: rest =>
      match last_param key rest with
      | Some v => Some v
      | None =>
          match p with
          | String c r =>
              if String.eqb key (upper_char c) then Some r else None
          | "" => None
          end
      end
  end.

(** A line of whitespace only. *)
Definition blank (line : string) : bool :=
  forallb isspace (list_ascii_of_string line).

Section HullVocabulary.
Context {F : FloatOps}.


End HullVocabulary.

(** A line the detection loop passes over: blank, or a comment without
    dialect marker. *)
Definition passed_over (line : string) : bool :=
  String.eqb (strip line) ""
  || (startswith line ";"
      && match identify_slicer_marker line with
         | Some _ => false
         | None => true
         end).

(** The ids of the [; printing object <id>] lines, in the order of the
    lines. *)
Definition printing_ids (lines : list string) : list string :=
  flat_map (fun line => match printing_object_id line with
                        | Some id => [id]
                        | None => []
                        end) lines.

Definition add_key (keys : list string) (k : string) : list string :=
  if existsb (String.eqb k) keys then keys else keys ++ [k].

(** The distinct elements of a list, in the order of their first
    occurrence. *)
Definition first_occurrences (ids : list string) : list string :=
  fold_left add_key ids [].

(** The id of a [; stop printing object <id>] line. *)
Definition stop_object_id (line : string) : option string :=
  if startswith line "; stop printing object "
  then Some (strip (split_item1 "printing object" line))
  else None.

Section SlicerVocabulary.
Context {F : FloatOps}.

(** Every registered object is named by the sanitized form of its id. *)
Definition names_clean (known : registry) : Prop :=
  forall k o, dict_get k known = Some o -> name o = _clean_id k.

(** A line of a PrusaSlicer or Slic3r file with what is written after it:
    the header and the definitions after a [; generated by] line, a start
    marker after a [; printing object] line, an end marker after a
    [; stop printing object] line, each marker with the sanitized id of
    its own line. *)
Definition slicer_annotation (known : registry) (line : string)
  : list string :=
  line
  :: (if startswith line "; generated by"
      then header_chunks (count known)
           ++ flat_map definition_chunks (dict_values known)
      else [])
  ++ match printing_object_id line with
     | Some id => [("START_CURRENT_OBJECT NAME=" ++ _clean_id id ++ nl)%string]
     | None => []
     end
  ++ match stop_object_id line with
     | Some id => [("END_CURRENT_OBJECT NAME=" ++ _clean_id id ++ nl)%string]
     | None => []
     end.

End SlicerVocabulary.

(** A PrusaSlicer file with two objects, the second one printed twice,
    and the registry its scan pass builds. *)
Definition prusa_two_objects : list string :=
  [ ln "; generated by PrusaSlicer";
    ln "; printing object b id:1";
    ln "G1 X1 Y1 E1";
    ln "; stop printing object b id:1";
    ln "; printing object a";
    ln "; stop printing object a";
    ln "; printing object b id:1";
    ln "G1 X3 Y2 E1";
    ln "; stop printing object b id:1" ].

Definition prusa_two_objects_known : registry (F := python_floats) :=
  [ ("b id:1", {| name := "b_id_1";
                  hull := {| points := [pt 1 1; pt 3 2] |} |});
    ("a", {| name := "a"; hull := {| points := [] |} |}) ].

(** A file that stops an object it never started. *)
Definition prusa_unknown_stop : list string :=
  [ ln "; generated by PrusaSlicer";
    ln "; stop printing object a";
    ln "G1 X1 Y1 E1" ].

(** The registry the scan pass builds from [prusa_one_object]. *)
Definition prusa_one_object_known : registry (F := python_floats) :=
  [ ("a", {| name := "a"; hull := {| points := [pt 1 1] |} |}) ].

(** The name on a [;MESH:<name>] line of a Cura file. *)
Definition mesh_name (line : string) : option string :=
  if startswith line ";MESH:"
  then Some (strip (after_first ":" line))
  else None.

(** The string has a letter or a digit. *)
Definition has_alnum (s : string) : bool :=
  existsb isalnum (list_ascii_of_string s).

(** A Cura file with one mesh, and one whose G command cannot be read. *)
Definition cura_one_mesh : list string :=
  [ ln ";Generated with Cura_SteamEngine";
    ln "G28";
    ln ";MESH:cube.stl";
    ln "G1 X1 Y1 E1";
    ln ";MESH:NONMESH";
    ln "G1 X5 Y5";
    ln ";TIME_ELAPSED:12.5" ].

Definition cura_bad_coordinate : list string :=
  [ ln ";Generated with Cura_SteamEngine";
    ln ";MESH:cube.stl";
    ln "G1 Xa Y1 E1" ].

(** An ideaMaker file without [;TOTAL_NUM:] line. *)
Definition ideamaker_no_total : list string :=
  ideamaker_before ++ ideamaker_after.

(** An ideaMaker file cut after a [;PRINTING:] line. *)
Definition ideamaker_cut : list string := [ln ";Sliced by ideaMaker"].

(** [l1] is [l2] with some elements left out: the elements of [l1]
    occur in [l2] in the same order. *)
Inductive subsequence {A : Type} : list A -> list A -> Prop :=
| sub_nil : forall l, subsequence [] l
| sub_keep : forall x l1 l2,
    subsequence l1 l2 -> subsequence (x :: l1) (x :: l2)
| sub_skip : forall x l1 l2,
    subsequence l1 l2 -> subsequence l1 (x :: l2).

(** A SuperSlicer file without [; plater:] line. *)
Definition superslicer_no_plater : list string :=
  [ ln "; generated by SuperSlicer";
    nth 0 superslicer_scenario "";
    ln "; printing object a";
    ln "G1 X0 Y0";
    ln "; stop printing object a" ].

(** A line of the part of a SuperSlicer file after [; plater:], with the
    marker written after it. *)
Definition marker_annotation (line : string) : list string :=
  line
  :: match printing_object_id line with
     | Some id => [("START_CURRENT_OBJECT NAME=" ++ _clean_id id ++ nl)%string]
     | None => []
     end
  ++ match stop_object_id line with
     | Some id => [("END_CURRENT_OBJECT NAME=" ++ _clean_id id ++ nl)%string]
     | None => []
     end.

Section SuperslicerVocabulary.
Context {F : FloatOps}.

(** Every declared object carries the sanitized form of its id. *)
Definition clean_ids_set (known : list (string * list (string * pyval)))
  : Prop :=
  forall k o, dict_get k known = Some o ->
              dict_get "clean_id" o = Some (PStr (_clean_id k)).

End SuperslicerVocabulary.

(** What the first loop of [preprocess_superslicer] leaves on the
    scenario: the object it declared and the lines after [; plater:]. *)
Definition superslicer_scenario_known
  : list (string * list (string * pyval (F := python_floats))) :=
  [ ("a", [ ("id", PStr "a"); ("name", PStr "a");
            ("object_center", PList [PInt 1; PInt 1; PInt 0]);
            ("clean_id", PStr "a") ]) ].

Definition superslicer_scenario_rest : list string :=
  [ ln "; printing object a";
    ln "G1 X0 Y0";
    ln "; stop printing object a" ].

(** The id of the last [;MESH:] line other than NONMESH among lines
    [0..j], starting from [cur] when there is none. *)
Fixpoint mesh_at (cur : option string) (lines : list string) (j : nat)
  : option string :=
  match lines with
  | [] => cur
  | line :: rest =>
      let cur' := match mesh_name line with
                  | Some n => if String.eqb n "NONMESH" then cur else Some n
                  | None => cur
                  end in
      match j with
      | O => cur'
      | S j' => mesh_at cur' rest j'
      end
  end.

(** A Cura scan in which a G command follows a NONMESH line. *)
Definition cura_after_nonmesh : list string :=
  [ ln ";MESH:a";
    ln "G1 X1 Y1 E1";
    ln ";MESH:NONMESH";
    ln "G1 X9 Y9 E1" ].

Definition cura_after_nonmesh_state : cura_scan_state (F := python_floats) :=
  {| cs_known :=
       [ ("a", {| name := "a"; hull := {| points := [pt 1 1; pt 9 9] |} |}) ];
     cs_hull := Some "a";
     cs_last_time_elapsed := None |}.

Section IdeamakerVocabulary.
Context {F : FloatOps}.

(** The name of the object registered under [id], if any. *)
Definition name_of (id : string) (known : registry) : option string :=
  option_map name (dict_get id known).

End IdeamakerVocabulary.

(** A [;PRINTING:] line directly followed by the [;PRINTING_ID:] line of
    [id] announces the object [id] under the sanitized form of the second
    of the fields into which the colons divide the [;PRINTING:] line. *)
Definition announces (lines : list string) (id name : string) : Prop :=
  exists pre line id_line post,
    lines = pre ++ line :: id_line :: post
    /\ startswith line ";PRINTING:" = true
    /\ startswith id_line ";PRINTING_ID:" = true
    /\ strip (split_item1 ":" id_line) = id
    /\ _clean_id (strip (split_item1 ":" line)) = name.

(** The registry the scan pass builds from [ideamaker_no_total]. *)
Definition ideamaker_no_total_known : registry (F := python_floats) :=
  [ ("0", {| name := "part_3mf"; hull := {| points := [pt 1 1] |} |}) ].

(* ================================================================== *)
(** ** Properties of the orchestrator *)

Unset Implicit Arguments.

Section OrchestratorFacts.
Context {F : FloatOps}.

Lemma already_annotated_spec (infile : string) :
  already_annotated (readlines infile) = true <-> annotated infile.
Proof.
  unfold already_annotated, annotated.
  rewrite existsb_exists.
  split; intros [line Hline]; exists line; exact Hline.
Qed.

Lemma not_annotated_spec (infile : string) :
  ~ annotated infile -> already_annotated (readlines infile) = false.
Proof.
  intros Hn.
  destruct (already_annotated (readlines infile)) eqn:E; [|reflexivity].
  exfalso. apply Hn. apply already_annotated_spec. exact E.
Qed.

(** The idempotency guard: an annotated file is written back as it is. *)
Lemma preprocessor_passthrough (infile : string) :
  annotated infile ->
  preprocessor infile =
    {| result := ReturnedTrue;
       written := infile;
       logged := [LogInfo "GCode already supports cancellation"] |}.
Proof.
  intros H. apply already_annotated_spec in H.
  unfold preprocessor. rewrite H. reflexivity.
Qed.

Lemma dialect_markers_of_SLICERS :
  map (fun entry : string * (string * processor) => fst (snd entry)) SLICERS
  = dialect_markers.
Proof. reflexivity. Qed.

(** A line that starts with no marker is identified with no dialect. *)
Lemma identify_no_marker (line : string) :
  (forall marker, In marker dialect_markers ->
                  startswith (strip line) marker = false) ->
  identify_slicer_marker line = None.
Proof.
  intros H.
  unfold identify_slicer_marker, SLICERS, dialect_markers in *.
  cbn [find fst snd].
  repeat (rewrite H; [| cbn [In]; tauto]).
  reflexivity.
Qed.

(** Detection identifies nothing when the leading block has no marker. *)
Lemma detect_no_marker (lines : list string) :
  (forall line marker,
      In line (leading_block lines) -> In marker dialect_markers ->
      startswith (strip line) marker = false) ->
  detect lines = NoMarker \/ detect lines = EndOfComments.
Proof.
  induction lines as [| line rest IH]; intros H; cbn [detect].
  - left; reflexivity.
  - cbn [leading_block] in H.
    destruct (String.eqb (strip line) "") eqn:Eblank; cbn [orb] in H.
    + apply IH. intros l m Hl Hm. apply H; [right; exact Hl | exact Hm].
    + destruct (startswith line ";") eqn:Ecomment; cbn [negb].
      * rewrite identify_no_marker.
        -- apply IH. intros l m Hl Hm. apply H; [right; exact Hl | exact Hm].
        -- intros m Hm. apply H; [left; reflexivity | exact Hm].
      * right; reflexivity.
Qed.

End OrchestratorFacts.

Lemma annotated_example_annotated : annotated annotated_example.
Proof.
  exists (ln "DEFINE_OBJECT NAME=a"). split.
  - vm_compute. right. left. reflexivity.
  - reflexivity.
Defined.

(** *** Reading and writing text *)

Lemma code_of_code_point (n : N) :
  (n < 256)%N -> code (ascii_of_N n) = n.
Proof. apply N_ascii_embedding. Qed.

Lemma two_bytes (b b2 : ascii) :
  between 194 195 b = true ->
  between 128 191 b2 = true ->
  let c := ascii_of_N ((code b - 192) * 64 + (code b2 - 128)) in
  (code c <? 128)%N = false
  /\ Ascii.eqb c "013" = false
  /\ Ascii.eqb b "013" = false
  /\ Ascii.eqb b2 "013" = false
  /\ ascii_of_N (192 + code c / 64) = b
  /\ ascii_of_N (128 + code c mod 64) = b2.
Proof.
  unfold between. intros Hb Hb2.
  apply andb_true_iff in Hb as [Hb1 Hb3], Hb2 as [Hb4 Hb5].
  apply N.leb_le in Hb1, Hb3, Hb4, Hb5.
  cbv zeta.
  assert (Hc : code (ascii_of_N ((code b - 192) * 64 + (code b2 - 128)))
               = ((code b - 192) * 64 + (code b2 - 128))%N)
    by (apply code_of_code_point; lia).
  assert (Hdiv : (((code b - 192) * 64 + (code b2 - 128)) / 64
                  = code b - 192)%N).
  { rewrite N.div_add_l by lia. rewrite N.div_small by lia. lia. }
  assert (Hmod : (((code b - 192) * 64 + (code b2 - 128)) mod 64
                  = code b2 - 128)%N).
  { rewrite N.add_comm, N.Div0.mod_add. apply N.mod_small. lia. }
  rewrite Hc, Hdiv, Hmod.
  repeat split.
  - apply N.ltb_ge. lia.
  - apply Ascii.eqb_neq. intros E.
    apply (f_equal code) in E. rewrite Hc in E.
    change (code "013") with 13%N in E. lia.
  - apply Ascii.eqb_neq. intros ->. change (code "013") with 13%N in Hb1.
    lia.
  - apply Ascii.eqb_neq. intros ->. change (code "013") with 13%N in Hb4.
    lia.
  - replace (192 + (code b - 192))%N with (code b) by lia.
    apply ascii_N_embedding.
  - replace (128 + (code b2 - 128))%N with (code b2) by lia.
    apply ascii_N_embedding.
Qed.

(** Decoding a file, reading its line ends as newlines and encoding the
    text again rewrites the line ends of the file and changes nothing
    else. *)
Lemma encode_read_text (n : nat) :
  forall bytes text,
    String.length bytes < n ->
    utf8_decode bytes = inr text ->
    utf8_encode (universal_newlines text) = universal_newlines bytes.
Proof.
  induction n as [| n IH]; intros bytes text Hlen; [inversion Hlen |].
  destruct bytes as [| b rest]; cbn [utf8_decode].
  - intros H. injection H as <-. reflexivity.
  - cbn [String.length] in Hlen.
    destruct (code b <? 128)%N eqn:Easc.
    + destruct (utf8_decode rest) as [e | t] eqn:Et; cbn [bind ret];
        [discriminate |].
      intros H. injection H as <-.
      cbn [universal_newlines].
      destruct (Ascii.eqb b "013") eqn:Ecr.
      * destruct rest as [| b2 rest'].
        -- cbn in Et. injection Et as <-. reflexivity.
        -- cbn [utf8_decode] in Et.
           destruct (Ascii.eqb b2 "010") eqn:Elf.
           ++ apply Ascii.eqb_eq in Elf. subst b2.
              change (code "010" <? 128)%N with true in Et. cbn iota in Et.
              destruct (utf8_decode rest') as [e | t'] eqn:Et';
                cbn [bind ret] in Et; [discriminate |].
              injection Et as <-.
              change (Ascii.eqb "010" "010") with true. cbn iota.
              cbn [utf8_encode]. change (code "010" <? 128)%N with true.
              cbn iota. f_equal.
              apply (IH rest' t'); [cbn [String.length] in Hlen; lia |].
              exact Et'.
           ++ assert (Ht : match t with
                           | String c2 _ => Ascii.eqb c2 "010" = false
                           | "" => False
                           end).
              { destruct (code b2 <? 128)%N eqn:E2.
                - destruct (utf8_decode rest') as [e | t']; cbn [bind ret] in Et;
                    [discriminate |].
                  injection Et as <-. exact Elf.
                - destruct (between 194 195 b2) eqn:E3.
                  + destruct rest' as [| b3 rest'']; [discriminate |].
                    destruct (between 128 191 b3) eqn:E4; [| discriminate].
                    destruct (utf8_decode rest'') as [e | t''];
                      cbn [bind ret] in Et; [discriminate |].
                    injection Et as <-.
                    destruct (two_bytes b2 b3 E3 E4) as (Hc & _).
                    apply Ascii.eqb_neq. intros E.
                    rewrite E in Hc. discriminate Hc.
                  + destruct (between 196 244 b2); discriminate. }
              destruct t as [| c2 t']; [destruct Ht |]. rewrite Ht.
              cbn [utf8_encode]. change (code "010" <? 128)%N with true.
              cbn iota. f_equal.
              apply (IH (String b2 rest') (String c2 t'));
                [cbn [String.length] in *; lia | exact Et].
      * cbn [utf8_encode]. rewrite Easc. f_equal.
        apply (IH rest t); [lia | exact Et].
    + destruct (between 194 195 b) eqn:E1.
      * destruct rest as [| b2 rest']; [discriminate |].
        destruct (between 128 191 b2) eqn:E2; [| discriminate].
        destruct (utf8_decode rest') as [e | t] eqn:Et; cbn [bind ret];
          [discriminate |].
        intros H. injection H as <-.
        destruct (two_bytes b b2 E1 E2) as (Hc & Hcr & Hb & Hb2 & H1 & H2).
        cbn [universal_newlines]. rewrite Hcr, Hb, Hb2.
        cbn [utf8_encode]. rewrite Hc, H1, H2. do 2 f_equal.
        apply (IH rest' t); [cbn [String.length] in Hlen; lia | exact Et].
      * destruct (between 196 244 b); discriminate.
Qed.

Lemma write_of_read_text (file infile : string) :
  read_text file = inr infile ->
  write_text infile = universal_newlines file.
Proof.
  unfold read_text, write_text.
  destruct (utf8_decode file) as [e | text] eqn:E; cbn [bind ret];
    [discriminate |].
  intros H. injection H as <-.
  apply (encode_read_text (S (String.length file)) file text);
    [apply Nat.lt_succ_diag_r | exact E].
Qed.

Lemma universal_newlines_without_cr (file : string) :
  no_carriage_return file = true -> universal_newlines file = file.
Proof.
  unfold no_carriage_return.
  induction file as [| c rest IH]; [reflexivity |].
  cbn [list_ascii_of_string forallb universal_newlines]. intros H.
  apply andb_true_iff in H as [Hc H]. apply negb_true_iff in Hc.
  rewrite Hc, (IH H). reflexivity.
Qed.

(** C1 as stated fails: of a file with the line ends of DOS and a line
    that begins with DEFINE_OBJECT, the driver commits the text with
    newlines, which is not the input byte for byte. *)
Lemma C1_counterexample :
  annotated_file annotated_crlf
  /\ committed (process_file_for_cancellation (F := python_floats)
                  annotated_crlf) = Some annotated_example
  /\ ~ copied_byte_identical (F := python_floats) annotated_crlf.
Proof.
  split; [| split].
  - exists annotated_example. split; [reflexivity |].
    exact annotated_example_annotated.
  - vm_compute. reflexivity.
  - unfold copied_byte_identical. intros H. vm_compute in H. discriminate H.
Qed.

(** C1, amended.  When a file can be read and a line of its text begins
    with DEFINE_OBJECT, the preprocessor writes the text it read as it
    is and reports a success; the only log record is the one of the
    idempotency guard (no dialect is identified).  The file the driver
    commits is the input with its line ends CR LF and CR rewritten as
    LF: the input byte for byte when it holds no carriage return. *)
Theorem C1_annotated_text_is_copied (F : FloatOps) (file infile : string) :
  read_text file = inr infile ->
  annotated infile ->
  preprocessor infile =
    {| result := ReturnedTrue;
       written := infile;
       logged := [LogInfo "GCode already supports cancellation"] |}
  /\ process_file_for_cancellation file =
       {| driver_result := ReturnedTrue;
          committed := Some (universal_newlines file);
          scratch_left := false |}
  /\ (no_carriage_return file = true ->
      committed (process_file_for_cancellation file) = Some file).
Proof.
  intros Hread H.
  pose proof (preprocessor_passthrough infile H) as E.
  assert (Ed : process_file_for_cancellation file =
               {| driver_result := ReturnedTrue;
                  committed := Some (universal_newlines file);
                  scratch_left := false |}).
  { unfold process_file_for_cancellation. rewrite Hread, E.
    cbn [result written]. rewrite (write_of_read_text file infile Hread).
    reflexivity. }
  split; [exact E |]. split; [exact Ed |].
  intros Hcr. rewrite Ed. cbn [committed].
  rewrite (universal_newlines_without_cr file Hcr). reflexivity.
Qed.

Lemma C1_witness :
  read_text annotated_example = inr annotated_example
  /\ annotated annotated_example
  /\ (preprocessor (F := python_floats) annotated_example =
        {| result := ReturnedTrue;
           written := annotated_example;
           logged := [LogInfo "GCode already supports cancellation"] |}
      /\ process_file_for_cancellation (F := python_floats)
           annotated_example =
           {| driver_result := ReturnedTrue;
              committed := Some (universal_newlines annotated_example);
              scratch_left := false |}
      /\ (no_carriage_return annotated_example = true ->
          committed (process_file_for_cancellation (F := python_floats)
                       annotated_example) = Some annotated_example)).
Proof.
  assert (H : read_text annotated_example = inr annotated_example)
    by reflexivity.
  split; [exact H |].
  split; [exact annotated_example_annotated |].
  exact (C1_annotated_text_is_copied python_floats annotated_example
           annotated_example H annotated_example_annotated).
Defined.

(** C5 as stated fails: a file whose leading block has no marker, but
    which has a DEFINE_OBJECT line further down, is a success. *)
Lemma C5_counterexample :
  no_marker_in_leading_block annotated_example /\
  ~ fails_cleanly (F := python_floats) annotated_example.
Proof.
  split.
  - intros line marker Hline _. vm_compute in Hline. contradiction.
  - intros [Hres _]. apply Hres. reflexivity.
Qed.

(** C5, amended.  When no line of the file begins with DEFINE_OBJECT and
    no line of the leading blank/comment block starts, once stripped, with
    one of the five dialect markers, the preprocessor does not report
    success and writes nothing, and the driver commits no output file. *)
Theorem C5_no_marker_no_output (F : FloatOps) (infile : string) :
  ~ annotated infile ->
  no_marker_in_leading_block infile ->
  fails_cleanly infile.
Proof.
  intros Hna Hnm.
  apply not_annotated_spec in Hna.
  unfold fails_cleanly, process_file_for_cancellation.
  assert (Hrun : result (preprocessor infile) <> ReturnedTrue
                 /\ written (preprocessor infile) = "").
  { unfold preprocessor. rewrite Hna.
    destruct (detect_no_marker (readlines infile) Hnm) as [E | E];
      rewrite E; cbn; split; try reflexivity; discriminate. }
  destruct Hrun as [Hres Hout].
  split; [exact Hres |]. split; [exact Hout |].
  intros file Hread. rewrite Hread.
  destruct (result (preprocessor infile)); [contradiction | |]; reflexivity.
Qed.

Lemma comments_then_code_not_annotated : ~ annotated comments_then_code.
Proof.
  intros H. apply already_annotated_spec in H.
  vm_compute in H. discriminate.
Defined.

Lemma comments_then_code_no_marker :
  no_marker_in_leading_block comments_then_code.
Proof.
  intros line marker Hline Hmarker.
  vm_compute in Hline.
  destruct Hline as [<- | [<- | []]];
    (destruct Hmarker as [<- | [<- | [<- | [<- | [<- | []]]]]]; reflexivity).
Defined.

Lemma C5_witness :
  ~ annotated comments_then_code /\
  no_marker_in_leading_block comments_then_code /\
  fails_cleanly (F := python_floats) comments_then_code.
Proof.
  split; [exact comments_then_code_not_annotated |].
  split; [exact comments_then_code_no_marker |].
  apply (C5_no_marker_no_output python_floats comments_then_code).
  - exact comments_then_code_not_annotated.
  - exact comments_then_code_no_marker.
Defined.



Lemma prusa_one_object_succeeds :
  succeeds_with (F := python_floats) prusa_one_object prusa_one_object_output.
Proof. split; vm_compute; reflexivity. Defined.



(* ================================================================== *)
(** ** Hulls and object definitions *)

(** C9.  For a hull without points, [center()] and [exterior()] both
    return [None] without raising, and the object definition rendered from
    these values is the line DEFINE_OBJECT NAME=<name> alone: it ends
    normally and none of its chunks is a CENTER or POLYGON field. *)
Theorem C9_empty_hull_defines_name_only (F : FloatOps) (name : string) :
  let h := {| points := [] |} in
  center h = None /\
  exterior h = None /\
  define_object name (center_value h) (exterior h)
    = ([("DEFINE_OBJECT NAME=" ++ name)%string; nl], inr tt) /\
  concat (yielded (define_object name (center_value h) (exterior h)))
    = ("DEFINE_OBJECT NAME=" ++ name ++ nl)%string /\
  forallb (fun chunk => negb (startswith chunk " CENTER=")
                        && negb (startswith chunk " POLYGON="))
          (yielded (define_object name (center_value h) (exterior h)))
    = true.
Proof.
  cbv zeta. repeat split.
Qed.

(** C4 (the code differs).  On the SuperSlicer scenario the generator
    ends normally; its output has the three marker lines in the order
    DEFINE_OBJECT, START_CURRENT_OBJECT, END_CURRENT_OBJECT, but the
    definition line carries the three components of [object_center]:
    it reads CENTER=1,1,0, and no line of the output is
    DEFINE_OBJECT NAME=a CENTER=1,1. *)
Theorem C4_superslicer_scenario_output (F : FloatOps) :
  preprocess_superslicer superslicer_scenario
    = ( [ nth 0 superslicer_scenario "";
          ln "; plater:";
          (nl ++ nl)%string;
          HEADER_MARKER;
          ln "; 1 known objects";
          "DEFINE_OBJECT NAME=a"; " CENTER=1,1,0"; nl;
          ln "; printing object a";
          ln "START_CURRENT_OBJECT NAME=a";
          ln "G1 X0 Y0";
          ln "; stop printing object a";
          ln "END_CURRENT_OBJECT NAME=a" ],
        inr tt )
  /\ In (ln "DEFINE_OBJECT NAME=a CENTER=1,1,0")
        (readlines (concat (yielded (preprocess_superslicer
                                       superslicer_scenario))))
  /\ ~ In (ln "DEFINE_OBJECT NAME=a CENTER=1,1")
        (readlines (concat (yielded (preprocess_superslicer
                                       superslicer_scenario)))).
Proof.
  assert (E : preprocess_superslicer superslicer_scenario
              = ( [ nth 0 superslicer_scenario "";
                    ln "; plater:";
                    (nl ++ nl)%string;
                    HEADER_MARKER;
                    ln "; 1 known objects";
                    "DEFINE_OBJECT NAME=a"; " CENTER=1,1,0"; nl;
                    ln "; printing object a";
                    ln "START_CURRENT_OBJECT NAME=a";
                    ln "G1 X0 Y0";
                    ln "; stop printing object a";
                    ln "END_CURRENT_OBJECT NAME=a" ],
                  inr tt )) by (vm_compute; reflexivity).
  split; [exact E |].
  rewrite E. split.
  - vm_compute. tauto.
  - vm_compute. intros H.
    repeat (destruct H as [H | H]; [discriminate H |]).
    exact H.
Qed.

(** C10 (the code differs).  On a Cura file whose first mesh name
    sanitizes to the empty string, the emission pass starts the second
    object without having ended the first: the output has two
    START_CURRENT_OBJECT lines in a row and a single END_CURRENT_OBJECT,
    so its markers are not balanced. *)
Theorem C10_cura_empty_name_unbalanced (F : FloatOps) :
  preprocess_cura cura_empty_name
    = ( [ ln ";Generated with Cura_SteamEngine";
          ln "G28";
          (nl ++ nl)%string;
          HEADER_MARKER;
          ln "; 2 known objects";
          "DEFINE_OBJECT NAME="; nl;
          "DEFINE_OBJECT NAME=a"; nl;
          ln ";MESH:!!!";
          ln "START_CURRENT_OBJECT NAME=";
          ln ";MESH:a";
          ln "START_CURRENT_OBJECT NAME=a";
          ln "END_CURRENT_OBJECT NAME=a" ],
        inr tt )
  /\ ~ balanced None (yielded (preprocess_cura cura_empty_name)).
Proof.
  assert (E : preprocess_cura cura_empty_name
              = ( [ ln ";Generated with Cura_SteamEngine";
                    ln "G28";
                    (nl ++ nl)%string;
                    HEADER_MARKER;
                    ln "; 2 known objects";
                    "DEFINE_OBJECT NAME="; nl;
                    "DEFINE_OBJECT NAME=a"; nl;
                    ln ";MESH:!!!";
                    ln "START_CURRENT_OBJECT NAME=";
                    ln ";MESH:a";
                    ln "START_CURRENT_OBJECT NAME=a";
                    ln "END_CURRENT_OBJECT NAME=a" ],
                  inr tt )) by (vm_compute; reflexivity).
  split; [exact E |].
  rewrite E. cbn. intros [_ [H _]]. discriminate H.
Qed.

(* ================================================================== *)
(** ** The bounding rectangle *)

Section Exterior.
Context {F : FloatOps}.

Lemma extent_components (pts : list Point) :
  forall min_x max_x min_y max_y,
    extent min_x max_x min_y max_y pts
    = (run_min min_x (map fst pts), run_max max_x (map fst pts),
       run_min min_y (map snd pts), run_max max_y (map snd pts)).
Proof.
  induction pts as [| [x y] rest IH]; intros; cbn [extent map fst snd].
  - reflexivity.
  - rewrite IH. reflexivity.
Qed.

Section OneAxis.
Variable U : list float.
Hypothesis order : strict_total_on U.

Lemma run_min_invariant (l seen : list float) (m : float) :
  incl seen U -> incl l U ->
  In m seen ->
  (forall x, In x seen -> float_ltb x m = false) ->
  In (run_min m l) (seen ++ l) /\
  forall x, In x (seen ++ l) -> float_ltb x (run_min m l) = false.
Proof.
  destruct order as (Hirr & Htrans & _).
  revert seen m.
  induction l as [| x0 rest IH]; intros seen m Hseen Hl Hm Hlow;
    cbn [run_min fold_left].
  - rewrite app_nil_r. split; assumption.
  - assert (Hx0 : In x0 U) by (apply Hl; left; reflexivity).
    assert (Hrest : incl rest U)
      by (intros a Ha; apply Hl; right; exact Ha).
    assert (Hseen' : incl (seen ++ [x0]) U).
    { intros a Ha. apply in_app_or in Ha as [Ha | [<- | []]];
        [apply Hseen; exact Ha | exact Hx0]. }
    replace (seen ++ x0 :: rest) with ((seen ++ [x0]) ++ rest)
      by (rewrite <- app_assoc; reflexivity).
    destruct (float_ltb x0 m) eqn:Elt.
    + apply (IH (seen ++ [x0]) x0 Hseen' Hrest).
      * apply in_or_app. right. left. reflexivity.
      * intros x Hx. apply in_app_or in Hx as [Hx | [<- | []]].
        -- destruct (float_ltb x x0) eqn:E; [| reflexivity].
           rewrite <- (Hlow x Hx). symmetry.
           apply (Htrans x x0 m); auto.
        -- apply Hirr. exact Hx0.
    + apply (IH (seen ++ [x0]) m Hseen' Hrest).
      * apply in_or_app. left. exact Hm.
      * intros x Hx. apply in_app_or in Hx as [Hx | [<- | []]].
        -- apply Hlow. exact Hx.
        -- exact Elt.
Qed.

Lemma run_max_invariant (l seen : list float) (m : float) :
  incl seen U -> incl l U ->
  In m seen ->
  (forall x, In x seen -> float_ltb m x = false) ->
  In (run_max m l) (seen ++ l) /\
  forall x, In x (seen ++ l) -> float_ltb (run_max m l) x = false.
Proof.
  destruct order as (Hirr & Htrans & _).
  revert seen m.
  induction l as [| x0 rest IH]; intros seen m Hseen Hl Hm Hup;
    cbn [run_max fold_left].
  - rewrite app_nil_r. split; assumption.
  - assert (Hx0 : In x0 U) by (apply Hl; left; reflexivity).
    assert (Hrest : incl rest U)
      by (intros a Ha; apply Hl; right; exact Ha).
    assert (Hseen' : incl (seen ++ [x0]) U).
    { intros a Ha. apply in_app_or in Ha as [Ha | [<- | []]];
        [apply Hseen; exact Ha | exact Hx0]. }
    replace (seen ++ x0 :: rest) with ((seen ++ [x0]) ++ rest)
      by (rewrite <- app_assoc; reflexivity).
    destruct (float_ltb m x0) eqn:Elt.
    + apply (IH (seen ++ [x0]) x0 Hseen' Hrest).
      * apply in_or_app. right. left. reflexivity.
      * intros x Hx. apply in_app_or in Hx as [Hx | [<- | []]].
        -- destruct (float_ltb x0 x) eqn:E; [| reflexivity].
           rewrite <- (Hup x Hx). symmetry.
           apply (Htrans m x0 x); auto.
        -- apply Hirr. exact Hx0.
    + apply (IH (seen ++ [x0]) m Hseen' Hrest).
      * apply in_or_app. left. exact Hm.
      * intros x Hx. apply in_app_or in Hx as [Hx | [<- | []]].
        -- apply Hup. exact Hx.
        -- exact Elt.
Qed.

Lemma not_below_is_leb (a b : float) :
  In a U -> In b U -> float_ltb b a = false -> float_leb a b = true.
Proof.
  destruct order as (_ & _ & Htri).
  intros Ha Hb Hnlt. unfold float_leb.
  destruct (Htri a b Ha Hb) as [H | [H | H]].
  - rewrite H. reflexivity.
  - rewrite H. apply orb_true_r.
  - rewrite H in Hnlt. discriminate.
Qed.

End OneAxis.

Lemma run_min_is_min (first : float) (rest : list float) :
  strict_total_on (first :: rest) ->
  is_min (run_min first rest) (first :: rest).
Proof.
  intros Hord.
  destruct (run_min_invariant (first :: rest) Hord rest [first] first)
    as [Hin Hlow].
  - intros a [<- | []]. left. reflexivity.
  - intros a Ha. right. exact Ha.
  - left. reflexivity.
  - intros x [<- | []]. destruct Hord as (Hirr & _). apply Hirr.
    left. reflexivity.
  - split; [exact Hin |].
    intros x Hx. apply (not_below_is_leb (first :: rest) Hord).
    + exact Hin.
    + exact Hx.
    + apply Hlow. exact Hx.
Qed.

Lemma run_max_is_max (first : float) (rest : list float) :
  strict_total_on (first :: rest) ->
  is_max (run_max first rest) (first :: rest).
Proof.
  intros Hord.
  destruct (run_max_invariant (first :: rest) Hord rest [first] first)
    as [Hin Hup].
  - intros a [<- | []]. left. reflexivity.
  - intros a Ha. right. exact Ha.
  - left. reflexivity.
  - intros x [<- | []]. destruct Hord as (Hirr & _). apply Hirr.
    left. reflexivity.
  - split; [exact Hin |].
    intros x Hx. apply (not_below_is_leb (first :: rest) Hord).
    + exact Hx.
    + exact Hin.
    + apply Hup. exact Hx.
Qed.

(** The rectangle of a non-empty hull, for coordinates on which the
    comparison is a strict total order. *)
Lemma set_order_In (l : list Point) (p : Point) :
  In p (set_order l) <-> In p l.
Proof.
  split; apply Permutation_in;
    [apply set_order_perm | apply Permutation_sym, set_order_perm].
Qed.

Lemma strict_total_on_same (l l' : list float) :
  (forall x, In x l' -> In x l) ->
  strict_total_on l -> strict_total_on l'.
Proof.
  intros Hin (Hirr & Htrans & Htri). repeat split.
  - intros a Ha. apply Hirr, Hin, Ha.
  - intros a b c Ha Hb Hc. apply Htrans; apply Hin; assumption.
  - intros a b Ha Hb. apply Htri; apply Hin; assumption.
Qed.

Lemma exterior_bounding_box (pts : list Point) :
  pts <> [] ->
  strict_total_on (map fst pts) ->
  strict_total_on (map snd pts) ->
  exterior_is_bounding_rectangle pts.
Proof.
  intros Hne Hx Hy.
  destruct pts as [| p0 rest0]; [contradiction |].
  pose proof (set_order_perm (p0 :: rest0)) as Hperm.
  assert (Hsame : forall (f : Point -> float) x,
             In x (map f (set_order (p0 :: rest0)))
             <-> In x (map f (p0 :: rest0))).
  { intros f x. split; apply Permutation_in, Permutation_map;
      [exact Hperm | apply Permutation_sym, Hperm]. }
  unfold exterior_is_bounding_rectangle, exterior. cbn [points].
  destruct (set_order (p0 :: rest0)) as [| first rest].
  - apply Permutation_nil in Hperm. discriminate Hperm.
  - rewrite extent_components. eexists. split; [reflexivity |].
    exists (run_min (fst first) (map fst rest)),
           (run_max (fst first) (map fst rest)),
           (run_min (snd first) (map snd rest)),
           (run_max (snd first) (map snd rest)).
    split; [reflexivity |].
    assert (Hx' : strict_total_on (fst first :: map fst rest))
      by (apply (strict_total_on_same (map fst (p0 :: rest0)));
          [apply (Hsame fst) | exact Hx]).
    assert (Hy' : strict_total_on (snd first :: map snd rest))
      by (apply (strict_total_on_same (map snd (p0 :: rest0)));
          [apply (Hsame snd) | exact Hy]).
    pose proof (run_min_is_min _ _ Hx') as [Hi1 Hm1].
    pose proof (run_max_is_max _ _ Hx') as [Hi2 Hm2].
    pose proof (run_min_is_min _ _ Hy') as [Hi3 Hm3].
    pose proof (run_max_is_max _ _ Hy') as [Hi4 Hm4].
    repeat split;
      try (apply (Hsame fst); assumption);
      try (apply (Hsame snd); assumption);
      intros x Hin;
      first [ apply Hm1, (Hsame fst), Hin | apply Hm2, (Hsame fst), Hin
            | apply Hm3, (Hsame snd), Hin | apply Hm4, (Hsame snd), Hin ].
Qed.

End Exterior.


(* ================================================================== *)
(** ** The order of binary64 floats *)

Lemma SFcompare_refl (a : spec_float) :
  a <> S754_nan -> SFcompare a a = Some Eq.
Proof.
  destruct a as [s | s | | s m e]; intros H; cbn.
  - reflexivity.
  - destruct s; reflexivity.
  - contradiction.
  - destruct s; rewrite Z.compare_refl;
      change (Pos.compare_cont Eq m m) with (Pos.compare m m);
      rewrite Pos.compare_refl; reflexivity.
Qed.

Lemma SFcompare_antisym (a b : spec_float) :
  SFcompare b a = option_map CompOpp (SFcompare a b).
Proof.
  destruct a as [sa | sa | | sa ma ea], b as [sb | sb | | sb mb eb]; cbn;
    try reflexivity;
    try (destruct sa; reflexivity); try (destruct sb; reflexivity);
    try (destruct sa, sb; reflexivity).
  destruct sa, sb; cbn; try reflexivity;
    rewrite (Z.compare_antisym ea eb);
    destruct (Z.compare ea eb); cbn; try reflexivity;
    change (Pos.compare_cont Eq mb ma) with (Pos.compare mb ma);
    change (Pos.compare_cont Eq ma mb) with (Pos.compare ma mb);
    rewrite (Pos.compare_antisym ma mb);
    destruct (Pos.compare ma mb); reflexivity.
Qed.

Lemma SFcompare_lt_trans (a b c : spec_float) :
  SFcompare a b = Some Lt -> SFcompare b c = Some Lt ->
  SFcompare a c = Some Lt.
Proof.
  destruct a as [sa | sa | | sa ma ea], b as [sb | sb | | sb mb eb],
           c as [sc | sc | | sc mc ec]; cbn;
    try discriminate; try reflexivity;
    try (destruct sa; cbn; try discriminate; try reflexivity; fail);
    try (destruct sb; cbn; try discriminate; try reflexivity; fail);
    try (destruct sc; cbn; try discriminate; try reflexivity; fail);
    try (destruct sa, sb; cbn; try discriminate; try reflexivity; fail);
    try (destruct sa, sc; cbn; try discriminate; try reflexivity; fail);
    try (destruct sb, sc; cbn; try discriminate; try reflexivity; fail);
    try (destruct sa, sb, sc; cbn; try discriminate; try reflexivity; fail).
  all: destruct sa, sb, sc; cbn; try discriminate; try reflexivity.
  all: change (Pos.compare_cont Eq ma mb) with (Pos.compare ma mb);
       change (Pos.compare_cont Eq mb mc) with (Pos.compare mb mc);
       change (Pos.compare_cont Eq ma mc) with (Pos.compare ma mc).
  all: destruct (Z.compare_spec ea eb), (Z.compare_spec eb ec),
         (Z.compare_spec ea ec); cbn; try discriminate; try reflexivity;
         try lia.
  all: destruct (Pos.compare_spec ma mb), (Pos.compare_spec mb mc),
         (Pos.compare_spec ma mc); cbn; try discriminate; try reflexivity;
         try lia.
Qed.

(** On floats other than [nan], the comparison of [python_floats] is a
    strict total order: the hypothesis of [exterior_bounding_box] says
    that no coordinate is [nan]. *)
Lemma python_floats_ordered (l : list spec_float) :
  (forall x, In x l -> x <> S754_nan) ->
  strict_total_on (F := python_floats) l.
Proof.
  intros Hnan. unfold strict_total_on. cbn [float_ltb float_eqb python_floats].
  unfold SFltb, SFeqb. repeat split.
  - intros a Ha. rewrite (SFcompare_refl a (Hnan a Ha)). reflexivity.
  - intros a b c _ _ _ Hab Hbc.
    destruct (SFcompare a b) as [[| |] |] eqn:Eab; try discriminate Hab.
    destruct (SFcompare b c) as [[| |] |] eqn:Ebc; try discriminate Hbc.
    rewrite (SFcompare_lt_trans a b c Eab Ebc). reflexivity.
  - intros a b Ha Hb.
    rewrite (SFcompare_antisym a b).
    destruct a as [sa | sa | | sa ma ea];
      [| | exfalso; apply (Hnan _ Ha); reflexivity |];
      (destruct b as [sb | sb | | sb mb eb];
       [| | exfalso; apply (Hnan _ Hb); reflexivity |]);
      (destruct (SFcompare _ _) as [[| |] |] eqn:E;
       cbn [option_map CompOpp]; auto; discriminate E).
Qed.

(** The rectangle of a hull of Python floats none of which is [nan]. *)
Lemma exterior_bounding_box_python (pts : list (Point (F := python_floats))) :
  pts <> [] ->
  (forall p, In p pts -> fst p <> S754_nan /\ snd p <> S754_nan) ->
  exterior_is_bounding_rectangle pts.
Proof.
  intros Hne Hnan.
  apply exterior_bounding_box; [exact Hne | |];
    apply python_floats_ordered; intros x Hx;
    apply in_map_iff in Hx as (p & <- & Hp); apply (Hnan p Hp).
Qed.

Section OrderCheck.
Context {F : FloatOps}.

Lemma strict_total_onb_sound (l : list float) :
  strict_total_onb l = true -> strict_total_on l.
Proof.
  unfold strict_total_onb, strict_total_on.
  rewrite !andb_true_iff. intros [[Hirr Htrans] Htri].
  rewrite forallb_forall in Hirr, Htrans, Htri.
  repeat split.
  - intros a Ha. specialize (Hirr a Ha).
    destruct (float_ltb a a); [discriminate | reflexivity].
  - intros a b c Ha Hb Hc Hab Hbc.
    specialize (Htrans a Ha). rewrite forallb_forall in Htrans.
    specialize (Htrans b Hb). rewrite forallb_forall in Htrans.
    specialize (Htrans c Hc). rewrite Hab, Hbc in Htrans. exact Htrans.
  - intros a b Ha Hb.
    specialize (Htri a Ha). rewrite forallb_forall in Htri.
    specialize (Htri b Hb).
    rewrite !orb_true_iff in Htri. tauto.
Qed.

End OrderCheck.

Lemma Permutation_three {A : Type} (a b c : A) (l : list A) :
  Permutation l [a; b; c] ->
  In l [ [a; b; c]; [a; c; b]; [b; a; c]; [b; c; a]; [c; a; b]; [c; b; a] ].
Proof.
  intros H.
  destruct (Permutation_vs_cons_inv H) as (l1 & l2 & ->).
  apply Permutation_sym, Permutation_cons_app_inv in H.
  apply Permutation_length_2_inv in H.
  destruct l1 as [| x [| y [| z l1]]]; cbn [app] in *.
  - destruct H as [-> | ->]; cbn [In]; tauto.
  - destruct H as [H | H]; injection H as -> ->; cbn [In]; tauto.
  - destruct H as [H | H]; injection H as -> -> ->; cbn [In]; tauto.
  - destruct H as [H | H]; discriminate H.
Qed.

(** C7 as stated fails: the X value nan is read from a line as a
    coordinate, it is neither below nor above any number, and of a set
    with such a point no coordinate is the least one: whatever
    [exterior()] returns for it, in whatever order it goes through the
    set, is not the rectangle of the claim. *)
Lemma C7_counterexample :
  map (gcode_point (F := python_floats)) nan_lines
  = map (fun p => inr (Some p)) nan_points
  /\ nan_points <> []
  /\ ~ exterior_is_bounding_rectangle nan_points.
Proof.
  split; [reflexivity |]. split; [discriminate |].
  intros (polygon & _ & min_x & max_x & min_y & max_y & _ & [Hin Hmin] & _).
  cbn [nan_points map fst In] in Hin.
  destruct Hin as [<- | [<- | []]].
  - specialize (Hmin S754_nan (or_introl eq_refl)). discriminate Hmin.
  - specialize (Hmin S754_nan (or_introl eq_refl)). discriminate Hmin.
Qed.

(** C7, amended.  For a non-empty set of points whose coordinates the
    comparison orders totally, which for Python's floats are the sets
    without a nan coordinate, [exterior()] returns the four corners
    (min_x,min_y), (min_x,max_y), (max_x,max_y), (max_x,min_y), where
    min and max are least and greatest coordinates of the points, in
    whatever order the set is iterated; for the points (0,0), (2,0),
    (0,2), added in any order, it returns [(0,0),(0,2),(2,2),(2,0)]. *)
Theorem C7_exterior_is_bounding_rectangle :
  (forall (F : FloatOps) (pts : list Point),
      pts <> [] ->
      strict_total_on (map fst pts) ->
      strict_total_on (map snd pts) ->
      exterior_is_bounding_rectangle pts)
  /\
  (forall pts : list (Point (F := python_floats)),
      pts <> [] ->
      (forall p, In p pts -> fst p <> S754_nan /\ snd p <> S754_nan) ->
      exterior_is_bounding_rectangle pts)
  /\
  (forall pts : list Point,
      Permutation pts [pt 0 0; pt 2 0; pt 0 2] ->
      exterior {| points := pts |}
      = Some [pt 0 0; pt 0 2; pt 2 2; pt 2 0]).
Proof.
  split; [| split].
  - intros F pts. apply exterior_bounding_box.
  - apply exterior_bounding_box_python.
  - intros pts H. apply Permutation_three in H.
    cbn [In] in H.
    destruct H as [<- | [<- | [<- | [<- | [<- | [<- | []]]]]]];
      vm_compute; reflexivity.
Qed.

Lemma C7_witness :
  [pt 0 0; pt 2 0; pt 0 2] <> [] /\
  strict_total_on (map fst [pt 0 0; pt 2 0; pt 0 2]) /\
  strict_total_on (map snd [pt 0 0; pt 2 0; pt 0 2]) /\
  exterior_is_bounding_rectangle [pt 0 0; pt 2 0; pt 0 2].
Proof.
  assert (Hne : [pt 0 0; pt 2 0; pt 0 2] <> []) by discriminate.
  assert (Hx : strict_total_on (map fst [pt 0 0; pt 2 0; pt 0 2]))
    by (apply strict_total_onb_sound; reflexivity).
  assert (Hy : strict_total_on (map snd [pt 0 0; pt 2 0; pt 0 2]))
    by (apply strict_total_onb_sound; reflexivity).
  split; [exact Hne |]. split; [exact Hx |]. split; [exact Hy |].
  exact (proj1 C7_exterior_is_bounding_rectangle python_floats
           [pt 0 0; pt 2 0; pt 0 2] Hne Hx Hy).
Defined.

(** The centre follows the order in which the set is iterated: the
    points read from three lines are iterated last to first, and the sum
    of their X values is rounded accordingly. *)
Example center_follows_set_order :
  exists p1 p2 p3 : Point (F := python_floats),
    map gcode_point
      [ ln "G1 X0.3 Y0 E1"; ln "G1 X0.7 Y0 E1"; ln "G1 X0.1 Y0 E1" ]
    = [ inr (Some p1); inr (Some p2); inr (Some p3) ]
    /\ set_order [p1; p2; p3] = [p3; p2; p1]
    /\ option_map (fun c => float_str (fst c))
         (center {| points := [p1; p2; p3] |})
       = Some "0.36666666666666664"
    /\ float_str
         (float_div (float_sum (map fst [p1; p2; p3])) (float_of_nat 3))
       = "0.3666666666666667".
Proof.
  do 3 eexists. split; [reflexivity |].
  split; [reflexivity |].
  split; vm_compute; reflexivity.
Qed.

(* ================================================================== *)
(** ** Identifier sanitization *)

Lemma concat_cons (x : string) (xs : list string) :
  concat (x :: xs) = (x ++ concat xs)%string.
Proof.
  unfold concat. destruct xs as [| y ys]; cbn [String.concat].
  - induction x as [| c x IH]; cbn; [reflexivity | rewrite <- IH; reflexivity].
  - reflexivity.
Qed.

(** The first run of a non-empty string carries the flag of its first
    character. *)
Lemma runs_first (c : ascii) (s : string) :
  exists r rest, runs (String c s) = (isword c, String c r) :: rest.
Proof.
  cbn [runs]. destruct (runs s) as [| [b r] rest].
  - exists "", []. reflexivity.
  - destruct (Bool.eqb b (isword c)) eqn:E.
    + apply eqb_prop in E. subst b. exists r, rest. reflexivity.
    + exists "", ((b, r) :: rest). reflexivity.
Qed.

(** The runs of a string, put back together, are the string. *)
Lemma runs_partition (s : string) : concat (map snd (runs s)) = s.
Proof.
  induction s as [| c s IH]; [reflexivity |].
  cbn [runs]. destruct (runs s) as [| [b r] rest].
  - cbn in *. subst s. reflexivity.
  - cbn [map snd] in IH. rewrite concat_cons in IH.
    destruct (Bool.eqb b (isword c)); cbn [map snd]; rewrite !concat_cons;
      cbn; rewrite IH; reflexivity.
Qed.

(** Every run is non-empty and its characters all have its flag. *)
Lemma runs_uniform (s : string) :
  Forall (fun run : bool * string =>
            snd run <> "" /\
            forallb (fun c => Bool.eqb (isword c) (fst run))
                    (list_ascii_of_string (snd run)) = true)
         (runs s).
Proof.
  induction s as [| c s IH]; [constructor |].
  cbn [runs]. destruct (runs s) as [| [b r] rest].
  - constructor; [| constructor]. cbn. split; [discriminate |].
    rewrite eqb_reflx. reflexivity.
  - inversion IH as [| ? ? [Hne Hall] Hrest]; subst.
    destruct (Bool.eqb b (isword c)) eqn:E.
    + constructor; [| exact Hrest]. cbn in *. split; [discriminate |].
      apply eqb_prop in E. subst b. rewrite eqb_reflx. exact Hall.
    + constructor; [| exact IH]. cbn. split; [discriminate |].
      rewrite eqb_reflx. reflexivity.
Qed.

(** Neighbouring runs have different flags: the runs are maximal. *)
Lemma runs_maximal (s : string) :
  forall (pre : list (bool * string)) a b post,
    runs s = pre ++ a :: b :: post -> fst a <> fst b.
Proof.
  induction s as [| c s IH]; intros pre a b post H.
  - destruct pre as [| ? [| ? ?]]; discriminate H.
  - cbn [runs] in H. destruct (runs s) as [| [f r] rest] eqn:Eruns.
    + destruct pre as [| ? [| ? ?]]; discriminate H.
    + destruct (Bool.eqb f (isword c)) eqn:E.
      * destruct pre as [| p pre].
        -- cbn in H. injection H as <- Hrest.
           apply (IH [] (f, r) b post). cbn. rewrite Hrest. reflexivity.
        -- cbn in H. injection H as _ Hrest.
           apply (IH ((f, r) :: pre) a b post). cbn. rewrite Hrest.
           reflexivity.
      * destruct pre as [| p pre].
        -- cbn in H. injection H as <- <- _. cbn.
           intros Heq. rewrite Heq, eqb_reflx in E. discriminate.
        -- cbn in H. injection H as _ Hrest.
           apply (IH pre a b post). exact Hrest.
Qed.

Lemma collapsed_word (c : ascii) (s : string) :
  isword c = true ->
  concat (map collapse (runs (String c s)))
  = String c (concat (map collapse (runs s))).
Proof.
  intros Hc. cbn [runs]. destruct (runs s) as [| [b r] rest].
  - cbn. rewrite Hc. reflexivity.
  - rewrite Hc. destruct b; cbn [Bool.eqb map];
      rewrite !concat_cons; cbn; rewrite ?Hc; reflexivity.
Qed.

Lemma collapsed_nonword_run (c : ascii) (s : string) :
  isword c = false -> starts_nonword s = true ->
  concat (map collapse (runs (String c s)))
  = concat (map collapse (runs s)).
Proof.
  intros Hc Hs. destruct s as [| c' s']; [discriminate |].
  cbn in Hs. apply negb_true_iff in Hs.
  destruct (runs_first c' s') as (r & rest & E).
  cbn [runs] in *. rewrite E, Hs, Hc. cbn [Bool.eqb map].
  rewrite !concat_cons. reflexivity.
Qed.

Lemma collapsed_nonword_alone (c : ascii) (s : string) :
  isword c = false -> starts_nonword s = false ->
  concat (map collapse (runs (String c s)))
  = String "_" (concat (map collapse (runs s))).
Proof.
  intros Hc Hs. destruct s as [| c' s'].
  - cbn. rewrite Hc. reflexivity.
  - cbn in Hs. apply negb_false_iff in Hs.
    destruct (runs_first c' s') as (r & rest & E).
    cbn [runs] in *. rewrite E, Hs, Hc. cbn [Bool.eqb map].
    rewrite !concat_cons. reflexivity.
Qed.

(** The substitution of the regular expression collapses the runs. *)
Lemma re_sub_collapses (s : string) :
  let sub := re_sub_plus (fun c => negb (isword c)) "_" in
  sub false s = concat (map collapse (runs s)) /\
  (starts_nonword s = true ->
   String "_" (sub true s) = concat (map collapse (runs s))) /\
  (starts_nonword s = false ->
   sub true s = concat (map collapse (runs s))).
Proof.
  cbv zeta. induction s as [| c s (IH1 & IH2 & IH3)].
  - split; [reflexivity |].
    split; [intros H; discriminate H | intros _; reflexivity].
  - cbn [re_sub_plus starts_nonword].
    destruct (isword c) eqn:Hc; cbn [negb].
    + rewrite (collapsed_word c s Hc), IH1.
      split; [reflexivity |].
      split; [intros H; discriminate H | intros _; reflexivity].
    + assert (E : String "_" (re_sub_plus (fun c => negb (isword c)) "_"
                                true s)
                  = concat (map collapse (runs (String c s)))).
      { destruct (starts_nonword s) eqn:Hs.
        - rewrite (collapsed_nonword_run c s Hc Hs). apply IH2. reflexivity.
        - rewrite (collapsed_nonword_alone c s Hc Hs), IH3; reflexivity. }
      split; [exact E |].
      split; [intros _; exact E | intros H; discriminate H].
Qed.

Lemma lstrip_drops_underscores (s : string) :
  list_ascii_of_string
    (lstrip_with (fun c => existsb (Ascii.eqb c) (list_ascii_of_string "_")) s)
  = drop_underscores (list_ascii_of_string s).
Proof.
  induction s as [| c s IH]; [reflexivity |].
  cbn [lstrip_with list_ascii_of_string existsb drop_underscores].
  rewrite orb_false_r. destruct (Ascii.eqb c "_"); [exact IH | reflexivity].
Qed.

Lemma drop_underscores_snoc (l : list ascii) (c : ascii) :
  drop_underscores (l ++ [c])
  = match drop_underscores l with
    | [] => if Ascii.eqb c "_" then [] else [c]
    | d => d ++ [c]
    end.
Proof.
  induction l as [| a l IH]; cbn [app drop_underscores].
  - destruct (Ascii.eqb c "_"); reflexivity.
  - destruct (Ascii.eqb a "_"); [exact IH | reflexivity].
Qed.

Lemma rstrip_drops_underscores (s : string) :
  list_ascii_of_string
    (rstrip_with (fun c => existsb (Ascii.eqb c) (list_ascii_of_string "_")) s)
  = rev (drop_underscores (rev (list_ascii_of_string s))).
Proof.
  induction s as [| c s IH]; [reflexivity |].
  cbn [rstrip_with list_ascii_of_string rev].
  rewrite drop_underscores_snoc.
  destruct (drop_underscores (rev (list_ascii_of_string s))) as [| d ds].
  - cbn [rev] in IH.
    destruct (rstrip_with _ s); [| discriminate IH].
    cbn [existsb list_ascii_of_string]. rewrite orb_false_r.
    destruct (Ascii.eqb c "_"); reflexivity.
  - destruct (rstrip_with _ s) as [| a r] eqn:E.
    + cbn [list_ascii_of_string] in IH.
      apply (f_equal (@List.length ascii)) in IH.
      rewrite length_rev in IH. discriminate IH.
    + cbn [list_ascii_of_string]. rewrite rev_unit, <- IH. reflexivity.
Qed.

Lemma strip_underscores_is_trim (s : string) :
  strip_chars "_" s = trim_underscores s.
Proof.
  unfold strip_chars, strip_with, trim_underscores.
  rewrite <- lstrip_drops_underscores, <- rstrip_drops_underscores.
  rewrite string_of_list_ascii_of_string. reflexivity.
Qed.

(** C8.  For every string, [_clean_id] replaces each maximal run of
    characters that are neither alphanumeric nor the underscore by one
    underscore and then removes the underscores at both ends; "cube one!!"
    becomes "cube_one" and "__a__" becomes "a". *)
Theorem C8_clean_id_sanitizes :
  (forall id : string, _clean_id id = sanitize id)
  /\ _clean_id "cube one!!" = "cube_one"
  /\ _clean_id "__a__" = "a".
Proof.
  split; [| split; reflexivity].
  intros id. unfold _clean_id, sanitize.
  rewrite strip_underscores_is_trim.
  destruct (re_sub_collapses id) as [E _]. rewrite E. reflexivity.
Qed.

(* ================================================================== *)
(** ** The emission pass of ideaMaker *)

Section Emission.
Context {F : FloatOps}.

Lemma ebind_pure_l {A B : Type} (a : A) (k : A -> emit B) :
  ebind (pure a) k = k a.
Proof. unfold ebind, pure. destruct (k a). reflexivity. Qed.

Lemma ebind_assoc {A B C : Type} (m : emit A) (k : A -> emit B)
  (k' : B -> emit C) :
  ebind (ebind m k) k' = ebind m (fun a => ebind (k a) k').
Proof.
  destruct m as [out [e | a]]; cbn; [reflexivity |].
  destruct (k a) as [out1 [e | b]]; cbn; [reflexivity |].
  destruct (k' b) as [out2 r]. rewrite app_assoc. reflexivity.
Qed.

Lemma ebind_ext {A B : Type} (m : emit A) (k k' : A -> emit B) :
  (forall a, k a = k' a) -> ebind m k = ebind m k'.
Proof.
  intros H. destruct m as [out [e | a]]; cbn; [reflexivity |].
  rewrite H. reflexivity.
Qed.

(** A loop over [pre ++ post] is the loop over [pre] followed by the
    loop over [post] from the state reached. *)
Lemma for_lines_app {S : Type} (body : S -> string -> emit S) (s : S)
  (pre post : list string) :
  for_lines body s (pre ++ post)
  = ebind (for_lines body s pre) (fun s' => for_lines body s' post).
Proof.
  revert s. induction pre as [| line pre IH]; intros s; cbn [app for_lines].
  - rewrite ebind_pure_l. reflexivity.
  - rewrite ebind_assoc. apply ebind_ext. intros a. apply IH.
Qed.

(** The definition of an object from its hull never raises and is the
    line described by [definition_chunks]. *)
Lemma define_object_of_hull (o : KnownObject) :
  define_object (name o) (center_value (hull o)) (exterior (hull o))
  = (definition_chunks o, inr tt).
Proof.
  unfold define_object, definition_chunks, center_value, exterior, center.
  destruct (points (hull o)) as [| p0 rest0].
  - reflexivity.
  - pose proof (set_order_perm (p0 :: rest0)) as Hperm.
    destruct (set_order (p0 :: rest0)) as [| first rest].
    + apply Permutation_nil in Hperm. discriminate Hperm.
    + destruct (extent (fst first) (fst first) (snd first) (snd first) rest)
        as [[[min_x max_x] min_y] max_y].
      reflexivity.
Qed.

Lemma define_all_chunks (objects : list KnownObject) :
  define_all objects = (flat_map definition_chunks objects, inr tt).
Proof.
  induction objects as [| o rest IH]; cbn [define_all flat_map].
  - reflexivity.
  - rewrite define_object_of_hull, IH. reflexivity.
Qed.

(** A [;TOTAL_NUM:] line is neither a [;PRINTING_ID:] line nor the
    [;REMAINING_TIME: 0] line. *)
Lemma total_num_line_only (line : string) :
  startswith line ";TOTAL_NUM:" = true ->
  startswith line ";PRINTING_ID:" = false /\
  String.eqb line (";REMAINING_TIME: 0" ++ nl) = false.
Proof.
  intros H.
  destruct line as [| c1 line]; [discriminate H |].
  cbn [startswith] in H. apply andb_true_iff in H as [H1 H].
  apply Ascii.eqb_eq in H1. subst c1.
  destruct line as [| c2 line]; [discriminate H |].
  cbn [startswith] in H. apply andb_true_iff in H as [H2 _].
  apply Ascii.eqb_eq in H2. subst c2.
  split; reflexivity.
Qed.

(** What a [;TOTAL_NUM:<n>] line makes the emission loop do. *)
Lemma emit_total_num_line (known_objects : registry)
  (current_object : option KnownObject) (line : string) (n : Z) :
  startswith line ";TOTAL_NUM:" = true ->
  int_of_string (strip (split_item1 ":" line)) = Some n ->
  ideamaker_emit_line known_objects current_object line
  = if (n =? count known_objects)%Z
    then (line :: header_chunks n
               ++ flat_map definition_chunks (dict_values known_objects),
          inr current_object)
    else ([line], inl AssertionError).
Proof.
  intros Hstart Hint.
  destruct (total_num_line_only line Hstart) as [Hid Hrem].
  unfold ideamaker_emit_line. rewrite Hstart, Hint, Hid, Hrem.
  destruct (n =? count known_objects)%Z.
  - rewrite define_all_chunks. cbn. rewrite !app_nil_r. reflexivity.
  - reflexivity.
Qed.

End Emission.

(** What a [;TOTAL_NUM:<n>] line does to the whole run, with the number
    of registered objects and the objects themselves read off the
    registry: its length, and its values in registration order. *)
Lemma ideamaker_total_num_run {F : FloatOps}
  (pre rest : list string) (line : string) (n : Z)
  (known : registry) (out : list string) (cur : option KnownObject) :
  ideamaker_scan [] None (pre ++ line :: rest) = inr known ->
  for_lines (ideamaker_emit_line known) None pre = (out, inr cur) ->
  startswith line ";TOTAL_NUM:" = true ->
  int_of_string (strip (split_item1 ":" line)) = Some n ->
  preprocess_ideamaker (pre ++ line :: rest)
  = if (n =? Z.of_nat (List.length known))%Z
    then (yield (out ++ line :: header_chunks n
                     ++ flat_map definition_chunks (map snd known)) ;;;
          current_object <~
            for_lines (ideamaker_emit_line known) cur rest ;;
          ideamaker_close current_object ;;; pure tt)
    else (out ++ [line], inl AssertionError).
Proof.
  intros Hscan Hpre Hstart Hint.
  unfold preprocess_ideamaker. rewrite Hscan.
  change (lift (inr known)) with (pure known). rewrite ebind_pure_l.
  rewrite for_lines_app, Hpre.
  cbn [ebind for_lines].
  rewrite (emit_total_num_line known cur line n Hstart Hint).
  change (count known) with (Z.of_nat (List.length known)).
  change (dict_values known) with (map snd known).
  destruct (n =? Z.of_nat (List.length known))%Z.
  - cbn [ebind].
    destruct (for_lines (ideamaker_emit_line known) cur rest)
      as [out_rest [e | c]]; cbn [ebind yield].
    + rewrite <- !app_assoc. reflexivity.
    + destruct (ideamaker_close c) as [out_close [e | c']];
        cbn [ebind pure]; rewrite <- ?app_assoc; cbn [app];
        rewrite <- ?app_assoc; reflexivity.
  - reflexivity.
Qed.

(** A [;TOTAL_NUM:] line whose field [int()] does not read ends the run
    with a ValueError right after the line is passed on. *)
Lemma ideamaker_total_num_unread {F : FloatOps}
  (pre rest : list string) (line : string)
  (known : registry) (out : list string) (cur : option KnownObject) :
  ideamaker_scan [] None (pre ++ line :: rest) = inr known ->
  for_lines (ideamaker_emit_line known) None pre = (out, inr cur) ->
  startswith line ";TOTAL_NUM:" = true ->
  int_of_string (strip (split_item1 ":" line)) = None ->
  preprocess_ideamaker (pre ++ line :: rest)
  = (out ++ [line], inl ValueError).
Proof.
  intros Hscan Hpre Hstart Hint.
  unfold preprocess_ideamaker. rewrite Hscan.
  change (lift (inr known)) with (pure known). rewrite ebind_pure_l.
  rewrite for_lines_app, Hpre.
  cbn [ebind for_lines].
  unfold ideamaker_emit_line. rewrite Hstart, Hint. reflexivity.
Qed.

(** C6.  In the emission pass of ideaMaker, when the pass reaches a line
    ;TOTAL_NUM:<n> (the scan pass having registered [known], the lines
    before having been emitted as [out] and left [cur] open): if n is the
    number of entries of the registry, the output continues with that
    line, the header for n objects and one definition line per entry, in
    registration order, and then with the emission of the remaining lines
    from the same state; if n differs, the generator ends with an
    AssertionError right after passing the line on; if the field is not
    read as an integer, with a ValueError at the same place.  On the file
    that prints part.3mf once, the line ;TOTAL_NUM:1 is followed by the
    header for one object and the definition of part_3mf, and the line
    ;TOTAL_NUM:2 ends the run with an AssertionError, nothing being
    committed. *)
Theorem C6_ideamaker_total_num :
  (forall (F : FloatOps) (pre rest : list string) (line : string) (n : Z)
          (known : registry) (out : list string) (cur : option KnownObject),
     ideamaker_scan [] None (pre ++ line :: rest) = inr known ->
     for_lines (ideamaker_emit_line known) None pre = (out, inr cur) ->
     startswith line ";TOTAL_NUM:" = true ->
     int_of_string (strip (split_item1 ":" line)) = Some n ->
     preprocess_ideamaker (pre ++ line :: rest)
     = if (n =? Z.of_nat (List.length known))%Z
       then (yield (out ++ line :: header_chunks n
                        ++ flat_map definition_chunks (map snd known)) ;;;
             current_object <~
               for_lines (ideamaker_emit_line known) cur rest ;;
             ideamaker_close current_object ;;; pure tt)
       else (out ++ [line], inl AssertionError)) /\
  (forall (F : FloatOps) (pre rest : list string) (line : string)
          (known : registry) (out : list string) (cur : option KnownObject),
     ideamaker_scan [] None (pre ++ line :: rest) = inr known ->
     for_lines (ideamaker_emit_line known) None pre = (out, inr cur) ->
     startswith line ";TOTAL_NUM:" = true ->
     int_of_string (strip (split_item1 ":" line)) = None ->
     preprocess_ideamaker (pre ++ line :: rest)
     = (out ++ [line], inl ValueError)) /\
  preprocess_ideamaker (F := python_floats)
    (ideamaker_before ++ ln ";TOTAL_NUM:1" :: ideamaker_after)
  = ( [ ln ";Sliced by ideaMaker";
        ln ";TOTAL_NUM:1";
        (nl ++ nl)%string; HEADER_MARKER; ln "; 1 known objects";
        "DEFINE_OBJECT NAME=part_3mf"; " CENTER=1.0,1.0";
        " POLYGON=[[1.0,1.0],[1.0,1.0],[1.0,1.0],[1.0,1.0]]"; nl;
        ln ";PRINTING: part.3mf";
        ln ";PRINTING_ID: 0";
        ln "START_CURRENT_OBJECT NAME=part_3mf";
        ln "G1 X1 Y1 E1";
        ln ";PRINTING_ID: -1";
        ln "END_CURRENT_OBJECT NAME=part_3mf";
        ln ";REMAINING_TIME: 0" ],
      inr tt ) /\
  preprocess_ideamaker (F := python_floats)
    (ideamaker_before ++ ln ";TOTAL_NUM:2" :: ideamaker_after)
  = ([ln ";Sliced by ideaMaker"; ln ";TOTAL_NUM:2"], inl AssertionError) /\
  committed
    (process_file_for_cancellation (F := python_floats)
       (concat (ideamaker_before ++ ln ";TOTAL_NUM:2" :: ideamaker_after)))
  = None.
Proof.
  split; [| split; [| split; [| split]]].
  - intros F pre rest line n known out cur.
    apply ideamaker_total_num_run.
  - intros F pre rest line known out cur.
    apply ideamaker_total_num_unread.
  - vm_compute. reflexivity.
  - vm_compute. reflexivity.
  - vm_compute. reflexivity.
Qed.

Lemma C6_witness :
  ideamaker_scan [] None
    (ideamaker_before ++ ln ";TOTAL_NUM:1" :: ideamaker_after)
  = inr ideamaker_known /\
  for_lines (ideamaker_emit_line ideamaker_known) None ideamaker_before
  = (ideamaker_before, inr None) /\
  startswith (ln ";TOTAL_NUM:1") ";TOTAL_NUM:" = true /\
  int_of_string (strip (split_item1 ":" (ln ";TOTAL_NUM:1"))) = Some 1%Z /\
  preprocess_ideamaker
    (ideamaker_before ++ ln ";TOTAL_NUM:1" :: ideamaker_after)
  = if (1 =? Z.of_nat (List.length ideamaker_known))%Z
    then (yield (ideamaker_before ++ ln ";TOTAL_NUM:1" :: header_chunks 1
                   ++ flat_map definition_chunks (map snd ideamaker_known)) ;;;
          current_object <~
            for_lines (ideamaker_emit_line ideamaker_known) None
                      ideamaker_after ;;
          ideamaker_close current_object ;;; pure tt)
    else (ideamaker_before ++ [ln ";TOTAL_NUM:1"], inl AssertionError).
Proof.
  assert (H1 : ideamaker_scan [] None
                 (ideamaker_before ++ ln ";TOTAL_NUM:1" :: ideamaker_after)
               = inr ideamaker_known) by reflexivity.
  assert (H2 : for_lines (ideamaker_emit_line ideamaker_known) None
                 ideamaker_before
               = (ideamaker_before, inr None)) by reflexivity.
  assert (H3 : startswith (ln ";TOTAL_NUM:1") ";TOTAL_NUM:" = true)
    by reflexivity.
  assert (H4 : int_of_string (strip (split_item1 ":" (ln ";TOTAL_NUM:1")))
               = Some 1%Z) by reflexivity.
  split; [exact H1 |]. split; [exact H2 |].
  split; [exact H3 |]. split; [exact H4 |].
  exact (proj1 C6_ideamaker_total_num python_floats ideamaker_before
           ideamaker_after (ln ";TOTAL_NUM:1") 1%Z ideamaker_known
           ideamaker_before None H1 H2 H3 H4).
Defined.

(** The limit of [int()] on the digits of a literal: a field of 4300
    zeros reads as 0, which is not the number of objects; one zero more
    is not read. *)
Example ideamaker_total_num_digit_limit :
  preprocess_ideamaker (F := python_floats)
    (ideamaker_before
       ++ ln (";TOTAL_NUM:" ++ Binary64.zeros 4300) :: ideamaker_after)
  = (ideamaker_before ++ [ln (";TOTAL_NUM:" ++ Binary64.zeros 4300)],
     inl AssertionError)
  /\ preprocess_ideamaker (F := python_floats)
       (ideamaker_before
          ++ ln (";TOTAL_NUM:" ++ Binary64.zeros 4301) :: ideamaker_after)
     = (ideamaker_before ++ [ln (";TOTAL_NUM:" ++ Binary64.zeros 4301)],
        inl ValueError).
Proof. split; vm_compute; reflexivity. Qed.

(* ================================================================== *)
(** ** The scan pass of PrusaSlicer and Slic3r *)

Section Scan.
Context {F : FloatOps}.

Lemma dict_get_set {V : Type} (k k' : string) (v : V)
  (d : list (string * V)) :
  dict_get k (dict_set k' v d)
  = if String.eqb k k' then Some v else dict_get k d.
Proof.
  induction d as [| [k0 v0] d IH]; cbn [dict_set dict_get].
  - destruct (String.eqb k k'); reflexivity.
  - destruct (String.eqb k' k0) eqn:E0; cbn [dict_get].
    + apply String.eqb_eq in E0. subst k0.
      destruct (String.eqb k k'); reflexivity.
    + rewrite IH. destruct (String.eqb k k0) eqn:E1; [| reflexivity].
      apply String.eqb_eq in E1. subst k0.
      destruct (String.eqb k k') eqn:E2; [| reflexivity].
      apply String.eqb_eq in E2. subst k'.
      rewrite String.eqb_refl in E0. discriminate E0.
Qed.

(** Registering an id leaves every hull as it was: a new object has no
    point. *)
Lemma hull_points_register (id id' source : string) (known : registry) :
  hull_points id (register id' source known) = hull_points id known.
Proof.
  unfold register, dict_mem, hull_points.
  destruct (dict_get id' known) eqn:E; [reflexivity |].
  rewrite dict_get_set.
  destruct (String.eqb id id') eqn:Eid; [| reflexivity].
  apply String.eqb_eq in Eid. subst id'. rewrite E. reflexivity.
Qed.

Lemma In_add_point (h : HullTracker) (p q : Point) :
  In q (points (add_point h p)) -> In q (points h) \/ q = p.
Proof.
  unfold add_point.
  destruct (existsb (point_eqb p) (points h)); cbn [points]; intros H.
  - left. exact H.
  - apply in_app_or in H as [H | [H | []]]; [left | right]; auto.
Qed.

(** A point enters the hull registered under [id] only when it is added
    to that hull. *)
Lemma hull_points_add (id c : string) (pt q : Point) (known : registry) :
  In q (hull_points id (add_point_to c pt known)) ->
  In q (hull_points id known) \/ (c = id /\ q = pt).
Proof.
  unfold hull_points.
  induction known as [| [k o] known IH]; cbn [add_point_to map dict_get].
  - intros [].
  - destruct (String.eqb k c) eqn:Ekc; cbn [dict_get].
    + destruct (String.eqb id k) eqn:Eidk; [| exact IH].
      cbn [hull points]. intros H. apply In_add_point in H as [H | H].
      * left. exact H.
      * right. apply String.eqb_eq in Ekc, Eidk. subst. auto.
    + destruct (String.eqb id k); [left; assumption | exact IH].
Qed.

(** What [track] can add to the hull of [id]: the point of the line,
    when the current hull is the one of [id]. *)
Lemma track_adds (known known' : registry) (current_hull : option string)
  (line id : string) (q : Point) :
  track known current_hull line = inr known' ->
  In q (hull_points id known') ->
  In q (hull_points id known)
  \/ (current_hull = Some id /\ gcode_point line = inr (Some q)).
Proof.
  unfold track. destruct current_hull as [c |].
  - destruct (gcode_point line) as [e | [pt |]]; cbn [bind ret];
      intros H; inversion H; subst; clear H; intros Hq.
    + apply hull_points_add in Hq as [Hq | [-> ->]]; auto.
    + left. exact Hq.
  - intros H. inversion H; subst. auto.
Qed.

(** One step of the scan moves the current object as [printing_at]
    describes. *)
Lemma slicer_scan_line_inv (known known' : registry)
  (cur cur' : option string) (line : string) :
  slicer_scan_line (known, cur) line = inr (known', cur') ->
  cur' = match printing_object_id line with
         | Some id => Some id
         | None => cur
         end
  /\ exists known1,
       (forall id, hull_points id known1 = hull_points id known)
       /\ track known1 cur' line = inr known'.
Proof.
  unfold slicer_scan_line, printing_object_id.
  destruct (startswith line "; printing object ").
  - destruct (track _ _ line) as [e | k] eqn:Et; cbn [bind ret];
      intros H; inversion H; subst; clear H.
    split; [reflexivity |].
    eexists. split; [| exact Et].
    intros id. apply hull_points_register.
  - destruct (track known cur line) as [e | k] eqn:Et; cbn [bind ret];
      intros H; inversion H; subst; clear H.
    split; [reflexivity |].
    exists known. split; [reflexivity | exact Et].
Qed.

(** Every point of a hull comes from a G-command line read while the
    last [; printing object] line named that hull's id. *)
Lemma slicer_scan_from (lines : list string) :
  forall (known known' : registry) (cur cur' : option string)
         (id : string) (q : Point),
    for_lines_res slicer_scan_line (known, cur) lines = inr (known', cur') ->
    In q (hull_points id known') ->
    In q (hull_points id known)
    \/ exists j line,
         nth_error lines j = Some line
         /\ gcode_point line = inr (Some q)
         /\ printing_at cur lines j = Some id.
Proof.
  induction lines as [| line rest IH]; intros known known' cur cur' id q.
  - cbn [for_lines_res ret]. intros H. inversion H; subst. auto.
  - cbn [for_lines_res].
    destruct (slicer_scan_line (known, cur) line) as [e | [known1 cur1]]
      eqn:Estep; cbn [bind]; [discriminate |].
    intros Hrest Hq.
    apply slicer_scan_line_inv in Estep as (Hcur & known0 & Hsame & Htrack).
    destruct (IH known1 known' cur1 cur' id q Hrest Hq)
      as [Hq1 | (j & l & Hnth & Hpt & Hat)].
    + destruct (track_adds known0 known1 cur1 line id q Htrack Hq1)
        as [Hq0 | [Hc Hpt]].
      * left. rewrite <- Hsame. exact Hq0.
      * right. exists 0, line. cbn [nth_error printing_at].
        rewrite <- Hcur. auto.
    + right. exists (S j), l. cbn [nth_error printing_at].
      rewrite <- Hcur. auto.
Qed.

End Scan.

(** C3 as stated fails: the scan pass does not look at
    [; stop printing object] lines, and the point of a G-command line
    after the stop line of object a is recorded into the hull of a. *)
Lemma C3_counterexample :
  ~ points_only_inside_windows (F := python_floats) prusa_after_stop.
Proof.
  intros H.
  destruct (H prusa_after_stop_known "a" (pt 9 9))
    as (j & line & Hnth & Hpt & (i & opening & Hij & Hopen & Hid & Hstop)).
  - reflexivity.
  - right. left. reflexivity.
  - destruct j as [| [| [| [| j]]]]; cbn in Hnth.
    + injection Hnth as <-. vm_compute in Hpt. discriminate Hpt.
    + injection Hnth as <-. vm_compute in Hpt. discriminate Hpt.
    + injection Hnth as <-. vm_compute in Hpt. discriminate Hpt.
    + injection Hnth as <-.
      destruct i as [| [| [| i]]]; cbn in Hopen; [| | | lia].
      * specialize (Hstop 2 (ln "; stop printing object a")).
        assert (Hs : stops_object "a" (ln "; stop printing object a") = false)
          by (apply Hstop; [lia | reflexivity]).
        vm_compute in Hs. discriminate Hs.
      * injection Hopen as <-. vm_compute in Hid. discriminate Hid.
      * injection Hopen as <-. vm_compute in Hid. discriminate Hid.
    + destruct j; discriminate Hnth.
Qed.

(** C3, amended.  In the scan pass of PrusaSlicer and Slic3r, a point is
    recorded into the hull of an object id only from a G-command line
    with E, X and Y parameters for which the last [; printing object]
    line read so far names that id: recording starts at a
    [; printing object <id>] line and goes on, across any
    [; stop printing object] line, until the next [; printing object]
    line. *)
Theorem C3_points_follow_printing_line (F : FloatOps)
  (lines : list string) (known : registry) (id : string) (p : Point) :
  slicer_scan lines = inr known ->
  In p (hull_points id known) ->
  exists j line,
    nth_error lines j = Some line
    /\ gcode_point line = inr (Some p)
    /\ printing_at None lines j = Some id.
Proof.
  unfold slicer_scan.
  destruct (for_lines_res slicer_scan_line ([], None) lines)
    as [e | [known' cur']] eqn:E; cbn [bind ret fst];
    intros H; inversion H; subst; clear H.
  intros Hp.
  destruct (slicer_scan_from lines [] known None cur' id p E Hp)
    as [[] | Hex].
  exact Hex.
Qed.

Lemma C3_witness :
  slicer_scan prusa_after_stop = inr prusa_after_stop_known /\
  In (pt 9 9) (hull_points "a" prusa_after_stop_known) /\
  exists j line,
    nth_error prusa_after_stop j = Some line
    /\ gcode_point line = inr (Some (pt 9 9))
    /\ printing_at None prusa_after_stop j = Some "a".
Proof.
  assert (H1 : slicer_scan prusa_after_stop = inr prusa_after_stop_known)
    by reflexivity.
  assert (H2 : In (pt 9 9) (hull_points "a" prusa_after_stop_known))
    by (right; left; reflexivity).
  split; [exact H1 |]. split; [exact H2 |].
  exact (C3_points_follow_printing_line python_floats prusa_after_stop
           prusa_after_stop_known "a" (pt 9 9) H1 H2).
Defined.

(* ================================================================== *)
(** ** The scan pass records every qualifying line *)

Section ScanComplete.
Context {F : FloatOps}.

Lemma dict_get_add_point_to (id c : string) (pt : Point) (known : registry) :
  dict_get id (add_point_to c pt known)
  = match dict_get id known with
    | Some o =>
        Some (if String.eqb id c
              then {| name := name o; hull := add_point (hull o) pt |}
              else o)
    | None => None
    end.
Proof.
  induction known as [| [k o] known IH]; cbn [add_point_to map dict_get].
  - reflexivity.
  - destruct (String.eqb k c) eqn:Ekc; cbn [dict_get];
      destruct (String.eqb id k) eqn:Eidk; try exact IH.
    + apply String.eqb_eq in Eidk. subst k. rewrite Ekc. reflexivity.
    + apply String.eqb_eq in Eidk. subst k. rewrite Ekc. reflexivity.
Qed.

(** [add_point] keeps the points of a hull, and the point added is in
    the hull afterwards, itself or as a point equal to it. *)
Lemma add_point_keeps (h : HullTracker) (p q : Point) :
  In q (points h) -> In q (points (add_point h p)).
Proof.
  unfold add_point. destruct (existsb (point_eqb p) (points h)); cbn [points].
  - auto.
  - intros H. apply in_or_app. left. exact H.
Qed.

Lemma add_point_has (h : HullTracker) (p : Point) :
  recorded p (points (add_point h p)).
Proof.
  unfold add_point, recorded.
  destruct (existsb (point_eqb p) (points h)) eqn:E; cbn [points].
  - right. apply existsb_exists in E. exact E.
  - left. apply in_or_app. right. left. reflexivity.
Qed.

Lemma hull_points_add_keeps (id c : string) (pt q : Point)
  (known : registry) :
  In q (hull_points id known) ->
  In q (hull_points id (add_point_to c pt known)).
Proof.
  unfold hull_points. rewrite dict_get_add_point_to.
  destruct (dict_get id known) as [o |]; [| auto].
  destruct (String.eqb id c); cbn [hull]; [apply add_point_keeps | auto].
Qed.

Lemma hull_points_add_has (id : string) (pt : Point) (known : registry) :
  dict_mem id known = true ->
  recorded pt (hull_points id (add_point_to id pt known)).
Proof.
  unfold dict_mem, hull_points. rewrite dict_get_add_point_to.
  destruct (dict_get id known) as [o |]; [| discriminate].
  intros _. rewrite String.eqb_refl. cbn [hull]. apply add_point_has.
Qed.

Lemma dict_mem_add_point_to (id c : string) (pt : Point) (known : registry) :
  dict_mem id (add_point_to c pt known) = dict_mem id known.
Proof.
  unfold dict_mem. rewrite dict_get_add_point_to.
  destruct (dict_get id known); reflexivity.
Qed.

Lemma dict_mem_register (id id' source : string) (known : registry) :
  dict_mem id (register id' source known)
  = dict_mem id known || String.eqb id id'.
Proof.
  unfold register. destruct (dict_mem id' known) eqn:E.
  - destruct (String.eqb id id') eqn:Eid.
    + apply String.eqb_eq in Eid. subst id'. rewrite E. reflexivity.
    + rewrite orb_false_r. reflexivity.
  - unfold dict_mem in *. rewrite dict_get_set.
    destruct (String.eqb id id') eqn:Eid.
    + rewrite orb_true_r. reflexivity.
    + rewrite orb_false_r. reflexivity.
Qed.

(** [track] keeps the points and the registered ids, and records the
    point of the line in the current hull. *)
Lemma track_keeps (known known' : registry) (cur : option string)
  (line : string) :
  track known cur line = inr known' ->
  (forall id q, In q (hull_points id known) -> In q (hull_points id known'))
  /\ (forall id, dict_mem id known' = dict_mem id known)
  /\ (forall id p, cur = Some id -> dict_mem id known = true ->
                   gcode_point line = inr (Some p) ->
                   recorded p (hull_points id known')).
Proof.
  unfold track. destruct cur as [c |].
  - destruct (gcode_point line) as [e | [pt |]]; cbn [bind ret];
      intros H; inversion H; subst; clear H.
    + split; [| split].
      * intros id q. apply hull_points_add_keeps.
      * intros id. apply dict_mem_add_point_to.
      * intros id p Hc Hmem Hp. inversion Hc; subst. inversion Hp; subst.
        apply hull_points_add_has. exact Hmem.
    + split; [auto | split; [auto |]].
      intros id p _ _ Hp. discriminate Hp.
  - intros H. inversion H; subst.
    split; [auto | split; [auto |]].
    intros id p Hc. discriminate Hc.
Qed.

Lemma slicer_scan_line_keeps (known known' : registry)
  (cur cur' : option string) (line : string) :
  registered cur known ->
  slicer_scan_line (known, cur) line = inr (known', cur') ->
  registered cur' known'
  /\ (forall id q, In q (hull_points id known) -> In q (hull_points id known'))
  /\ (forall id p,
         printing_at cur [line] 0 = Some id ->
         gcode_point line = inr (Some p) ->
         recorded p (hull_points id known')).
Proof.
  intros Hreg. unfold slicer_scan_line. cbn [printing_at].
  unfold printing_object_id.
  destruct (startswith line "; printing object ").
  - set (object_id := strip (split_item1 "printing object" line)).
    destruct (track _ _ line) as [e | k] eqn:Et; cbn [bind ret];
      intros H; inversion H; subst; clear H.
    destruct (track_keeps _ _ _ _ Et) as (Hkeep & Hmem & Hrec).
    assert (Hin : dict_mem object_id
                    (register object_id object_id known) = true).
    { rewrite dict_mem_register, String.eqb_refl. apply orb_true_r. }
    split; [| split].
    + intros id Hid. inversion Hid; subst. rewrite Hmem. exact Hin.
    + intros id q Hq. apply Hkeep. rewrite hull_points_register. exact Hq.
    + intros id p Hid Hp. inversion Hid; subst.
      apply (Hrec _ p eq_refl Hin Hp).
  - destruct (track known cur line) as [e | k] eqn:Et; cbn [bind ret];
      intros H; inversion H; subst; clear H.
    destruct (track_keeps _ _ _ _ Et) as (Hkeep & Hmem & Hrec).
    split; [| split].
    + intros id Hid. rewrite Hmem. apply Hreg. exact Hid.
    + exact Hkeep.
    + intros id p Hid Hp. apply (Hrec id p Hid (Hreg id Hid) Hp).
Qed.

Lemma recorded_keeps (p : Point) (l l' : list Point) :
  (forall q, In q l -> In q l') -> recorded p l -> recorded p l'.
Proof.
  unfold recorded. intros Hincl [H | (q & Hq & He)].
  - left. auto.
  - right. exists q. auto.
Qed.

Lemma slicer_scan_records (lines : list string) :
  forall (known known' : registry) (cur cur' : option string),
    registered cur known ->
    for_lines_res slicer_scan_line (known, cur) lines = inr (known', cur') ->
    (forall id q, In q (hull_points id known) -> In q (hull_points id known'))
    /\ forall j line id p,
         nth_error lines j = Some line ->
         gcode_point line = inr (Some p) ->
         printing_at cur lines j = Some id ->
         recorded p (hull_points id known').
Proof.
  induction lines as [| line rest IH]; intros known known' cur cur' Hreg.
  - cbn [for_lines_res ret]. intros H. inversion H; subst.
    split; [auto |]. intros [| j] l id p Hnth; discriminate Hnth.
  - cbn [for_lines_res].
    destruct (slicer_scan_line (known, cur) line) as [e | [known1 cur1]]
      eqn:Estep; cbn [bind]; [discriminate |].
    intros Hrest.
    pose proof (slicer_scan_line_inv known known1 cur cur1 line Estep)
      as [Hcur _].
    destruct (slicer_scan_line_keeps known known1 cur cur1 line Hreg Estep)
      as (Hreg1 & Hkeep1 & Hrec1).
    destruct (IH known1 known' cur1 cur' Hreg1 Hrest) as [Hkeep2 Hrec2].
    split; [auto |].
    intros [| j] l id p Hnth Hp Hat; cbn [nth_error printing_at] in *.
    + inversion Hnth; subst.
      apply (recorded_keeps p (hull_points id known1)); [apply Hkeep2 |].
      apply Hrec1; assumption.
    + rewrite <- Hcur in Hat. apply (Hrec2 j l id p Hnth Hp Hat).
Qed.

(** Every G-command line with E, X and Y parameters read while the last
    [; printing object] line names [id] leaves its point in the hull of
    [id], across [; stop printing object] lines. *)
Lemma slicer_scan_complete (lines : list string) (known : registry)
  (j : nat) (line id : string) (p : Point) :
  slicer_scan lines = inr known ->
  nth_error lines j = Some line ->
  gcode_point line = inr (Some p) ->
  printing_at None lines j = Some id ->
  recorded p (hull_points id known).
Proof.
  unfold slicer_scan.
  destruct (for_lines_res slicer_scan_line ([], None) lines)
    as [e | [known' cur']] eqn:E; cbn [bind ret fst];
    intros H; inversion H; subst; clear H.
  assert (Hreg : registered None (@nil (string * KnownObject)))
    by (intros id' Hid; discriminate Hid).
  destruct (slicer_scan_records lines [] known None cur' Hreg E) as [_ Hrec].
  apply Hrec.
Qed.

End ScanComplete.

(* ================================================================== *)
(** ** Start and end markers *)

(** Unfold the steps of a generator without touching its strings. *)
Ltac emit_simpl :=
  cbn [ebind yield pure throw lift object_end_marker object_start_marker
       ideamaker_close cura_close app fst snd].

Section Markers.
Context {F : FloatOps}.

Lemma balanced_skip (chunks : list string) :
  Forall (fun c => marker_of c = None) chunks ->
  forall (open : option string) (tail : list string),
    balanced open tail -> balanced open (chunks ++ tail).
Proof.
  induction 1 as [| c chunks Hc _ IH]; intros open tail Ht; cbn [app balanced].
  - exact Ht.
  - rewrite Hc. apply IH. exact Ht.
Qed.

Lemma header_chunks_no_marker (n : Z) :
  Forall (fun c => marker_of c = None) (header_chunks n).
Proof. repeat constructor. Qed.

Lemma definition_chunks_no_marker (o : KnownObject) :
  Forall (fun c => marker_of c = None) (definition_chunks o).
Proof.
  unfold definition_chunks.
  destruct (center (hull o)) as [[x y] |], (exterior (hull o));
    repeat constructor.
Qed.

Lemma definitions_no_marker (objects : list KnownObject) :
  Forall (fun c => marker_of c = None) (flat_map definition_chunks objects).
Proof.
  induction objects as [| o rest IH]; cbn [flat_map]; [constructor |].
  apply Forall_app. split; [apply definition_chunks_no_marker | exact IH].
Qed.

Lemma marker_of_start (object_name : string) :
  marker_of ("START_CURRENT_OBJECT NAME=" ++ object_name ++ nl)
  = Some (Start (object_name ++ nl)).
Proof. reflexivity. Qed.

Lemma marker_of_end (object_name : string) :
  marker_of ("END_CURRENT_OBJECT NAME=" ++ object_name ++ nl)
  = Some (End_ (object_name ++ nl)).
Proof. reflexivity. Qed.

(** A sequence that ends normally is made of two that do. *)
Lemma ebind_inr_inv {A B : Type} (m : emit A) (k : A -> emit B)
  (out : list string) (b : B) :
  ebind m k = (out, inr b) ->
  exists out1 a out2,
    m = (out1, inr a) /\ k a = (out2, inr b) /\ out = out1 ++ out2.
Proof.
  destruct m as [out1 [e | a]]; cbn [ebind]; [discriminate |].
  destruct (k a) as [out2 r] eqn:Ek. intros H. inversion H; subst.
  exists out1, a, out2. auto.
Qed.

(** *** ideaMaker *)

Lemma ideamaker_close_balanced (cur cur' : option KnownObject)
  (out : list string) :
  ideamaker_close cur = (out, inr cur') ->
  cur' = None /\
  forall tail, balanced None tail -> balanced (open_object cur) (out ++ tail).
Proof.
  destruct cur as [o |]; emit_simpl; intros H; inversion H; subst; clear H;
    (split; [reflexivity |]); intros tail Ht; cbn; auto.
Qed.

Lemma ideamaker_line_balanced (known : registry)
  (cur cur' : option KnownObject) (line : string) (out : list string) :
  marker_of line = None ->
  ideamaker_emit_line known cur line = (out, inr cur') ->
  forall tail,
    balanced (open_object cur') tail ->
    balanced (open_object cur) (out ++ tail).
Proof.
  intros Hline. unfold ideamaker_emit_line.
  destruct (startswith line ";TOTAL_NUM:") eqn:Etotal.
  - (* the line of the header *)
    destruct (total_num_line_only line Etotal) as [Hid Hrem].
    rewrite Hid, Hrem.
    destruct (int_of_string (strip (split_item1 ":" line))) as [n |];
      [| discriminate].
    destruct (n =? count known)%Z; [| discriminate].
    rewrite define_all_chunks. unfold header. emit_simpl.
    intros H. injection H as <- <-. intros tail Ht.
    rewrite !app_nil_r. cbn [app balanced]. rewrite Hline.
    change (balanced (open_object cur)
              (header_chunks n
                 ++ (flat_map definition_chunks (dict_values known) ++ tail))).
    apply balanced_skip; [apply header_chunks_no_marker |].
    apply balanced_skip; [apply definitions_no_marker | exact Ht].
  - destruct (startswith line ";PRINTING_ID:") eqn:Eid.
    + (* a new object, or none *)
      destruct (String.eqb (strip (split_item1 ":" line)) "-1").
      * destruct cur as [o |]; emit_simpl;
          intros H; inversion H; subst; clear H;
          intros tail Ht; cbn [app balanced]; rewrite Hline; cbn; auto.
      * unfold lookup.
        destruct (dict_get (strip (split_item1 ":" line)) known) as [o' |];
          [| destruct cur; emit_simpl; discriminate].
        destruct (String.eqb line (";REMAINING_TIME: 0" ++ nl));
          destruct cur as [o |]; emit_simpl;
          intros H; inversion H; subst; clear H;
          intros tail Ht; cbn [app balanced]; rewrite Hline; cbn; auto.
    + destruct (String.eqb line (";REMAINING_TIME: 0" ++ nl));
        destruct cur as [o |]; emit_simpl;
        intros H; inversion H; subst; clear H;
        intros tail Ht; cbn [app balanced]; rewrite Hline; cbn; auto.
Qed.

Lemma ideamaker_lines_balanced (known : registry) (lines : list string) :
  Forall (fun l => marker_of l = None) lines ->
  forall (cur cur' : option KnownObject) (out : list string),
    for_lines (ideamaker_emit_line known) cur lines = (out, inr cur') ->
    forall tail,
      balanced (open_object cur') tail ->
      balanced (open_object cur) (out ++ tail).
Proof.
  induction 1 as [| line rest Hline _ IH]; intros cur cur' out;
    cbn [for_lines].
  - intros H. inversion H; subst. intros tail Ht. exact Ht.
  - intros H. apply ebind_inr_inv in H
      as (out1 & mid & out2 & Hstep & Hrest & ->).
    intros tail Ht. rewrite <- app_assoc.
    apply (ideamaker_line_balanced known cur mid line out1 Hline Hstep).
    apply (IH mid cur' out2 Hrest). exact Ht.
Qed.

(** In the output of a successful ideaMaker run on a file that has no
    marker line of its own, start and end markers alternate, each end
    names the object started before it, and no object is left open. *)
Lemma ideamaker_markers_balanced (infile out : list string) :
  Forall (fun l => marker_of l = None) infile ->
  preprocess_ideamaker infile = (out, inr tt) ->
  balanced None out.
Proof.
  intros Hlines. unfold preprocess_ideamaker.
  destruct (ideamaker_scan [] None infile) as [e | known];
    [discriminate |].
  change (lift (inr known)) with (pure known). rewrite ebind_pure_l.
  intros H. apply ebind_inr_inv in H as (out1 & cur & out2 & Hloop & Hend & ->).
  apply ebind_inr_inv in Hend as (out3 & cur' & out4 & Hclose & Hpure & ->).
  inversion Hpure; subst.
  apply (ideamaker_lines_balanced known infile Hlines None cur out1 Hloop).
  destruct (ideamaker_close_balanced cur cur' out3 Hclose) as [_ Hb].
  apply Hb. reflexivity.
Qed.

End Markers.

(** *** Cura *)

Section CuraMarkers.
Context {F : FloatOps}.

Lemma ebind_yield {B : Type} (chunks : list string) (k : unit -> emit B) :
  ebind (yield chunks) k = (chunks ++ fst (k tt), snd (k tt)).
Proof. unfold ebind, yield. destruct (k tt). reflexivity. Qed.

Lemma cura_close_balanced (cur cur' : option string) (out : list string) :
  name_ok cur ->
  cura_close cur = (out, inr cur') ->
  cur' = None /\
  forall tail, balanced None tail -> balanced (open_name cur) (out ++ tail).
Proof.
  destruct cur as [s |]; cbn [name_ok cura_close]; intros Hok.
  - destruct (String.eqb s "") eqn:E.
    + apply String.eqb_eq in E. contradiction.
    + emit_simpl. intros H. inversion H; subst; clear H.
      split; [reflexivity |]. intros tail Ht. cbn. auto.
  - emit_simpl. intros H. inversion H; subst; clear H.
    split; [reflexivity |]. intros tail Ht. exact Ht.
Qed.

Lemma cura_line_balanced (known : registry) (last : option string)
  (cur cur' : option string) (line : string) (out : list string) :
  names_nonempty known ->
  name_ok cur ->
  marker_of line = None ->
  cura_emit_line known last cur line = (out, inr cur') ->
  name_ok cur' /\
  forall tail,
    balanced (open_name cur') tail -> balanced (open_name cur) (out ++ tail).
Proof.
  intros Hnames Hok Hline. unfold cura_emit_line.
  assert (Hat : forall (c c' : option string) (o : list string),
             name_ok c ->
             match last with
             | Some l => if String.eqb line l then cura_close c else pure c
             | None => pure c
             end = (o, inr c') ->
             name_ok c' /\
             forall tail, balanced (open_name c') tail ->
                          balanced (open_name c) (o ++ tail)).
  { intros c c' o Hc.
    destruct last as [l |]; [destruct (String.eqb line l) |].
    - intros H. destruct (cura_close_balanced c c' o Hc H) as [-> Hb].
      split; [exact I | exact Hb].
    - intros H. inversion H; subst. split; [exact Hc | auto].
    - intros H. inversion H; subst. split; [exact Hc | auto]. }
  cbv zeta. intros H.
  apply ebind_inr_inv in H as (o1 & [] & o2 & Hy & H & ->).
  injection Hy as <-.
  destruct (startswith line ";MESH:").
  - apply ebind_inr_inv in H as (o3 & c1 & o4 & Hclose & H & ->).
    destruct (cura_close_balanced cur c1 o3 Hok Hclose) as [-> Hb1].
    destruct (String.eqb (strip (after_first ":" line)) "NONMESH").
    + injection H as <- <-. split; [exact I |]. intros tail Ht.
      cbn [app balanced]. rewrite Hline, app_nil_r. apply Hb1. exact Ht.
    + apply ebind_inr_inv in H as (o5 & o & o6 & Hlook & H & ->).
      unfold lookup in Hlook.
      destruct (dict_get (strip (after_first ":" line)) known) as [o' |] eqn:Eo;
        [| discriminate Hlook].
      injection Hlook as <- <-.
      apply ebind_inr_inv in H as (o7 & [] & o8 & Hstart & H & ->).
      unfold object_start_marker, yield in Hstart. injection Hstart as <-.
      destruct (Hat (Some (name o')) cur' o8 (Hnames _ o' Eo) H) as [Hok2 Hb2].
      split; [exact Hok2 |]. intros tail Ht.
      cbn [app balanced]. rewrite Hline, <- app_assoc. apply Hb1.
      cbn. split; [reflexivity |]. apply Hb2. exact Ht.
  - destruct (Hat cur cur' o2 Hok H) as [Hok2 Hb2].
    split; [exact Hok2 |]. intros tail Ht.
    cbn [app balanced]. rewrite Hline. apply Hb2. exact Ht.
Qed.

Lemma cura_lines_balanced (known : registry) (last : option string)
  (lines : list string) :
  names_nonempty known ->
  Forall (fun l => marker_of l = None) lines ->
  forall (cur cur' : option string) (out : list string),
    name_ok cur ->
    for_lines (cura_emit_line known last) cur lines = (out, inr cur') ->
    name_ok cur' /\
    forall tail,
      balanced (open_name cur') tail ->
      balanced (open_name cur) (out ++ tail).
Proof.
  intros Hnames.
  induction 1 as [| line rest Hline _ IH]; intros cur cur' out Hok;
    cbn [for_lines].
  - intros H. inversion H; subst. split; [exact Hok | auto].
  - intros H. apply ebind_inr_inv in H
      as (out1 & mid & out2 & Hstep & Hrest & ->).
    destruct (cura_line_balanced known last cur mid line out1
                Hnames Hok Hline Hstep) as [Hmid Hb1].
    destruct (IH mid cur' out2 Hmid Hrest) as [Hok' Hb2].
    split; [exact Hok' |]. intros tail Ht.
    rewrite <- app_assoc. apply Hb1, Hb2, Ht.
Qed.

Lemma cura_leading_split (lines : list string) :
  fst (cura_leading lines) ++ snd (cura_leading lines) = lines.
Proof.
  induction lines as [| line rest IH]; cbn [cura_leading]; [reflexivity |].
  destruct (negb (String.eqb (strip line) "") && negb (startswith line ";")).
  - reflexivity.
  - destruct (cura_leading rest) as [passed remaining]. cbn in *.
    rewrite IH. reflexivity.
Qed.

(** In the output of a successful Cura run on a file that has no marker
    line of its own, the markers are balanced provided no registered
    object has an empty name. *)
Lemma cura_markers_balanced (infile out : list string)
  (st : cura_scan_state) :
  Forall (fun l => marker_of l = None) infile ->
  cura_scan infile = inr st ->
  names_nonempty (cs_known st) ->
  preprocess_cura infile = (out, inr tt) ->
  balanced None out.
Proof.
  intros Hlines Hscan Hnames. unfold preprocess_cura. rewrite Hscan.
  change (lift (inr st)) with (pure st). rewrite ebind_pure_l.
  pose proof (cura_leading_split infile) as Hsplit.
  destruct (cura_leading infile) as [passed remaining]. cbn [fst snd] in Hsplit.
  rewrite <- Hsplit in Hlines. apply Forall_app in Hlines as [Hp Hr].
  rewrite define_all_chunks. unfold header. emit_simpl.
  destruct (for_lines (cura_emit_line (cs_known st)
                         (cs_last_time_elapsed st)) None remaining)
    as [out1 [e | cur]] eqn:Eloop; cbn [ebind]; [discriminate |].
  destruct (cura_lines_balanced (cs_known st) (cs_last_time_elapsed st)
              remaining Hnames Hr None cur out1 I Eloop) as [Hok Hb].
  destruct (cura_close cur) as [out2 [e | cur']] eqn:Eclose;
    cbn [ebind pure]; [discriminate |].
  destruct (cura_close_balanced cur cur' out2 Hok Eclose) as [_ Hb2].
  intros H. injection H as <-.
  apply balanced_skip; [exact Hp |].
  change (balanced None
            (header_chunks (count (cs_known st))
               ++ (flat_map definition_chunks (dict_values (cs_known st))
                     ++ [] ++ out1 ++ out2 ++ []))).
  apply balanced_skip; [apply header_chunks_no_marker |].
  apply balanced_skip; [apply definitions_no_marker |].
  cbn [app]. apply Hb, Hb2. reflexivity.
Qed.

End CuraMarkers.

(* ================================================================== *)
(** ** Lines of an output *)

Lemma append_assoc (a b c : string) :
  (a ++ b ++ c)%string = ((a ++ b) ++ c)%string.
Proof.
  induction a as [| x a IH]; cbn; [reflexivity | rewrite IH; reflexivity].
Qed.

Lemma readlines_concat (s : string) : concat (readlines s) = s.
Proof.
  induction s as [| c s IH]; [reflexivity |].
  cbn [readlines]. destruct (Ascii.eqb c "010").
  - rewrite concat_cons, IH. reflexivity.
  - destruct (readlines s) as [| l ls].
    + cbn in IH. subst s. reflexivity.
    + rewrite concat_cons in *. cbn. rewrite IH. reflexivity.
Qed.

Lemma readlines_nil (s : string) : readlines s = [] -> s = "".
Proof.
  intros H. rewrite <- (readlines_concat s), H. reflexivity.
Qed.

Lemma ends_line_tail (c : ascii) (s : string) :
  ends_line (String c s) -> ends_line s /\ (s = "" -> c = "010"%char).
Proof.
  intros [H | [t H]]; [discriminate H |].
  destruct t as [| c' t]; cbn in H; injection H as -> ->.
  - split; [left; reflexivity | reflexivity].
  - split; [right; exists t; reflexivity |].
    intros H. destruct t; discriminate H.
Qed.

(** A text that ends a line splits the lines of what it is followed by. *)
Lemma readlines_app (a b : string) :
  ends_line a -> readlines (a ++ b) = readlines a ++ readlines b.
Proof.
  induction a as [| c a IH]; intros Ha; [reflexivity |].
  apply ends_line_tail in Ha as [Ha Hc].
  cbn [append readlines]. rewrite (IH Ha).
  destruct (Ascii.eqb c "010") eqn:E; [reflexivity |].
  destruct (readlines a) as [| l ls] eqn:El.
  - apply readlines_nil in El. apply Hc in El. subst c. discriminate E.
  - reflexivity.
Qed.

Lemma startswith_inv (s p : string) :
  startswith s p = true -> exists t, s = (p ++ t)%string.
Proof.
  revert s. induction p as [| b p IH]; intros s H.
  - exists s. reflexivity.
  - destruct s as [| a s]; [discriminate H |].
    cbn [startswith] in H. apply andb_true_iff in H as [Hab H].
    apply Ascii.eqb_eq in Hab. subst b.
    destruct (IH s H) as [t ->]. exists t. reflexivity.
Qed.

Lemma startswith_app (p t : string) : startswith (p ++ t) p = true.
Proof.
  induction p as [| b p IH]; [reflexivity |].
  cbn [append startswith]. rewrite Ascii.eqb_refl. exact IH.
Qed.

(** The first line of a text starts with any prefix of the text that has
    no newline. *)
Lemma readlines_first (p s : string) :
  p <> "" ->
  forallb (fun c => negb (Ascii.eqb c "010")) (list_ascii_of_string p) = true ->
  exists l ls, readlines (p ++ s) = (p ++ l)%string :: ls.
Proof.
  induction p as [| c p IH]; intros Hne Hnl; [contradiction |].
  cbn [list_ascii_of_string forallb] in Hnl.
  apply andb_true_iff in Hnl as [Hc Hnl]. apply negb_true_iff in Hc.
  cbn [append readlines]. rewrite Hc.
  destruct p as [| c' p].
  - cbn [append]. destruct (readlines s) as [| l ls].
    + exists "", []. reflexivity.
    + exists l, ls. reflexivity.
  - destruct (IH ltac:(discriminate) Hnl) as (l & ls & E).
    rewrite E. exists l, ls. reflexivity.
Qed.

(** A chunk that begins with DEFINE_OBJECT right after the end of a line
    makes the text annotated. *)
Lemma annotated_of_parts (a c b : string) :
  ends_line a ->
  startswith c "DEFINE_OBJECT" = true ->
  annotated (a ++ c ++ b).
Proof.
  intros Ha Hc. apply startswith_inv in Hc as [t ->].
  unfold annotated. rewrite (readlines_app _ _ Ha).
  rewrite <- append_assoc.
  destruct (readlines_first "DEFINE_OBJECT" (t ++ b)) as (l & ls & E);
    [discriminate | reflexivity |].
  rewrite E. exists ("DEFINE_OBJECT" ++ l)%string. split.
  - apply in_or_app. right. left. reflexivity.
  - apply startswith_app.
Qed.

Lemma concat_app (xs ys : list string) :
  concat (xs ++ ys) = (concat xs ++ concat ys)%string.
Proof.
  induction xs as [| x xs IH]; [reflexivity |].
  cbn [app]. rewrite !concat_cons, IH, append_assoc. reflexivity.
Qed.

Lemma ends_line_concat_header (before : list string) (n : Z) :
  ends_line (concat (before ++ header_chunks n)).
Proof.
  right. unfold header_chunks.
  exists (concat before ++ nl ++ nl
            ++ "; Pre-Processed for Cancel-Object support" ++ nl
            ++ "; " ++ str_of_Z n ++ " known objects")%string.
  rewrite concat_app, !concat_cons. unfold HEADER_MARKER, concat.
  cbn [String.concat].
  rewrite <- !append_assoc. reflexivity.
Qed.

Section AnnotatedOutput.
Context {F : FloatOps}.

(** An output in which a header is followed by the definition of an
    object is annotated. *)
Lemma header_and_definitions_annotate (before after : list string) (n : Z)
  (o : KnownObject) (objects : list KnownObject) :
  annotated (concat (before ++ header_chunks n
                       ++ flat_map definition_chunks (o :: objects)
                       ++ after)).
Proof.
  rewrite app_assoc, concat_app. cbn [flat_map].
  unfold definition_chunks at 1. cbn [app].
  rewrite concat_cons.
  apply annotated_of_parts.
  - apply ends_line_concat_header.
  - reflexivity.
Qed.

(** What the banner line makes the emission loop of PrusaSlicer yield
    first. *)
Lemma slicer_banner_line (known : registry) (line : string)
  (out : list string) :
  startswith line "; generated by" = true ->
  slicer_emit_line known tt line = (out, inr tt) ->
  exists more,
    out = line :: header_chunks (count known)
               ++ flat_map definition_chunks (dict_values known) ++ more.
Proof.
  intros Hb. unfold slicer_emit_line. rewrite Hb, define_all_chunks.
  intros H.
  apply ebind_inr_inv in H as (o1 & [] & o2 & Hy & H & ->).
  injection Hy as <-.
  apply ebind_inr_inv in H as (o3 & [] & o4 & Hh & H & ->).
  unfold header in Hh. cbn [ebind yield] in Hh. injection Hh as <-.
  exists o4. reflexivity.
Qed.

(** A PrusaSlicer or Slic3r file with a banner line and at least one
    object has an annotated output: processing that output again changes
    nothing. *)
Lemma slicer_output_annotated (infile out : list string) (known : registry)
  (banner : string) :
  slicer_scan infile = inr known ->
  known <> [] ->
  In banner infile ->
  startswith banner "; generated by" = true ->
  preprocess_slicer infile = (out, inr tt) ->
  annotated (concat out).
Proof.
  intros Hscan Hne Hin Hb. unfold preprocess_slicer. rewrite Hscan.
  change (lift (inr known)) with (pure known). rewrite ebind_pure_l.
  apply in_split in Hin as (pre & post & ->).
  rewrite for_lines_app. intros H.
  apply ebind_inr_inv in H as (o1 & [] & o2 & _ & H & ->).
  cbn [for_lines] in H.
  apply ebind_inr_inv in H as (o3 & [] & o4 & Hline & _ & ->).
  destruct (slicer_banner_line known banner o3 Hb Hline) as [more ->].
  destruct known as [| [k o] known]; [contradiction |].
  cbn [dict_values map snd].
  replace (o1 ++ (banner :: header_chunks (count ((k, o) :: known))
                    ++ flat_map definition_chunks (o :: map snd known)
                    ++ more) ++ o4)
    with ((o1 ++ [banner]) ++ header_chunks (count ((k, o) :: known))
            ++ flat_map definition_chunks (o :: map snd known)
            ++ (more ++ o4)).
  - apply header_and_definitions_annotate.
  - rewrite <- !app_assoc. cbn [app]. rewrite <- !app_assoc. reflexivity.
Qed.

End AnnotatedOutput.

(* ================================================================== *)
(** ** Idempotence on PrusaSlicer files with objects *)

Lemma rstrip_is_prefix (f : ascii -> bool) (s : string) :
  exists t, s = (rstrip_with f s ++ t)%string.
Proof.
  induction s as [| c s [t IH]]; [exists ""; reflexivity |].
  cbn [rstrip_with]. destruct (rstrip_with f s) as [| a r].
  - destruct (f c).
    + exists (String c s). reflexivity.
    + exists s. reflexivity.
  - exists t. change (String c s = String c (String a r ++ t)).
    f_equal. exact IH.
Qed.

Lemma startswith_app_l (s t p : string) :
  startswith s p = true -> startswith (s ++ t) p = true.
Proof.
  revert s. induction p as [| b p IH]; intros s H; [reflexivity |].
  destruct s as [| a s]; [discriminate H |].
  cbn [append startswith] in *. apply andb_true_iff in H as [H1 H2].
  rewrite H1. apply IH. exact H2.
Qed.

Lemma startswith_trans (s p q : string) :
  startswith s p = true -> startswith p q = true -> startswith s q = true.
Proof.
  intros Hs Hp. apply startswith_inv in Hs as [t ->].
  apply startswith_app_l. exact Hp.
Qed.

(** On a comment line, a marker found after stripping is at the start of
    the line itself. *)
Lemma comment_line_marker (line marker : string) :
  startswith line ";" = true ->
  startswith (strip line) marker = true ->
  startswith line marker = true.
Proof.
  intros Hc Hm. unfold strip, strip_with in Hm.
  destruct line as [| c line]; [discriminate Hc |].
  cbn [startswith] in Hc. apply andb_true_iff in Hc as [Hc _].
  apply Ascii.eqb_eq in Hc. subst c.
  change (lstrip_with isspace (String ";" line)) with (String ";" line) in Hm.
  destruct (rstrip_is_prefix isspace (String ";" line)) as [t E].
  rewrite E. apply startswith_app_l. exact Hm.
Qed.

(** When detection picks the PrusaSlicer and Slic3r parser, the file has
    a line that starts with the banner. *)
Lemma detect_slicer_banner (lines : list string) (name : string) :
  detect lines = Identified name Slicer ->
  exists banner,
    In banner lines /\ startswith banner "; generated by" = true.
Proof.
  induction lines as [| line rest IH]; cbn [detect]; [discriminate |].
  destruct (String.eqb (strip line) "").
  - intros H. destruct (IH H) as (b & Hb & Hs). exists b. split; auto.
    right. exact Hb.
  - destruct (startswith line ";") eqn:Ec; cbn [negb]; [| discriminate].
    unfold identify_slicer_marker, SLICERS. cbn [find fst snd].
    destruct (startswith (strip line) "; generated by SuperSlicer");
      [discriminate |].
    destruct (startswith (strip line) "; generated by PrusaSlicer") eqn:E1.
    { intros _. exists line. split; [left; reflexivity |].
      apply (startswith_trans line "; generated by PrusaSlicer");
        [apply comment_line_marker; assumption | reflexivity]. }
    destruct (startswith (strip line) "; generated by Slic3r") eqn:E2.
    { intros _. exists line. split; [left; reflexivity |].
      apply (startswith_trans line "; generated by Slic3r");
        [apply comment_line_marker; assumption | reflexivity]. }
    destruct (startswith (strip line) ";Generated with Cura_SteamEngine");
      [discriminate |].
    destruct (startswith (strip line) ";Sliced by ideaMaker");
      [discriminate |].
    intros H. destruct (IH H) as (b & Hb & Hs). exists b. split; auto.
    right. exact Hb.
Qed.

Section PrusaIdempotent.
Context {F : FloatOps}.

(** Processing is idempotent on every PrusaSlicer or Slic3r file in which
    the scan pass registers at least one object. *)
Lemma prusa_with_objects_idempotent (infile out name : string)
  (known : registry) :
  detect (readlines infile) = Identified name Slicer ->
  slicer_scan (readlines infile) = inr known ->
  known <> [] ->
  succeeds_with infile out ->
  succeeds_with out out.
Proof.
  intros Hdet Hscan Hne [Hres Hout].
  assert (Hann : annotated out).
  { unfold preprocessor in Hres, Hout.
    destruct (already_annotated (readlines infile)) eqn:Ea.
    - cbn in Hout. subst out. apply already_annotated_spec. exact Ea.
    - rewrite Hdet in Hres, Hout. cbn [result written run_processor] in *.
      destruct (preprocess_slicer (readlines infile)) as [chunks [e | []]]
        eqn:Eg; [discriminate Hres |].
      cbn [yielded fst] in Hout. subst out.
      destruct (detect_slicer_banner _ _ Hdet) as (banner & Hin & Hb).
      apply (slicer_output_annotated (readlines infile) chunks known banner
               Hscan Hne Hin Hb Eg). }
  unfold succeeds_with. rewrite (preprocessor_passthrough out Hann).
  split; reflexivity.
Qed.

End PrusaIdempotent.

(* ================================================================== *)
(** ** Reading the count of a [;TOTAL_NUM:] line *)

Lemma int_digits_digit (c : ascii) (acc : Z) (b : bool) (s : string) :
  isdigit c = true ->
  int_digits acc b (String c s) = int_digits (10 * acc + digit_val c) true s.
Proof.
  intros H. cbn [int_digits].
  destruct (Ascii.eqb c "_") eqn:E.
  - apply Ascii.eqb_eq in E. subst c. discriminate H.
  - rewrite H. reflexivity.
Qed.

Ltac read_digit IH :=
  rewrite int_digits_digit by reflexivity;
  match goal with
  | |- int_digits (_ + digit_val ?c)%Z true _
       = Some (Z.pos (Pos.of_uint_acc _ ?a)) =>
      let k := eval vm_compute in (digit_val c) in
      change (digit_val c) with k;
      match goal with
      | |- int_digits ?v true _ = _ => replace v with (Z.pos a) by lia
      end
  end;
  apply IH.

Lemma int_digits_acc (d : Decimal.uint) :
  forall acc : positive,
    int_digits (Z.pos acc) true (NilEmpty.string_of_uint d)
    = Some (Z.pos (Pos.of_uint_acc d acc)).
Proof.
  induction d as [| d IH | d IH | d IH | d IH | d IH | d IH | d IH | d IH
                  | d IH | d IH]; intros acc;
    cbn [NilEmpty.string_of_uint Pos.of_uint_acc];
    [reflexivity | read_digit IH ..].
Qed.

Lemma int_digits_uint (d : Decimal.uint) (b : bool) :
  d <> Decimal.Nil ->
  int_digits 0 b (NilEmpty.string_of_uint d) = Some (Z.of_N (Pos.of_uint d)).
Proof.
  revert b.
  induction d as [| d IH | d IH | d IH | d IH | d IH | d IH | d IH | d IH
                  | d IH | d IH]; intros b Hne;
    cbn [NilEmpty.string_of_uint Pos.of_uint];
    [contradiction | | rewrite int_digits_digit by reflexivity;
                       apply (int_digits_acc d) ..].
  rewrite int_digits_digit by reflexivity.
  change (10 * 0 + digit_val "0")%Z with 0%Z.
  destruct d; try (apply IH; discriminate). reflexivity.
Qed.

(** The characters of a printed integer are digits, after a sign. *)
Lemma string_of_uint_digits (d : Decimal.uint) :
  forallb isdigit (list_ascii_of_string (NilEmpty.string_of_uint d)) = true.
Proof.
  induction d; cbn [NilEmpty.string_of_uint list_ascii_of_string forallb];
    try reflexivity; exact IHd.
Qed.

Lemma isdigit_plain (c : ascii) :
  isdigit c = true ->
  isspace c = false /\ isspace_num c = false /\ Ascii.eqb c ":" = false.
Proof.
  intros H.
  assert (Hc : Ascii.eqb c ":" = false).
  { apply Ascii.eqb_neq. intros ->. discriminate H. }
  revert H. unfold isdigit, isspace, isspace_num, between. intros H.
  apply andb_true_iff in H as [H1 H2].
  apply N.leb_le in H1, H2.
  repeat split; try exact Hc;
    repeat (apply orb_false_iff; split);
    try (apply andb_false_iff;
         destruct (N.leb_spec 9 (code c)); [right | left; reflexivity];
         apply N.leb_gt; lia);
    try (apply andb_false_iff;
         destruct (N.leb_spec 28 (code c)); [right | left; reflexivity];
         apply N.leb_gt; lia);
    apply N.eqb_neq; lia.
Qed.

Lemma lstrip_id (f : ascii -> bool) (s : string) :
  forallb (fun c => negb (f c)) (list_ascii_of_string s) = true ->
  lstrip_with f s = s.
Proof.
  destruct s as [| c s]; [reflexivity |].
  cbn [list_ascii_of_string forallb lstrip_with]. intros H.
  apply andb_true_iff in H as [H _]. apply negb_true_iff in H.
  rewrite H. reflexivity.
Qed.

Lemma rstrip_id (f : ascii -> bool) (s : string) :
  forallb (fun c => negb (f c)) (list_ascii_of_string s) = true ->
  rstrip_with f s = s.
Proof.
  induction s as [| c s IH]; [reflexivity |].
  cbn [list_ascii_of_string forallb rstrip_with]. intros H.
  apply andb_true_iff in H as [Hc H]. apply negb_true_iff in Hc.
  rewrite (IH H), Hc. destruct s; reflexivity.
Qed.

(** Stripping a line of such characters gives the characters back. *)
Lemma strip_line (s : string) :
  forallb (fun c => negb (isspace c)) (list_ascii_of_string s) = true ->
  strip (s ++ nl) = s.
Proof.
  intros H. destruct s as [| c0 s0]; [reflexivity |].
  remember (String c0 s0) as s eqn:Es.
  unfold strip, strip_with.
  assert (E : lstrip_with isspace (s ++ nl) = (s ++ nl)%string).
  { subst s.
    cbn [list_ascii_of_string forallb] in H.
    apply andb_true_iff in H as [Hc _]. apply negb_true_iff in Hc.
    cbn [append lstrip_with]. rewrite Hc. reflexivity. }
  rewrite E. clear E Es c0 s0.
  induction s as [| c s IH]; [reflexivity |].
  cbn [list_ascii_of_string forallb] in H.
  apply andb_true_iff in H as [Hc H]. apply negb_true_iff in Hc.
  cbn [append rstrip_with]. rewrite (IH H), Hc. destruct s; reflexivity.
Qed.

Lemma rev_string_app (acc s : string) :
  rev_string "" (rev_string acc s) = (rev_string "" acc ++ s)%string.
Proof.
  revert acc. induction s as [| c s IH]; intros acc; cbn [rev_string].
  - clear. induction (rev_string "" acc) as [| x r IHr]; cbn;
      [reflexivity | rewrite <- IHr; reflexivity].
  - rewrite IH. cbn [rev_string].
    assert (E : forall a b, rev_string b a = (rev_string "" a ++ b)%string).
    { clear. induction a as [| x a IHa]; intros b; cbn [rev_string];
        [reflexivity |].
      rewrite (IHa (String x b)), (IHa (String x "")).
      rewrite <- append_assoc. reflexivity. }
    rewrite (E acc (String c "")), <- append_assoc. reflexivity.
Qed.

(** A text without colon is one piece. *)
Lemma split_no_colon (s cur : string) :
  forallb (fun c => negb (Ascii.eqb c ":")) (list_ascii_of_string s) = true ->
  split_aux ":" 0 cur s = [(rev_string "" cur ++ s)%string].
Proof.
  revert cur. induction s as [| c s IH]; intros cur H; cbn [split_aux].
  - f_equal. clear. induction (rev_string "" cur) as [| x r IHr]; cbn;
      [reflexivity | rewrite <- IHr; reflexivity].
  - cbn [list_ascii_of_string forallb] in H.
    apply andb_true_iff in H as [Hc H]. apply negb_true_iff in Hc.
    cbn [startswith]. rewrite Hc. cbn [andb].
    rewrite (IH _ H). f_equal.
    change (rev_string "" (String c cur))
      with (rev_string "" (rev_string cur (String c ""))).
    rewrite rev_string_app, <- append_assoc. reflexivity.
Qed.

Lemma int_of_string_str_of_Z (n : Z) :
  (count_digits (str_of_Z n) <= int_max_str_digits)%Z ->
  int_of_string (str_of_Z n) = Some n.
Proof.
  intros Hlim.
  assert (Hs : strip_with isspace_num (str_of_Z n) = str_of_Z n).
  { unfold str_of_Z, Z.to_int.
    destruct n as [| p | p]; [reflexivity | |];
      cbn [NilEmpty.string_of_int];
      pose proof (string_of_uint_digits (Pos.to_uint p)) as Hd;
      assert (Hn : forallb (fun c => negb (isspace_num c))
                     (list_ascii_of_string
                        (NilEmpty.string_of_uint (Pos.to_uint p))) = true)
        by (apply forallb_forall; intros c Hc;
            rewrite forallb_forall in Hd;
            destruct (isdigit_plain c (Hd c Hc)) as (_ & -> & _);
            reflexivity).
    - unfold strip_with. rewrite (lstrip_id _ _ Hn). apply rstrip_id, Hn.
    - unfold strip_with. cbn [lstrip_with].
      change (isspace_num "-") with false. cbn iota.
      apply rstrip_id. cbn [list_ascii_of_string forallb].
      rewrite Hn. reflexivity. }
  unfold int_of_string. cbv zeta. rewrite Hs.
  apply Z.ltb_ge in Hlim. rewrite Hlim. clear Hs Hlim.
  unfold str_of_Z, Z.to_int.
  destruct n as [| p | p]; [reflexivity | |]; cbn [NilEmpty.string_of_int];
    pose proof (DecimalPos.Unsigned.to_uint_nonnil p) as Hne;
    pose proof (int_digits_uint (Pos.to_uint p) false Hne) as E;
    rewrite DecimalPos.Unsigned.of_to in E; cbn [Z.of_N] in E.
  - destruct (Pos.to_uint p); try contradiction; exact E.
  - rewrite E. reflexivity.
Qed.

(** The line [;TOTAL_NUM:<n>] is a [;TOTAL_NUM:] line whose count reads
    as [n], for every natural number [n] written with no more digits
    than [int()] converts. *)
Lemma total_num_line_reads (n : nat) :
  (count_digits (str_of_Z (Z.of_nat n)) <= int_max_str_digits)%Z ->
  let line := (";TOTAL_NUM:" ++ str_of_Z (Z.of_nat n) ++ nl)%string in
  startswith line ";TOTAL_NUM:" = true /\
  int_of_string (strip (split_item1 ":" line)) = Some (Z.of_nat n).
Proof.
  intros Hlim. cbv zeta. split; [apply startswith_app |].
  assert (Hd : forallb isdigit
                 (list_ascii_of_string (str_of_Z (Z.of_nat n))) = true).
  { unfold str_of_Z, Z.to_int.
    destruct (Z.of_nat n) eqn:E; [reflexivity | | lia].
    apply string_of_uint_digits. }
  assert (Hsplit : split_item1 ":"
                     (";TOTAL_NUM:" ++ str_of_Z (Z.of_nat n) ++ nl)
                   = (str_of_Z (Z.of_nat n) ++ nl)%string).
  { unfold split_item1, split. cbn [append split_aux startswith Ascii.eqb
                                      Bool.eqb andb String.length Nat.sub].
    cbn [rev_string].
    rewrite split_no_colon; [reflexivity |].
    rewrite forallb_forall in Hd. apply forallb_forall. intros c Hc.
    assert (Hin : In c (list_ascii_of_string (str_of_Z (Z.of_nat n)))
                  \/ c = "010"%char).
    { clear - Hc. induction (str_of_Z (Z.of_nat n)) as [| x s IH];
        cbn in *; [destruct Hc as [<- | []]; auto |].
      destruct Hc as [<- | Hc]; [auto |]. destruct (IH Hc); auto. }
    destruct Hin as [Hin | ->]; [| reflexivity].
    destruct (isdigit_plain c (Hd c Hin)) as (_ & _ & ->). reflexivity. }
  rewrite Hsplit, strip_line.
  - apply int_of_string_str_of_Z, Hlim.
  - rewrite forallb_forall in Hd. apply forallb_forall. intros c Hc.
    destruct (isdigit_plain c (Hd c Hc)) as (-> & _). reflexivity.
Qed.

(* ================================================================== *)
(** ** Sanitized names *)

Lemma re_sub_word (s : string) :
  forall b,
    forallb isword
      (list_ascii_of_string
         (re_sub_plus (fun c => negb (isword c)) "_" b s)) = true.
Proof.
  induction s as [| c s IH]; intros b; cbn [re_sub_plus]; [reflexivity |].
  destruct (isword c) eqn:E; cbn [negb].
  - cbn [list_ascii_of_string forallb]. rewrite E, IH. reflexivity.
  - destruct b; [apply IH |].
    cbn [append list_ascii_of_string forallb]. rewrite IH. reflexivity.
Qed.

Lemma lstrip_keeps (P f : ascii -> bool) (s : string) :
  forallb P (list_ascii_of_string s) = true ->
  forallb P (list_ascii_of_string (lstrip_with f s)) = true.
Proof.
  induction s as [| c s IH]; intros H; cbn [lstrip_with]; [reflexivity |].
  destruct (f c); [| exact H].
  cbn [list_ascii_of_string forallb] in H.
  apply andb_true_iff in H as [_ H]. apply IH, H.
Qed.

Lemma rstrip_keeps (P f : ascii -> bool) (s : string) :
  forallb P (list_ascii_of_string s) = true ->
  forallb P (list_ascii_of_string (rstrip_with f s)) = true.
Proof.
  induction s as [| c s IH]; intros H; cbn [rstrip_with]; [reflexivity |].
  cbn [list_ascii_of_string forallb] in H.
  apply andb_true_iff in H as [Hc H]. specialize (IH H).
  destruct (rstrip_with f s) as [| a r].
  - destruct (f c); cbn [list_ascii_of_string forallb]; [reflexivity |].
    rewrite Hc. reflexivity.
  - cbn [list_ascii_of_string forallb] in *. rewrite Hc. exact IH.
Qed.

Lemma lstrip_head (f : ascii -> bool) (s : string) (c : ascii) (r : string) :
  lstrip_with f s = String c r -> f c = false.
Proof.
  induction s as [| a s IH]; cbn [lstrip_with]; [discriminate |].
  destruct (f a) eqn:E; [exact IH |].
  intros H. injection H as <- _. exact E.
Qed.

Lemma rstrip_head (f : ascii -> bool) (c : ascii) (s : string) :
  f c = false -> exists r, rstrip_with f (String c s) = String c r.
Proof.
  intros H. cbn [rstrip_with]. destruct (rstrip_with f s).
  - rewrite H. eauto.
  - eauto.
Qed.

Lemma rstrip_last (f : ascii -> bool) (s : string) (c : ascii) :
  last_char (rstrip_with f s) = Some c -> f c = false.
Proof.
  induction s as [| a s IH]; cbn [rstrip_with]; [discriminate |].
  destruct (rstrip_with f s) as [| x r].
  - destruct (f a) eqn:E; [discriminate |].
    cbn. intros H. injection H as <-. exact E.
  - intros H. apply IH. exact H.
Qed.

Lemma rstrip_idem (f : ascii -> bool) (s : string) :
  rstrip_with f (rstrip_with f s) = rstrip_with f s.
Proof.
  induction s as [| a s IH]; cbn [rstrip_with]; [reflexivity |].
  destruct (rstrip_with f s) as [| x r] eqn:E.
  - destruct (f a) eqn:Ea; [reflexivity |]. cbn. rewrite Ea. reflexivity.
  - change (rstrip_with f (String a (String x r)))
      with (match rstrip_with f (String x r) with
            | "" => if f a then "" else String a ""
            | String y t => String a (String y t)
            end).
    rewrite IH. reflexivity.
Qed.

Lemma strip_with_idem (f : ascii -> bool) (s : string) :
  strip_with f (strip_with f s) = strip_with f s.
Proof.
  unfold strip_with.
  destruct (lstrip_with f s) as [| c r] eqn:E; [reflexivity |].
  pose proof (lstrip_head f s c r E) as Hc.
  destruct (rstrip_head f c r Hc) as [r' Hr].
  rewrite Hr. cbn [lstrip_with]. rewrite Hc, <- Hr. apply rstrip_idem.
Qed.

Lemma lstrip_empty (f : ascii -> bool) (s : string) :
  lstrip_with f s = "" <-> forallb f (list_ascii_of_string s) = true.
Proof.
  induction s as [| c s IH]; cbn [lstrip_with list_ascii_of_string forallb].
  - split; reflexivity.
  - destruct (f c); cbn [andb]; [exact IH |]. split; discriminate.
Qed.

Lemma strip_with_empty (f : ascii -> bool) (s : string) :
  strip_with f s = "" <-> forallb f (list_ascii_of_string s) = true.
Proof.
  rewrite <- lstrip_empty. unfold strip_with. split.
  - destruct (lstrip_with f s) as [| c r] eqn:E; [reflexivity |].
    destruct (rstrip_head f c r (lstrip_head f s c r E)) as [r' ->]. discriminate.
  - intros ->. reflexivity.
Qed.

Lemma strip_with_ends (f : ascii -> bool) (s : string) :
  (forall c, first_char (strip_with f s) = Some c -> f c = false) /\
  (forall c, last_char (strip_with f s) = Some c -> f c = false).
Proof.
  unfold strip_with. split; intros c H; [| apply (rstrip_last f _ c H)].
  destruct (lstrip_with f s) as [| a r] eqn:E; [discriminate H |].
  pose proof (lstrip_head f s a r E) as Ha.
  destruct (rstrip_head f a r Ha) as [r' Hr]. rewrite Hr in H.
  injection H as <-. exact Ha.
Qed.

(** X1.  A sanitized name consists of word characters only (letters,
    digits, underscores: no blank, no punctuation), and it neither begins
    nor ends with an underscore. *)
Theorem X1_clean_id_is_a_word (id : string) :
  forallb isword (list_ascii_of_string (_clean_id id)) = true
  /\ first_char (_clean_id id) <> Some "_"%char
  /\ last_char (_clean_id id) <> Some "_"%char.
Proof.
  unfold _clean_id, strip_chars.
  split; [| split].
  - unfold strip_with. apply rstrip_keeps, lstrip_keeps, re_sub_word.
  - intros H. apply strip_with_ends in H. discriminate H.
  - intros H. apply strip_with_ends in H. discriminate H.
Qed.

Lemma re_sub_of_word (s : string) :
  forallb isword (list_ascii_of_string s) = true ->
  re_sub_plus (fun c => negb (isword c)) "_" false s = s.
Proof.
  induction s as [| c s IH]; intros H; cbn [re_sub_plus]; [reflexivity |].
  cbn [list_ascii_of_string forallb] in H.
  apply andb_true_iff in H as [Hc H].
  rewrite Hc. cbn [negb]. rewrite (IH H). reflexivity.
Qed.

(** X2.  Sanitizing is idempotent: a sanitized name is left as it is. *)
Theorem X2_clean_id_idempotent (id : string) :
  _clean_id (_clean_id id) = _clean_id id.
Proof.
  unfold _clean_id at 1.
  rewrite re_sub_of_word.
  - unfold _clean_id, strip_chars. apply strip_with_idem.
  - unfold _clean_id, strip_chars, strip_with.
    apply rstrip_keeps, lstrip_keeps, re_sub_word.
Qed.

Lemma re_sub_underscores (s : string) :
  forall b,
    forallb (fun c => Ascii.eqb c "_")
      (list_ascii_of_string (re_sub_plus (fun c => negb (isword c)) "_" b s))
    = forallb (fun c => negb (isalnum c)) (list_ascii_of_string s).
Proof.
  induction s as [| c s IH]; intros b; cbn [re_sub_plus]; [reflexivity |].
  cbn [list_ascii_of_string forallb]. unfold isalnum at 1.
  destruct (isword c) eqn:E; cbn [negb andb].
  - cbn [list_ascii_of_string forallb]. rewrite IH.
    destruct (Ascii.eqb c "_"); reflexivity.
  - destruct b; [apply IH |].
    cbn [append list_ascii_of_string forallb]. rewrite IH. reflexivity.
Qed.

Lemma clean_id_empty (id : string) :
  _clean_id id = ""
  <-> forallb (fun c => negb (isalnum c)) (list_ascii_of_string id) = true.
Proof.
  unfold _clean_id, strip_chars. rewrite strip_with_empty.
  rewrite <- (re_sub_underscores id false).
  assert (E : forall l : list ascii,
             forallb (fun c => existsb (Ascii.eqb c) (list_ascii_of_string "_")) l
             = forallb (fun c => Ascii.eqb c "_") l).
  { induction l as [| c l IH]; [reflexivity |].
    cbn [forallb]. rewrite IH.
    cbn [list_ascii_of_string existsb]. rewrite orb_false_r. reflexivity. }
  rewrite E. reflexivity.
Qed.

(** X3.  The sanitized name is empty exactly when the id has no letter and
    no digit. *)
Theorem X3_clean_id_empty_iff (id : string) :
  _clean_id id = ""
  <-> forallb (fun c => negb (isalnum c)) (list_ascii_of_string id) = true.
Proof. apply clean_id_empty. Qed.

(* ================================================================== *)
(** ** G-code lines *)

Lemma split_ws_nil (s : string) : split_ws s = [] <-> blank s = true.
Proof.
  unfold blank.
  induction s as [| c s IH]; cbn [split_ws list_ascii_of_string forallb].
  - split; reflexivity.
  - destruct (isspace c); cbn [andb]; [exact IH |].
    split; [| discriminate].
    destruct s as [| c' s']; [discriminate |].
    destruct (isspace c'); [discriminate |].
    destruct (split_ws (String c' s')); discriminate.
Qed.

Lemma strip_blank (line : string) : strip line = "" <-> blank line = true.
Proof. apply strip_with_empty. Qed.

Lemma split_ws_strip_nil (line : string) :
  split_ws (strip line) = [] <-> blank line = true.
Proof.
  rewrite split_ws_nil, <- !strip_blank.
  unfold strip. rewrite strip_with_idem. reflexivity.
Qed.

(** X4.  [parse_gcode] fails exactly on a line of whitespace only, with a
    ValueError (there is no command to unpack); on every other line it
    returns a command and its parameters. *)
Theorem X4_parse_gcode_blank_line (line : string) :
  (parse_gcode line = inl ValueError <-> blank line = true)
  /\ ((exists command params, parse_gcode line = inr (command, params))
      <-> blank line = false).
Proof.
  pose proof (split_ws_strip_nil line) as Hb. unfold parse_gcode.
  destruct (split_ws (strip line)) as [| command params].
  - assert (E : blank line = true) by (apply Hb; reflexivity).
    rewrite E. split; split; try reflexivity; try discriminate.
    intros (c & p & H). discriminate H.
  - assert (E : blank line = false).
    { destruct (blank line); [| reflexivity].
      assert (H : command :: params = []) by (apply Hb; reflexivity).
      discriminate H. }
    rewrite E. split; split; try discriminate; try reflexivity.
    intros _. eauto.
Qed.

Lemma params_fold (tokens : list string) :
  forall (d : list (string * string)) (key : string),
    dict_get key
      (fold_left (fun d p =>
                    match p with
                    | String c r => dict_set (upper_char c) r d
                    | "" => d
                    end) tokens d)
    = match last_param key tokens with
      | Some v => Some v
      | None => dict_get key d
      end.
Proof.
  induction tokens as [| p rest IH]; intros d key;
    cbn [fold_left last_param]; [reflexivity |].
  rewrite IH. destruct (last_param key rest); [reflexivity |].
  destruct p as [| c r]; [reflexivity |].
  rewrite dict_get_set.
  destruct (String.eqb key (upper_char c)); reflexivity.
Qed.

(** X5.  The parameters [parse_gcode] returns are keyed by the
    upper-cased first character of each token after the command; when a
    letter is repeated on the line, the last token wins. *)
Theorem X5_parse_gcode_last_parameter_wins (line command : string)
  (params : list (string * string)) :
  parse_gcode line = inr (command, params) ->
  exists tokens,
    split_ws (strip line) = command :: tokens
    /\ forall key, dict_get key params = last_param key tokens.
Proof.
  unfold parse_gcode.
  destruct (split_ws (strip line)) as [| c tokens]; [discriminate |].
  intros H. injection H as -> <-.
  exists tokens. split; [reflexivity |].
  intros key. rewrite params_fold.
  destruct (last_param key tokens); reflexivity.
Qed.

Lemma X5_witness :
  parse_gcode (ln "G1 X1 y2 X3 E1")
  = inr ("G1", [("X", "3"); ("Y", "2"); ("E", "1")])
  /\ exists tokens,
       split_ws (strip (ln "G1 X1 y2 X3 E1")) = "G1" :: tokens
       /\ forall key,
            dict_get key [("X", "3"); ("Y", "2"); ("E", "1")]
            = last_param key tokens.
Proof.
  assert (H : parse_gcode (ln "G1 X1 y2 X3 E1")
              = inr ("G1", [("X", "3"); ("Y", "2"); ("E", "1")]))
    by reflexivity.
  split; [exact H |].
  exact (X5_parse_gcode_last_parameter_wins
           (ln "G1 X1 y2 X3 E1") "G1" [("X", "3"); ("Y", "2"); ("E", "1")] H).
Defined.

Section GcodePoint.
Context {F : FloatOps}.

Lemma gcode_line_parses (line : string) :
  startswith (lower (strip line)) "g" = true ->
  exists command params, parse_gcode line = inr (command, params).
Proof.
  intros H. unfold parse_gcode.
  destruct (split_ws (strip line)) as [| command params] eqn:E; [| eauto].
  apply split_ws_strip_nil, strip_blank in E. rewrite E in H. discriminate H.
Qed.

Lemma gcode_point_failure (line : string) (e : exn) :
  gcode_point line = inl e ->
  e = ValueError
  /\ startswith (lower (strip line)) "g" = true
  /\ exists command params xs ys,
       parse_gcode line = inr (command, params)
       /\ dict_mem "E" params = true
       /\ dict_get "X" params = Some xs
       /\ dict_get "Y" params = Some ys
       /\ (float_of_string xs = None \/ float_of_string ys = None).
Proof.
  unfold gcode_point.
  destruct (startswith (lower (strip line)) "g") eqn:Hg; [| discriminate].
  destruct (gcode_line_parses line Hg) as (command & params & Hp).
  rewrite Hp. cbn [bind].
  destruct (dict_mem "E" params) eqn:HE; cbn [andb]; [| discriminate].
  destruct (dict_mem "X" params) eqn:HX; cbn [andb]; [| discriminate].
  destruct (dict_mem "Y" params) eqn:HY; [| discriminate].
  unfold dict_mem in HX, HY.
  destruct (dict_get "X" params) as [xs |] eqn:EX; [| discriminate HX].
  destruct (dict_get "Y" params) as [ys |] eqn:EY; [| discriminate HY].
  destruct (float_of_string xs) as [x |] eqn:Hx.
  - destruct (float_of_string ys) as [y |] eqn:Hy; [discriminate |].
    intros H. injection H as <-. split; [reflexivity |].
    split; [reflexivity |].
    exists command, params, xs, ys. auto 10.
  - intros H. injection H as <-. split; [reflexivity |].
    split; [reflexivity |].
    exists command, params, xs, ys. auto 10.
Qed.

End GcodePoint.

(** X6.  Reading the point of a line fails only with a ValueError, and
    only on a G command that has E, X and Y parameters of which the X or
    the Y value is not a float literal; on any other line no exception is
    raised. *)
Theorem X6_gcode_point_fails_on_bad_coordinate (F : FloatOps)
  (line : string) (e : exn) :
  gcode_point line = inl e ->
  e = ValueError
  /\ startswith (lower (strip line)) "g" = true
  /\ exists command params xs ys,
       parse_gcode line = inr (command, params)
       /\ dict_mem "E" params = true
       /\ dict_get "X" params = Some xs
       /\ dict_get "Y" params = Some ys
       /\ (float_of_string xs = None \/ float_of_string ys = None).
Proof. apply gcode_point_failure. Qed.

Lemma X6_witness :
  gcode_point (F := python_floats) (ln "G1 Xa Y1 E1") = inl ValueError
  /\ (ValueError = ValueError
      /\ startswith (lower (strip (ln "G1 Xa Y1 E1"))) "g" = true
      /\ exists command params xs ys,
           parse_gcode (ln "G1 Xa Y1 E1") = inr (command, params)
           /\ dict_mem "E" params = true
           /\ dict_get "X" params = Some xs
           /\ dict_get "Y" params = Some ys
           /\ (float_of_string (FloatOps := python_floats) xs = None
               \/ float_of_string (FloatOps := python_floats) ys = None)).
Proof.
  assert (H : gcode_point (F := python_floats) (ln "G1 Xa Y1 E1")
              = inl ValueError) by reflexivity.
  split; [exact H |].
  exact (X6_gcode_point_fails_on_bad_coordinate python_floats
           (ln "G1 Xa Y1 E1") ValueError H).
Defined.

(* ================================================================== *)
(** ** Hulls *)

Section Hulls.
Context {F : FloatOps}.



End Hulls.


(** X8.  The definition of an object whose hull has at least one point
    always carries both fields: the name, a CENTER of two coordinates and a
    POLYGON of four vertices, then the newline. *)
Theorem X8_definition_of_a_tracked_object (F : FloatOps) (name : string)
  (h : HullTracker) :
  points h <> [] ->
  exists cx cy a b c d,
    center h = Some (cx, cy)
    /\ exterior h = Some [a; b; c; d]
    /\ define_object name (center_value h) (exterior h)
       = ( [ ("DEFINE_OBJECT NAME=" ++ name)%string;
             (" CENTER=" ++ float_str cx ++ "," ++ float_str cy)%string;
             (" POLYGON=" ++ dumps_polygon [a; b; c; d])%string;
             nl ],
           inr tt ).
Proof.
  destruct h as [[| p0 rest0]]; cbn [points]; [contradiction |]. intros _.
  unfold center_value, center, exterior. cbn [points].
  pose proof (set_order_perm (p0 :: rest0)) as Hperm.
  destruct (set_order (p0 :: rest0)) as [| p rest];
    [apply Permutation_nil in Hperm; discriminate Hperm |].
  destruct (extent (fst p) (fst p) (snd p) (snd p) rest)
    as [[[min_x max_x] min_y] max_y].
  do 6 eexists. split; [reflexivity |]. split; [reflexivity |].
  reflexivity.
Qed.

Lemma X8_witness :
  points {| points := [pt 1 2] |} <> []
  /\ exists cx cy a b c d,
       center {| points := [pt 1 2] |} = Some (cx, cy)
       /\ exterior {| points := [pt 1 2] |} = Some [a; b; c; d]
       /\ define_object "cube"
            (center_value {| points := [pt 1 2] |})
            (exterior {| points := [pt 1 2] |})
          = ( [ "DEFINE_OBJECT NAME=cube";
                (" CENTER=" ++ float_str cx ++ "," ++ float_str cy)%string;
                (" POLYGON=" ++ dumps_polygon [a; b; c; d])%string;
                nl ],
              inr tt ).
Proof.
  assert (H : points {| points := [pt 1 2] |} <> []) by discriminate.
  split; [exact H |].
  exact (X8_definition_of_a_tracked_object python_floats "cube"
           {| points := [pt 1 2] |} H).
Defined.

(* ================================================================== *)
(** ** Detection of the dialect *)

Lemma markers_exclusive (s m1 m2 : string) :
  In m1 dialect_markers -> In m2 dialect_markers ->
  startswith s m1 = true -> startswith s m2 = true -> m1 = m2.
Proof.
  intros H1 H2 E1 E2.
  apply startswith_inv in E1 as [t ->].
  cbn [dialect_markers In] in H1, H2.
  destruct H1 as [<- | [<- | [<- | [<- | [<- | []]]]]];
    destruct H2 as [<- | [<- | [<- | [<- | [<- | []]]]]];
    try reflexivity; cbn in E2; discriminate E2.
Qed.

Lemma SLICERS_entry_of_marker (x y : string * (string * processor)) :
  In x SLICERS -> In y SLICERS -> fst (snd x) = fst (snd y) -> x = y.
Proof.
  intros Hx Hy. cbn [SLICERS In] in Hx, Hy.
  destruct Hx as [<- | [<- | [<- | [<- | [<- | []]]]]];
    destruct Hy as [<- | [<- | [<- | [<- | [<- | []]]]]];
    cbn [fst snd]; intros E; try reflexivity; discriminate E.
Qed.

Lemma SLICERS_marker (x : string * (string * processor)) :
  In x SLICERS -> In (fst (snd x)) dialect_markers.
Proof.
  intros H. rewrite <- dialect_markers_of_SLICERS.
  apply (in_map (fun entry : string * (string * processor) =>
                   fst (snd entry))), H.
Qed.

Lemma find_unique {A : Type} (f : A -> bool) (l : list A) (x : A) :
  In x l -> f x = true ->
  (forall y, In y l -> f y = true -> y = x) ->
  find f l = Some x.
Proof.
  induction l as [| a l IH]; intros Hin Hf Hu; [destruct Hin |].
  cbn [find]. destruct (f a) eqn:Ea.
  - f_equal. apply Hu; [left; reflexivity | exact Ea].
  - destruct Hin as [-> | Hin]; [rewrite Hf in Ea; discriminate Ea |].
    apply IH; [exact Hin | exact Hf |].
    intros y Hy. apply Hu. right. exact Hy.
Qed.

Lemma identify_spec (line name : string) (p : processor) :
  identify_slicer_marker line = Some (name, p)
  <-> exists marker,
        In (name, (marker, p)) SLICERS
        /\ startswith (strip line) marker = true.
Proof.
  unfold identify_slicer_marker. split.
  - destruct (find _ SLICERS) as [[n [m q]] |] eqn:E; [| discriminate].
    intros H. injection H as -> ->.
    apply find_some in E as [Hin Hs]. exists m. auto.
  - intros (marker & Hin & Hs).
    rewrite (find_unique _ SLICERS (name, (marker, p)) Hin Hs);
      [reflexivity |].
    intros y Hy Hys. apply SLICERS_entry_of_marker; [exact Hy | exact Hin |].
    apply (markers_exclusive (strip line));
      [apply SLICERS_marker, Hy | apply (SLICERS_marker _ Hin) | exact Hys
      | exact Hs].
Qed.

(** X9.  A line is identified with a dialect exactly when, once stripped,
    it starts with the marker of that dialect in [SLICERS]: no line starts
    with the markers of two entries, so the answer does not depend on the
    order of the table. *)
Theorem X9_identify_slicer_marker_spec (line name : string) (p : processor) :
  identify_slicer_marker line = Some (name, p)
  <-> exists marker,
        In (name, (marker, p)) SLICERS
        /\ startswith (strip line) marker = true.
Proof. apply identify_spec. Qed.

Lemma identified_not_blank (line : string) (r : string * processor) :
  identify_slicer_marker line = Some r ->
  String.eqb (strip line) "" = false.
Proof.
  destruct r as [name p]. intros H.
  apply identify_spec in H as (marker & Hin & Hs).
  destruct (strip line) as [| c s]; [| reflexivity].
  apply SLICERS_marker in Hin. cbn [fst snd dialect_markers In] in Hin.
  destruct Hin as [<- | [<- | [<- | [<- | [<- | []]]]]]; discriminate Hs.
Qed.

(** X10.  The detection loop identifies a dialect exactly when the first
    line it does not pass over (blank lines and comments without marker
    are passed over) starts with a semicolon and carries the marker of
    that dialect. *)
Theorem X10_detect_first_marker_line (lines : list string) (name : string)
  (p : processor) :
  detect lines = Identified name p
  <-> exists pre line post,
        lines = pre ++ line :: post
        /\ forallb passed_over pre = true
        /\ startswith line ";" = true
        /\ identify_slicer_marker line = Some (name, p).
Proof.
  split.
  - induction lines as [| l rest IH]; cbn [detect]; [discriminate |].
    destruct (String.eqb (strip l) "") eqn:Eb.
    + intros H. destruct (IH H) as (pre & line & post & -> & Hp & Hs & Hi).
      exists (l :: pre), line, post. cbn [forallb]. unfold passed_over at 1.
      rewrite Eb, Hp. auto.
    + destruct (startswith l ";") eqn:Ec; cbn [negb]; [| discriminate].
      destruct (identify_slicer_marker l) as [[n q] |] eqn:Ei.
      * intros H. injection H as -> ->.
        exists [], l, rest. auto.
      * intros H. destruct (IH H) as (pre & line & post & -> & Hp & Hs & Hi).
        exists (l :: pre), line, post. cbn [forallb]. unfold passed_over at 1.
        rewrite Eb, Ec, Ei, Hp. auto.
  - intros (pre & line & post & -> & Hp & Hs & Hi).
    induction pre as [| l pre IH]; cbn [app detect].
    + rewrite (identified_not_blank line (name, p) Hi), Hs, Hi. reflexivity.
    + cbn [forallb] in Hp. apply andb_true_iff in Hp as [Hl Hp].
      specialize (IH Hp). unfold passed_over in Hl.
      destruct (String.eqb (strip l) ""); [exact IH |].
      cbn [orb] in Hl. apply andb_true_iff in Hl as [Hc Hn].
      rewrite Hc. cbn [negb].
      destruct (identify_slicer_marker l) as [[n q] |]; [discriminate Hn |].
      exact IH.
Qed.

(* ================================================================== *)
(** ** The registry of PrusaSlicer and Slic3r files *)

Lemma dict_mem_keys {V : Type} (k : string) (d : list (string * V)) :
  dict_mem k d = existsb (String.eqb k) (map fst d).
Proof.
  unfold dict_mem.
  induction d as [| [k' v] d IH]; cbn [dict_get map fst existsb];
    [reflexivity |].
  destruct (String.eqb k k'); [reflexivity | exact IH].
Qed.

Lemma dict_mem_In {V : Type} (k : string) (d : list (string * V)) :
  dict_mem k d = true <-> In k (map fst d).
Proof.
  rewrite dict_mem_keys, existsb_exists. split.
  - intros (x & Hx & E). apply String.eqb_eq in E. subst x. exact Hx.
  - intros H. exists k. split; [exact H | apply String.eqb_refl].
Qed.

Lemma dict_set_new_key {V : Type} (k : string) (v : V)
  (d : list (string * V)) :
  dict_mem k d = false -> map fst (dict_set k v d) = map fst d ++ [k].
Proof.
  unfold dict_mem.
  induction d as [| [k' v'] d IH]; cbn [dict_get dict_set map fst app];
    [reflexivity |].
  destruct (String.eqb k k'); [discriminate |].
  intros H. cbn [map fst]. rewrite (IH H). reflexivity.
Qed.

Lemma add_key_keeps (keys : list string) (k x : string) :
  In x keys -> In x (add_key keys k).
Proof.
  intros H. unfold add_key. destruct (existsb (String.eqb k) keys);
    [exact H | apply in_or_app; left; exact H].
Qed.

Lemma add_key_has (keys : list string) (k : string) : In k (add_key keys k).
Proof.
  unfold add_key. destruct (existsb (String.eqb k) keys) eqn:E.
  - apply existsb_exists in E as (x & Hx & E).
    apply String.eqb_eq in E. subst x. exact Hx.
  - apply in_or_app. right. left. reflexivity.
Qed.

Lemma add_keys_keep (ids : list string) :
  forall keys x, In x keys -> In x (fold_left add_key ids keys).
Proof.
  induction ids as [| k ids IH]; intros keys x H; cbn [fold_left];
    [exact H |].
  apply IH, add_key_keeps, H.
Qed.

Lemma add_keys_have (ids : list string) :
  forall keys x, In x ids -> In x (fold_left add_key ids keys).
Proof.
  induction ids as [| k ids IH]; intros keys x H; cbn [fold_left];
    [destruct H |].
  destruct H as [-> | H]; [apply add_keys_keep, add_key_has | apply IH, H].
Qed.

Section SlicerRegistry.
Context {F : FloatOps}.

Lemma register_keys (id source : string) (known : registry) :
  map fst (register id source known) = add_key (map fst known) id.
Proof.
  unfold register, add_key. rewrite <- dict_mem_keys.
  destruct (dict_mem id known) eqn:E; [reflexivity |].
  apply dict_set_new_key, E.
Qed.

Lemma register_names_clean (id : string) (known : registry) :
  names_clean known -> names_clean (register id id known).
Proof.
  intros H k o. unfold register.
  destruct (dict_mem id known); [apply H |].
  rewrite dict_get_set. destruct (String.eqb k id) eqn:E; [| apply H].
  apply String.eqb_eq in E. subst k.
  intros Ho. injection Ho as <-. reflexivity.
Qed.

Lemma add_point_to_keys (id : string) (p : Point) (known : registry) :
  map fst (add_point_to id p known) = map fst known.
Proof.
  unfold add_point_to. rewrite map_map. apply map_ext.
  intros [k o]. destruct (String.eqb k id); reflexivity.
Qed.

Lemma add_point_to_names_clean (id : string) (p : Point) (known : registry) :
  names_clean known -> names_clean (add_point_to id p known).
Proof.
  intros H k o. rewrite dict_get_add_point_to.
  destruct (dict_get k known) as [o' |] eqn:E; [| discriminate].
  intros Ho. injection Ho as <-. specialize (H k o' E).
  destruct (String.eqb k id); exact H.
Qed.

Lemma track_registry (known known' : registry) (cur : option string)
  (line : string) :
  track known cur line = inr known' ->
  map fst known' = map fst known
  /\ (names_clean known -> names_clean known').
Proof.
  unfold track. destruct cur as [id |].
  - destruct (gcode_point line) as [e | [p |]]; cbn [bind ret];
      [discriminate | |]; intros H; injection H as <-.
    + split; [apply add_point_to_keys | apply add_point_to_names_clean].
    + auto.
  - intros H. injection H as <-. auto.
Qed.

Lemma track_failure (known : registry) (cur : option string)
  (line : string) (e : exn) :
  track known cur line = inl e -> gcode_point line = inl e.
Proof.
  unfold track. destruct cur as [id |]; [| discriminate].
  destruct (gcode_point line) as [e' | [p |]]; cbn [bind ret];
    [| discriminate | discriminate].
  intros H. injection H as ->. reflexivity.
Qed.

Lemma slicer_scan_line_registry (known known' : registry)
  (cur cur' : option string) (line : string) :
  slicer_scan_line (known, cur) line = inr (known', cur') ->
  map fst known'
  = fold_left add_key (printing_ids [line]) (map fst known)
  /\ (names_clean known -> names_clean known').
Proof.
  unfold slicer_scan_line, printing_ids, printing_object_id.
  cbn [flat_map]. rewrite app_nil_r.
  destruct (startswith line "; printing object ").
  - destruct (track _ _ line) as [e | k] eqn:Et; cbn [bind ret];
      [discriminate |].
    intros H. injection H as <- <-.
    apply track_registry in Et as [Ek Hn]. rewrite Ek, register_keys.
    split; [reflexivity |].
    intros Hc. apply Hn, register_names_clean, Hc.
  - destruct (track known cur line) as [e | k] eqn:Et; cbn [bind ret];
      [discriminate |].
    intros H. injection H as <- <-.
    apply track_registry in Et as [Ek Hn]. rewrite Ek. auto.
Qed.

Lemma slicer_scan_lines_registry (lines : list string) :
  forall (known known' : registry) (cur cur' : option string),
    for_lines_res slicer_scan_line (known, cur) lines = inr (known', cur') ->
    map fst known' = fold_left add_key (printing_ids lines) (map fst known)
    /\ (names_clean known -> names_clean known').
Proof.
  induction lines as [| line rest IH]; intros known known' cur cur';
    cbn [for_lines_res].
  - intros H. injection H as <- <-. auto.
  - destruct (slicer_scan_line (known, cur) line) as [e | [k1 c1]] eqn:E1;
      cbn [bind]; [discriminate |].
    intros H. apply IH in H as [Ek Hn].
    apply slicer_scan_line_registry in E1 as [Ek1 Hn1].
    split; [| auto].
    rewrite Ek, Ek1. unfold printing_ids. cbn [flat_map].
    rewrite app_nil_r, fold_left_app. reflexivity.
Qed.

Lemma slicer_scan_registry (infile : list string) (known : registry) :
  slicer_scan infile = inr known ->
  map fst known = first_occurrences (printing_ids infile)
  /\ names_clean known.
Proof.
  unfold slicer_scan.
  destruct (for_lines_res slicer_scan_line ([], None) infile)
    as [e | [k c]] eqn:E; cbn [bind ret fst]; [discriminate |].
  intros H. injection H as <-.
  apply slicer_scan_lines_registry in E as [Ek Hn].
  split; [exact Ek |]. apply Hn. intros k' o H. discriminate H.
Qed.

Lemma slicer_scan_lines_failure (lines : list string) :
  forall (st : registry * option string) (e : exn),
    for_lines_res slicer_scan_line st lines = inl e ->
    exists line, In line lines /\ gcode_point line = inl e.
Proof.
  induction lines as [| line rest IH]; intros st e; cbn [for_lines_res];
    [discriminate |].
  destruct (slicer_scan_line st line) as [e1 | st1] eqn:E1; cbn [bind].
  - intros H. injection H as ->. exists line. split; [left; reflexivity |].
    destruct st as [known cur]. unfold slicer_scan_line in E1.
    destruct (startswith line "; printing object ").
    + destruct (track _ _ line) as [e' | k] eqn:Et; cbn [bind ret] in E1;
        [| discriminate].
      injection E1 as ->. apply track_failure in Et. exact Et.
    + destruct (track known cur line) as [e' | k] eqn:Et;
        cbn [bind ret] in E1; [| discriminate].
      injection E1 as ->. apply track_failure in Et. exact Et.
  - intros H. apply IH in H as (l & Hl & Hg). exists l. split; [right |];
      assumption.
Qed.

End SlicerRegistry.

(** X11.  When the scan pass of PrusaSlicer and Slic3r ends normally, the
    registry holds the ids of the [; printing object] lines, each once, in
    the order of their first occurrence, and every object is named by the
    sanitized form of its id. *)
Theorem X11_slicer_registry (F : FloatOps) (infile : list string)
  (known : registry) :
  slicer_scan infile = inr known ->
  map fst known = first_occurrences (printing_ids infile)
  /\ forall k o, dict_get k known = Some o -> name o = _clean_id k.
Proof. apply slicer_scan_registry. Qed.

Lemma X11_witness :
  slicer_scan (F := python_floats) prusa_after_stop
  = inr prusa_after_stop_known
  /\ (map fst prusa_after_stop_known
      = first_occurrences (printing_ids prusa_after_stop)
      /\ forall k o, dict_get k prusa_after_stop_known = Some o ->
                     name o = _clean_id k).
Proof.
  assert (H : slicer_scan (F := python_floats) prusa_after_stop
              = inr prusa_after_stop_known) by reflexivity.
  split; [exact H |].
  exact (X11_slicer_registry python_floats prusa_after_stop
           prusa_after_stop_known H).
Defined.

(* ================================================================== *)
(** ** The emission pass of PrusaSlicer and Slic3r *)

Section SlicerEmission.
Context {F : FloatOps}.

Lemma stop_line_only (line : string) :
  startswith line "; stop printing object " = true ->
  startswith line "; generated by" = false
  /\ startswith line "; printing object " = false.
Proof.
  intros H. apply startswith_inv in H as [t ->]. split; reflexivity.
Qed.

Lemma lookup_registered (known : registry) (id : string) :
  names_clean known ->
  dict_mem id known = true ->
  exists o, lookup id known = pure o /\ name o = _clean_id id.
Proof.
  intros Hn Hm. unfold lookup, dict_mem in *.
  destruct (dict_get id known) as [o |] eqn:E; [| discriminate Hm].
  exists o. split; [reflexivity | apply Hn, E].
Qed.

Lemma header_yields (n : Z) : header n = (header_chunks n, inr tt).
Proof. reflexivity. Qed.

Lemma slicer_emit_line_ok (known : registry) (line : string) :
  names_clean known ->
  (forall id, printing_object_id line = Some id ->
              dict_mem id known = true) ->
  (forall id, stop_object_id line = Some id -> dict_mem id known = true) ->
  slicer_emit_line known tt line = (slicer_annotation known line, inr tt).
Proof.
  intros Hn Hstart Hstop.
  unfold slicer_emit_line, slicer_annotation, printing_object_id,
    stop_object_id in *.
  rewrite define_all_chunks.
  destruct (startswith line "; printing object ");
    [destruct (lookup_registered known _ Hn (Hstart _ eq_refl))
       as (o & Hl & Ho) |];
    (destruct (startswith line "; stop printing object ");
     [destruct (lookup_registered known _ Hn (Hstop _ eq_refl))
        as (o' & Hl' & Ho') |]);
    rewrite ?Hl, ?Hl';
    (destruct (startswith line "; generated by");
     [rewrite header_yields |]);
    emit_simpl; rewrite ?Ho, ?Ho', ?app_nil_r, <- ?app_assoc;
    reflexivity.
Qed.

Lemma slicer_emit_line_unknown_stop (known : registry) (line id : string) :
  stop_object_id line = Some id ->
  dict_mem id known = false ->
  slicer_emit_line known tt line = ([line], inl KeyError).
Proof.
  unfold stop_object_id.
  destruct (startswith line "; stop printing object ") eqn:Es;
    [| discriminate].
  intros H. injection H as <-. intros Hm.
  destruct (stop_line_only line Es) as [Eb Ep].
  unfold slicer_emit_line. rewrite Es, Eb, Ep.
  unfold lookup, dict_mem in *.
  destruct (dict_get _ known); [discriminate Hm | reflexivity].
Qed.

Lemma slicer_emit_lines_ok (known : registry) (lines : list string) :
  names_clean known ->
  (forall id, In id (printing_ids lines) -> dict_mem id known = true) ->
  (forall line id, In line lines -> stop_object_id line = Some id ->
                   dict_mem id known = true) ->
  for_lines (slicer_emit_line known) tt lines
  = (flat_map (slicer_annotation known) lines, inr tt).
Proof.
  intros Hn. induction lines as [| line rest IH]; intros Hstart Hstop;
    cbn [for_lines flat_map]; [reflexivity |].
  rewrite slicer_emit_line_ok; [| exact Hn | |].
  - cbn [ebind]. rewrite IH; [reflexivity | |].
    + intros id Hid. apply Hstart. unfold printing_ids. cbn [flat_map].
      apply in_or_app. right. exact Hid.
    + intros l id Hl. apply Hstop. right. exact Hl.
  - intros id Hid. apply Hstart. unfold printing_ids. cbn [flat_map].
    rewrite Hid. left. reflexivity.
  - intros id. apply Hstop. left. reflexivity.
Qed.

Lemma slicer_scan_registers (infile : list string) (known : registry)
  (id : string) :
  slicer_scan infile = inr known ->
  In id (printing_ids infile) -> dict_mem id known = true.
Proof.
  intros Hs Hid. apply slicer_scan_registry in Hs as [Ek _].
  apply dict_mem_In. rewrite Ek. apply add_keys_have, Hid.
Qed.

Lemma printing_ids_app (pre post : list string) :
  printing_ids (pre ++ post) = printing_ids pre ++ printing_ids post.
Proof. unfold printing_ids. apply flat_map_app. Qed.

Lemma slicer_output (infile : list string) (known : registry) :
  slicer_scan infile = inr known ->
  (forall line id, In line infile -> stop_object_id line = Some id ->
                   dict_mem id known = true) ->
  preprocess_slicer infile
  = (flat_map (slicer_annotation known) infile, inr tt).
Proof.
  intros Hs Hstop. unfold preprocess_slicer. rewrite Hs.
  change (lift (inr known)) with (pure known). rewrite ebind_pure_l.
  apply slicer_emit_lines_ok.
  - apply (slicer_scan_registry infile known Hs).
  - intros id. apply (slicer_scan_registers infile known id Hs).
  - exact Hstop.
Qed.

(** The first line that stops an object the scan pass has not
    registered ends the emission pass. *)
Lemma slicer_output_unknown_stop (pre post : list string) (line id : string)
  (known : registry) :
  slicer_scan (pre ++ line :: post) = inr known ->
  (forall l i, In l pre -> stop_object_id l = Some i ->
               dict_mem i known = true) ->
  stop_object_id line = Some id ->
  dict_mem id known = false ->
  preprocess_slicer (pre ++ line :: post)
  = (flat_map (slicer_annotation known) pre ++ [line], inl KeyError).
Proof.
  intros Hs Hpre Hline Hid. unfold preprocess_slicer. rewrite Hs.
  change (lift (inr known)) with (pure known). rewrite ebind_pure_l.
  rewrite for_lines_app, slicer_emit_lines_ok.
  - cbn [ebind for_lines].
    rewrite (slicer_emit_line_unknown_stop known line id Hline Hid).
    reflexivity.
  - apply (slicer_scan_registry _ known Hs).
  - intros i Hi. apply (slicer_scan_registers _ known i Hs).
    rewrite printing_ids_app. apply in_or_app. left. exact Hi.
  - exact Hpre.
Qed.

Lemma first_unknown_stop (known : registry) (lines : list string) :
  (forall line id, In line lines -> stop_object_id line = Some id ->
                   dict_mem id known = true)
  \/ exists pre line post id,
       lines = pre ++ line :: post
       /\ (forall l i, In l pre -> stop_object_id l = Some i ->
                       dict_mem i known = true)
       /\ stop_object_id line = Some id
       /\ dict_mem id known = false.
Proof.
  induction lines as [| line rest IH].
  - left. intros line id [].
  - destruct (stop_object_id line) as [id |] eqn:Es.
    + destruct (dict_mem id known) eqn:Em.
      * destruct IH as [IH | (pre & l & post & i & -> & Hpre & Hl & Hi)].
        -- left. intros l i [<- | Hl] Hi; [| apply (IH l i Hl Hi)].
           rewrite Es in Hi. injection Hi as <-. exact Em.
        -- right. exists (line :: pre), l, post, i.
           split; [reflexivity |]. split; [| auto].
           intros l' i' [<- | Hl'] Hi'; [| apply (Hpre l' i' Hl' Hi')].
           rewrite Es in Hi'. injection Hi' as <-. exact Em.
      * right. exists [], line, rest, id. split; [reflexivity |].
        split; [intros l i [] | auto].
    + destruct IH as [IH | (pre & l & post & i & -> & Hpre & Hl & Hi)].
      * left. intros l i [<- | Hl] Hi; [| apply (IH l i Hl Hi)].
        rewrite Es in Hi. discriminate Hi.
      * right. exists (line :: pre), l, post, i.
        split; [reflexivity |]. split; [| auto].
        intros l' i' [<- | Hl'] Hi'; [| apply (Hpre l' i' Hl' Hi')].
        rewrite Es in Hi'. discriminate Hi'.
Qed.

End SlicerEmission.

(** X12.  When the scan pass ends normally and every
    [; stop printing object] line names a registered object, the
    PrusaSlicer/Slic3r processor ends normally and writes every line of the
    file, each followed by its annotation: the header and all definitions
    after a [; generated by] line, START_CURRENT_OBJECT after a
    [; printing object] line and END_CURRENT_OBJECT after a
    [; stop printing object] line, with the sanitized id of that line. *)
Theorem X12_slicer_output_line_by_line (F : FloatOps)
  (infile : list string) (known : registry) :
  slicer_scan infile = inr known ->
  (forall line id, In line infile -> stop_object_id line = Some id ->
                   dict_mem id known = true) ->
  preprocess_slicer infile
  = (flat_map (slicer_annotation known) infile, inr tt).
Proof. apply slicer_output. Qed.

Lemma prusa_two_objects_scan :
  slicer_scan (F := python_floats) prusa_two_objects
  = inr prusa_two_objects_known.
Proof. reflexivity. Defined.

Lemma prusa_two_objects_stops (line id : string) :
  In line prusa_two_objects -> stop_object_id line = Some id ->
  dict_mem id prusa_two_objects_known = true.
Proof.
  intros Hl. repeat (destruct Hl as [<- | Hl]); try destruct Hl;
    intros H; try discriminate H; injection H as <-; reflexivity.
Defined.

Lemma X12_witness :
  slicer_scan (F := python_floats) prusa_two_objects
  = inr prusa_two_objects_known
  /\ (forall line id, In line prusa_two_objects ->
                      stop_object_id line = Some id ->
                      dict_mem id prusa_two_objects_known = true)
  /\ preprocess_slicer prusa_two_objects
     = (flat_map (slicer_annotation prusa_two_objects_known)
          prusa_two_objects, inr tt).
Proof.
  split; [exact prusa_two_objects_scan |].
  split; [exact prusa_two_objects_stops |].
  exact (X12_slicer_output_line_by_line python_floats prusa_two_objects
           prusa_two_objects_known prusa_two_objects_scan
           prusa_two_objects_stops).
Defined.

(** X13.  The PrusaSlicer/Slic3r processor fails in two ways only.  With a
    ValueError, before anything is written, when the scan pass meets a G
    command whose X or Y value is not a float literal.  With a KeyError,
    when the emission pass reaches a [; stop printing object] line whose
    id no [; printing object] line has registered: the lines before it
    are written with their annotations, then that line, and nothing
    else. *)
Theorem X13_slicer_failure_modes (F : FloatOps) (infile out : list string)
  (e : exn) :
  preprocess_slicer infile = (out, inl e) ->
  (e = ValueError /\ out = []
   /\ exists line, In line infile /\ gcode_point line = inl ValueError)
  \/ (e = KeyError
      /\ exists known pre line post id,
           slicer_scan infile = inr known
           /\ infile = pre ++ line :: post
           /\ stop_object_id line = Some id
           /\ dict_mem id known = false
           /\ out = flat_map (slicer_annotation known) pre ++ [line]).
Proof.
  destruct (slicer_scan infile) as [e' | known] eqn:Hs.
  - unfold preprocess_slicer. rewrite Hs. cbn. intros H.
    injection H as <- <-. left.
    unfold slicer_scan in Hs.
    destruct (for_lines_res slicer_scan_line ([], None) infile)
      as [e1 | st] eqn:E1; cbn [bind] in Hs; [| discriminate].
    injection Hs as ->.
    apply slicer_scan_lines_failure in E1 as (line & Hl & Hg).
    pose proof (gcode_point_failure line e' Hg) as [-> _].
    split; [reflexivity |]. split; [reflexivity |]. eauto.
  - destruct (first_unknown_stop known infile)
      as [Hok | (pre & line & post & id & -> & Hpre & Hl & Hid)].
    + rewrite (slicer_output infile known Hs Hok). discriminate.
    + rewrite (slicer_output_unknown_stop pre post line id known
                 Hs Hpre Hl Hid).
      intros H. injection H as <- <-. right.
      split; [reflexivity |].
      exists known, pre, line, post, id. auto 10.
Qed.

Lemma X13_witness :
  preprocess_slicer (F := python_floats) prusa_unknown_stop
  = ([ln "; generated by PrusaSlicer"; (nl ++ nl)%string; HEADER_MARKER;
      ln "; 0 known objects"; ln "; stop printing object a"],
     inl KeyError)
  /\ ((KeyError = ValueError
       /\ [ln "; generated by PrusaSlicer"; (nl ++ nl)%string; HEADER_MARKER;
           ln "; 0 known objects"; ln "; stop printing object a"] = []
       /\ exists line,
            In line prusa_unknown_stop
            /\ gcode_point (F := python_floats) line = inl ValueError)
      \/ (KeyError = KeyError
          /\ exists known pre line post id,
               slicer_scan (F := python_floats) prusa_unknown_stop
               = inr known
               /\ prusa_unknown_stop = pre ++ line :: post
               /\ stop_object_id line = Some id
               /\ dict_mem id known = false
               /\ [ln "; generated by PrusaSlicer"; (nl ++ nl)%string;
                   HEADER_MARKER; ln "; 0 known objects";
                   ln "; stop printing object a"]
                  = flat_map (slicer_annotation known) pre ++ [line])).
Proof.
  assert (H : preprocess_slicer (F := python_floats) prusa_unknown_stop
              = ([ln "; generated by PrusaSlicer"; (nl ++ nl)%string;
                  HEADER_MARKER; ln "; 0 known objects";
                  ln "; stop printing object a"],
                 inl KeyError)) by reflexivity.
  split; [exact H |].
  exact (X13_slicer_failure_modes python_floats prusa_unknown_stop _
           KeyError H).
Defined.

(** X14.  The scan pass of PrusaSlicer and Slic3r misses no point: when it
    ends normally, the point of every G command with E, X and Y
    parameters is in the hull of the object named by the last
    [; printing object] line read before it, itself or as an equal point
    added earlier. *)
Theorem X14_slicer_scan_records_every_point (F : FloatOps)
  (lines : list string) (known : registry) (j : nat) (line id : string)
  (p : Point) :
  slicer_scan lines = inr known ->
  nth_error lines j = Some line ->
  gcode_point line = inr (Some p) ->
  printing_at None lines j = Some id ->
  recorded p (hull_points id known).
Proof. apply slicer_scan_complete. Qed.

Lemma X14_witness :
  slicer_scan prusa_after_stop = inr prusa_after_stop_known
  /\ nth_error prusa_after_stop 3 = Some (ln "G1 X9 Y9 E1")
  /\ gcode_point (ln "G1 X9 Y9 E1") = inr (Some (pt 9 9))
  /\ printing_at None prusa_after_stop 3 = Some "a"
  /\ recorded (pt 9 9) (hull_points "a" prusa_after_stop_known).
Proof.
  assert (H1 : slicer_scan prusa_after_stop = inr prusa_after_stop_known)
    by reflexivity.
  assert (H2 : nth_error prusa_after_stop 3 = Some (ln "G1 X9 Y9 E1"))
    by reflexivity.
  assert (H3 : gcode_point (ln "G1 X9 Y9 E1") = inr (Some (pt 9 9)))
    by reflexivity.
  assert (H4 : printing_at None prusa_after_stop 3 = Some "a")
    by reflexivity.
  split; [exact H1 |]. split; [exact H2 |]. split; [exact H3 |].
  split; [exact H4 |].
  exact (X14_slicer_scan_records_every_point python_floats prusa_after_stop
           prusa_after_stop_known 3 (ln "G1 X9 Y9 E1") "a" (pt 9 9)
           H1 H2 H3 H4).
Defined.

(** X15.  Processing is idempotent on PrusaSlicer and Slic3r files with
    objects: when such a file is identified, its scan pass registers at
    least one object and the preprocessor succeeds with output O, then
    processing O again succeeds with output O. *)
Theorem X15_slicer_idempotent_with_objects (F : FloatOps)
  (infile out name : string) (known : registry) :
  detect (readlines infile) = Identified name Slicer ->
  slicer_scan (readlines infile) = inr known ->
  known <> [] ->
  succeeds_with infile out ->
  succeeds_with out out.
Proof. apply prusa_with_objects_idempotent. Qed.

Lemma X15_witness :
  detect (readlines prusa_one_object) = Identified "prusaslicer" Slicer
  /\ slicer_scan (readlines prusa_one_object) = inr prusa_one_object_known
  /\ prusa_one_object_known <> []
  /\ succeeds_with (F := python_floats)
       prusa_one_object prusa_one_object_output
  /\ succeeds_with (F := python_floats)
       prusa_one_object_output prusa_one_object_output.
Proof.
  assert (H1 : detect (readlines prusa_one_object)
               = Identified "prusaslicer" Slicer) by reflexivity.
  assert (H2 : slicer_scan (readlines prusa_one_object)
               = inr prusa_one_object_known) by reflexivity.
  assert (H3 : prusa_one_object_known <> []) by discriminate.
  split; [exact H1 |]. split; [exact H2 |]. split; [exact H3 |].
  split; [exact prusa_one_object_succeeds |].
  exact (X15_slicer_idempotent_with_objects python_floats prusa_one_object
           prusa_one_object_output "prusaslicer" prusa_one_object_known
           H1 H2 H3 prusa_one_object_succeeds).
Defined.

(* ================================================================== *)
(** ** Cura files *)

Section CuraRegistry.
Context {F : FloatOps}.

Lemma cura_scan_line_failure (st : cura_scan_state) (line : string)
  (e : exn) :
  cura_scan_line st line = inl e -> gcode_point line = inl e.
Proof.
  unfold cura_scan_line.
  destruct (startswith line ";MESH:").
  - destruct (String.eqb _ "NONMESH"); [discriminate |].
    destruct (track _ _ line) as [e' | k] eqn:Et; cbn [bind ret];
      [| discriminate].
    intros H. injection H as ->. apply (track_failure _ _ _ _ Et).
  - destruct (track _ _ line) as [e' | k] eqn:Et; cbn [bind ret];
      [| discriminate].
    intros H. injection H as ->. apply (track_failure _ _ _ _ Et).
Qed.

Lemma cura_scan_lines_failure (lines : list string) :
  forall (st : cura_scan_state) (e : exn),
    for_lines_res cura_scan_line st lines = inl e ->
    exists line, In line lines /\ gcode_point line = inl e.
Proof.
  induction lines as [| line rest IH]; intros st e; cbn [for_lines_res];
    [discriminate |].
  destruct (cura_scan_line st line) as [e1 | st1] eqn:E1; cbn [bind].
  - intros H. injection H as ->. exists line.
    split; [left; reflexivity | apply (cura_scan_line_failure st line e E1)].
  - intros H. apply IH in H as (l & Hl & Hg). exists l.
    split; [right |]; assumption.
Qed.

(** What a line of the scan pass does to the registry. *)
Lemma cura_scan_line_registry (st st' : cura_scan_state) (line : string) :
  cura_scan_line st line = inr st' ->
  (forall k, dict_mem k (cs_known st')
             = dict_mem k (cs_known st)
               || match mesh_name line with
                  | Some n => negb (String.eqb n "NONMESH") && String.eqb k n
                  | None => false
                  end)
  /\ (names_clean (cs_known st) -> names_clean (cs_known st')).
Proof.
  unfold cura_scan_line, mesh_name.
  destruct (startswith line ";MESH:").
  - destruct (String.eqb _ "NONMESH").
    + intros H. injection H as <-. split; [| auto].
      intros k. cbn [negb andb]. rewrite orb_false_r. reflexivity.
    + destruct (track _ _ line) as [e' | k1] eqn:Et; cbn [bind ret];
        [discriminate |].
      intros H. injection H as <-. cbn [cs_known].
      pose proof (track_keeps _ _ _ _ Et) as (_ & Hm & _).
      apply track_registry in Et as [_ Hn].
      split.
      * intros k. rewrite Hm, dict_mem_register. reflexivity.
      * intros Hc. apply Hn, register_names_clean, Hc.
  - destruct (track _ _ line) as [e' | k1] eqn:Et; cbn [bind ret];
      [discriminate |].
    intros H. injection H as <-. cbn [cs_known].
    pose proof (track_keeps _ _ _ _ Et) as (_ & Hm & _).
    apply track_registry in Et as [_ Hn].
    split; [| exact Hn].
    intros k. rewrite Hm, orb_false_r. reflexivity.
Qed.

Lemma cura_scan_lines_registry (lines : list string) :
  forall st st' : cura_scan_state,
    for_lines_res cura_scan_line st lines = inr st' ->
    (forall k, dict_mem k (cs_known st) = true ->
               dict_mem k (cs_known st') = true)
    /\ (forall line n, In line lines -> mesh_name line = Some n ->
                       String.eqb n "NONMESH" = false ->
                       dict_mem n (cs_known st') = true)
    /\ (forall k, dict_mem k (cs_known st') = true ->
                  dict_mem k (cs_known st) = true
                  \/ exists line, In line lines /\ mesh_name line = Some k)
    /\ (names_clean (cs_known st) -> names_clean (cs_known st')).
Proof.
  induction lines as [| line rest IH]; intros st st'; cbn [for_lines_res].
  - intros H. injection H as <-.
    split; [auto |]. split; [intros l n [] |]. split; auto.
  - destruct (cura_scan_line st line) as [e | st1] eqn:E1; cbn [bind];
      [discriminate |].
    intros H. apply IH in H as (Hmono & Hreg & Hfrom & Hn).
    apply cura_scan_line_registry in E1 as [Hm1 Hn1].
    split; [| split; [| split]].
    + intros k Hk. apply Hmono. rewrite Hm1, Hk. reflexivity.
    + intros l n [<- | Hl] Hmesh Hnon; [| apply (Hreg l n Hl Hmesh Hnon)].
      apply Hmono. rewrite Hm1, Hmesh, Hnon, String.eqb_refl.
      apply orb_true_r.
    + intros k Hk. apply Hfrom in Hk as [Hk | (l & Hl & Hmesh)].
      * rewrite Hm1 in Hk. apply orb_true_iff in Hk as [Hk | Hk];
          [left; exact Hk |].
        right. exists line. split; [left; reflexivity |].
        destruct (mesh_name line) as [n |]; [| discriminate Hk].
        apply andb_true_iff in Hk as [_ Hk].
        apply String.eqb_eq in Hk. subst k. reflexivity.
      * right. exists l. split; [right |]; assumption.
    + auto.
Qed.

Lemma cura_close_total (cur : option string) :
  exists out cur', cura_close cur = (out, inr cur').
Proof.
  destruct cur as [s |]; cbn [cura_close];
    [destruct (String.eqb s "") |]; do 2 eexists; reflexivity.
Qed.

Lemma cura_emit_line_total (known : registry) (last cur : option string)
  (line : string) :
  (forall n, mesh_name line = Some n -> String.eqb n "NONMESH" = false ->
             dict_mem n known = true) ->
  exists out cur', cura_emit_line known last cur line = (out, inr cur').
Proof.
  intros Hreg. unfold cura_emit_line, mesh_name in *.
  assert (Ht : forall c,
             exists out cur',
               match last with
               | Some l => if String.eqb line l then cura_close c
                           else pure c
               | None => pure c
               end = (out, inr cur')).
  { intros c. destruct last as [l |]; [| do 2 eexists; reflexivity].
    destruct (String.eqb line l); [apply cura_close_total | do 2 eexists; reflexivity]. }
  destruct (startswith line ";MESH:").
  - destruct (cura_close_total cur) as (o1 & c1 & ->).
    destruct (String.eqb _ "NONMESH") eqn:En; [do 2 eexists; reflexivity |].
    specialize (Hreg _ eq_refl En).
    unfold lookup, dict_mem in *.
    destruct (dict_get _ known) as [o |]; [| discriminate Hreg].
    rewrite ebind_pure_l. cbn beta.
    destruct (Ht (Some (name o))) as (o2 & c2 & ->).
    do 2 eexists; reflexivity.
  - destruct (Ht cur) as (o2 & c2 & ->). do 2 eexists; reflexivity.
Qed.

Lemma cura_emit_lines_total (known : registry) (last : option string)
  (lines : list string) :
  (forall line n, In line lines -> mesh_name line = Some n ->
                  String.eqb n "NONMESH" = false ->
                  dict_mem n known = true) ->
  forall cur,
    exists out cur',
      for_lines (cura_emit_line known last) cur lines = (out, inr cur').
Proof.
  induction lines as [| line rest IH]; intros Hreg cur; cbn [for_lines].
  - do 2 eexists; reflexivity.
  - destruct (cura_emit_line_total known last cur line) as (o1 & c1 & ->).
    + intros n. apply Hreg. left. reflexivity.
    + destruct (IH (fun l n Hl => Hreg l n (or_intror Hl)) c1)
        as (o2 & c2 & E).
      cbn [ebind]. rewrite E. eauto.
Qed.

Lemma cura_succeeds_after_scan (infile : list string)
  (st : cura_scan_state) :
  cura_scan infile = inr st ->
  exists out, preprocess_cura infile = (out, inr tt).
Proof.
  intros Hs. unfold preprocess_cura. rewrite Hs.
  change (lift (inr st)) with (pure st). rewrite ebind_pure_l.
  pose proof (cura_leading_split infile) as Hsplit.
  destruct (cura_leading infile) as [passed remaining].
  cbn [fst snd] in Hsplit.
  rewrite header_yields, define_all_chunks.
  destruct (cura_emit_lines_total (cs_known st) (cs_last_time_elapsed st)
              remaining) with (cur := @None string) as (o1 & c1 & E).
  - intros line n Hl. unfold cura_scan in Hs.
    apply cura_scan_lines_registry in Hs as (_ & Hreg & _).
    apply Hreg. rewrite <- Hsplit. apply in_or_app. right. exact Hl.
  - rewrite E. destruct (cura_close_total c1) as (o2 & c2 & E2).
    emit_simpl. rewrite E2. eexists; reflexivity.
Qed.

End CuraRegistry.

(** X16.  The Cura processor fails in one way only: with a ValueError,
    before anything is written, when the scan pass meets a G command
    whose X or Y value is not a float literal.  The emission pass never
    fails: every mesh it looks up was registered by the scan pass. *)
Theorem X16_cura_fails_only_in_scan (F : FloatOps)
  (infile out : list string) (e : exn) :
  preprocess_cura infile = (out, inl e) ->
  e = ValueError /\ out = []
  /\ exists line, In line infile /\ gcode_point line = inl ValueError.
Proof.
  destruct (cura_scan infile) as [e' | st] eqn:Hs.
  - unfold preprocess_cura. rewrite Hs. cbn. intros H.
    injection H as <- <-.
    apply cura_scan_lines_failure in Hs as (line & Hl & Hg).
    pose proof (gcode_point_failure line e' Hg) as [-> _]. eauto.
  - destruct (cura_succeeds_after_scan infile st Hs) as [o ->].
    discriminate.
Qed.

Lemma X16_witness :
  preprocess_cura (F := python_floats) cura_bad_coordinate
  = ([], inl ValueError)
  /\ (ValueError = ValueError /\ @nil string = []
      /\ exists line,
           In line cura_bad_coordinate
           /\ gcode_point (F := python_floats) line = inl ValueError).
Proof.
  assert (H : preprocess_cura (F := python_floats) cura_bad_coordinate
              = ([], inl ValueError)) by reflexivity.
  split; [exact H |].
  exact (X16_cura_fails_only_in_scan python_floats cura_bad_coordinate []
           ValueError H).
Defined.

Section CuraBalanced.
Context {F : FloatOps}.

Lemma cura_names_nonempty (infile : list string) (st : cura_scan_state) :
  (forall line n, In line infile -> mesh_name line = Some n ->
                  has_alnum n = true) ->
  cura_scan infile = inr st ->
  names_nonempty (cs_known st).
Proof.
  intros Hal Hs k o Ho. unfold cura_scan in Hs.
  apply cura_scan_lines_registry in Hs as (_ & _ & Hfrom & Hn).
  assert (Hc : names_clean (cs_known st)).
  { apply Hn. intros k' o' H. discriminate H. }
  rewrite (Hc k o Ho). intros He. apply clean_id_empty in He.
  assert (Hm : dict_mem k (cs_known st) = true)
    by (unfold dict_mem; rewrite Ho; reflexivity).
  apply Hfrom in Hm as [Hm | (line & Hl & Hmesh)]; [discriminate Hm |].
  specialize (Hal line k Hl Hmesh). unfold has_alnum in Hal.
  apply existsb_exists in Hal as (c & Hc' & Hcal).
  rewrite forallb_forall in He. specialize (He c Hc').
  rewrite Hcal in He. discriminate He.
Qed.

End CuraBalanced.

(* ================================================================== *)
(** ** Markers in the written text *)

Lemma append_empty (s : string) : (s ++ "")%string = s.
Proof.
  induction s as [| c s IH]; cbn [append]; [reflexivity |].
  rewrite IH. reflexivity.
Qed.

Lemma concat_one (c : string) : concat [c] = c.
Proof. rewrite concat_cons. apply append_empty. Qed.

Lemma single_line_app (a b : string) :
  single_line (a ++ b) = single_line a && single_line b.
Proof.
  induction a as [| c a IH]; cbn [append single_line]; [reflexivity |].
  rewrite IH, andb_assoc. reflexivity.
Qed.

Lemma single_line_of_words (s : string) :
  forallb isword (list_ascii_of_string s) = true -> single_line s = true.
Proof.
  induction s as [| c s IH];
    cbn [list_ascii_of_string forallb single_line]; [reflexivity |].
  intros H. apply andb_true_iff in H as [Hc Hs].
  rewrite (IH Hs), andb_true_r.
  apply negb_true_iff, Ascii.eqb_neq. intros ->. discriminate Hc.
Qed.

Lemma clean_id_single_line (id : string) : single_line (_clean_id id) = true.
Proof.
  apply single_line_of_words. unfold _clean_id, strip_chars, strip_with.
  apply rstrip_keeps, lstrip_keeps, re_sub_word.
Qed.

Lemma str_of_Z_single_line (z : Z) : single_line (str_of_Z z) = true.
Proof.
  assert (Hu : forall d, single_line (NilEmpty.string_of_uint d) = true)
    by (induction d; cbn [NilEmpty.string_of_uint single_line];
        try reflexivity; exact IHd).
  unfold str_of_Z, NilEmpty.string_of_int.
  destruct (Z.to_int z); [apply Hu | cbn [single_line]; apply Hu].
Qed.

Lemma single_line_concat (chunks : list string) :
  Forall (fun c => single_line c = true) chunks ->
  single_line (concat chunks) = true.
Proof.
  induction 1 as [| c chunks Hc _ IH]; [reflexivity |].
  rewrite concat_cons, single_line_app, Hc, IH. reflexivity.
Qed.

Lemma single_line_join (sep : string) (l : list string) :
  single_line sep = true ->
  Forall (fun c => single_line c = true) l ->
  single_line (join sep l) = true.
Proof.
  intros Hsep. induction 1 as [| c l Hc Hl IH]; [reflexivity |].
  cbn [join]. destruct l as [| c' l]; [exact Hc |].
  rewrite !single_line_app, Hc, Hsep, IH. reflexivity.
Qed.

(** A line with its newline is the only line of its text. *)
Lemma whole_line_app (t : string) :
  single_line t = true -> whole_line (t ++ nl) = true.
Proof.
  induction t as [| c t IH]; cbn [append single_line]; intros H;
    [reflexivity |].
  apply andb_true_iff in H as [Hc Ht]. specialize (IH Ht).
  destruct (t ++ nl)%string as [| c' r] eqn:E; [discriminate IH |].
  change (negb (Ascii.eqb c "010") && whole_line (String c' r) = true).
  rewrite Hc. exact IH.
Qed.

Lemma whole_line_readlines (c : string) :
  whole_line c = true -> ends_line c /\ readlines c = [c].
Proof.
  induction c as [| a c IH]; [discriminate |].
  intros H.
  assert (Hcase : (c = "" /\ a = "010"%char)
                  \/ (Ascii.eqb a "010" = false /\ whole_line c = true)).
  { destruct c as [| b c'].
    - left. split; [reflexivity |]. apply Ascii.eqb_eq. exact H.
    - right.
      change (negb (Ascii.eqb a "010") && whole_line (String b c') = true)
        in H.
      apply andb_true_iff in H as [Ha Hc]. apply negb_true_iff in Ha.
      split; assumption. }
  destruct Hcase as [[-> ->] | [Ha Hc]].
  - split; [right; exists ""; reflexivity | reflexivity].
  - destruct (IH Hc) as [He Hr]. split.
    + destruct He as [-> | [t ->]]; [discriminate Hc |].
      right. exists (String a t). reflexivity.
    + cbn [readlines]. rewrite Ha, Hr. reflexivity.
Qed.

Lemma ends_line_app (a b : string) :
  ends_line a -> ends_line b -> ends_line (a ++ b).
Proof.
  intros Ha [-> | [t ->]].
  - rewrite append_empty. exact Ha.
  - right. exists (a ++ t)%string. apply append_assoc.
Qed.

Lemma balanced_prefix (pre t1 t2 : list string) :
  (forall open, balanced open t1 -> balanced open t2) ->
  forall open, balanced open (pre ++ t1) -> balanced open (pre ++ t2).
Proof.
  intros Ht. induction pre as [| c pre IH]; intros open;
    cbn [app balanced]; [apply Ht |].
  destruct (marker_of c) as [[l | l] |].
  - intros [H1 H2]. split; [exact H1 | apply IH, H2].
  - intros [H1 H2]. split; [exact H1 | apply IH, H2].
  - apply IH.
Qed.

Lemma balanced_skip_inv (chunks : list string) :
  Forall (fun c => marker_of c = None) chunks ->
  forall (open : option string) (tail : list string),
    balanced open (chunks ++ tail) -> balanced open tail.
Proof.
  induction 1 as [| c chunks Hc _ IH]; intros open tail; cbn [app balanced].
  - auto.
  - rewrite Hc. apply IH.
Qed.

Lemma line_structured_nil : line_structured [].
Proof. split; [left; reflexivity | intros open tail H; exact H]. Qed.

Lemma line_structured_one (c : string) :
  whole_line c = true -> line_structured [c].
Proof.
  intros H. destruct (whole_line_readlines c H) as [He Hr].
  unfold line_structured. rewrite concat_one, Hr. split; [exact He | auto].
Qed.

Lemma line_structured_app (a b : list string) :
  line_structured a -> line_structured b -> line_structured (a ++ b).
Proof.
  intros [Ea Ha] [Eb Hb]. split.
  - rewrite concat_app. apply ends_line_app; assumption.
  - intros open tail H.
    rewrite concat_app, (readlines_app _ _ Ea), <- !app_assoc.
    rewrite <- app_assoc in H. apply Ha.
    revert open H. apply balanced_prefix. intros open. apply Hb.
Qed.

(** Chunks that make up one line which is no marker, none of them
    looking like one. *)
Lemma line_structured_group (g : list string) :
  Forall (fun c => marker_of c = None) g ->
  whole_line (concat g) = true ->
  marker_of (concat g) = None ->
  line_structured g.
Proof.
  intros Hg Hw Hm. destruct (whole_line_readlines _ Hw) as [He Hr].
  split; [exact He |]. intros open tail H.
  rewrite Hr. cbn [app balanced]. rewrite Hm.
  apply (balanced_skip_inv g Hg open tail H).
Qed.

Lemma marker_whole_line (prefix object_name : string) :
  single_line prefix = true -> single_line object_name = true ->
  whole_line (prefix ++ object_name ++ nl) = true.
Proof.
  intros Hp Hn. rewrite append_assoc. apply whole_line_app.
  rewrite single_line_app, Hp, Hn. reflexivity.
Qed.

Lemma dict_get_entry {V : Type} (k : string) (d : list (string * V)) (v : V) :
  dict_get k d = Some v -> exists k', In (k', v) d.
Proof.
  induction d as [| [k0 v0] d IH]; cbn [dict_get]; [discriminate |].
  destruct (String.eqb k k0).
  - intros H. injection H as <-. exists k0. left. reflexivity.
  - intros H. destruct (IH H) as [k' Hk]. exists k'. right. exact Hk.
Qed.

Lemma dict_set_Forall {V : Type} (P : string * V -> Prop) (k : string)
  (v : V) (d : list (string * V)) :
  Forall P d -> P (k, v) -> Forall P (dict_set k v d).
Proof.
  intros Hd Hv. induction Hd as [| [k0 v0] d H0 Hd IH]; cbn [dict_set].
  - constructor; [exact Hv | constructor].
  - destruct (String.eqb k k0); constructor; assumption.
Qed.

Section TextOfOutput.
Context {F : FloatOps}.

Lemma header_structured (n : Z) : line_structured (header_chunks n).
Proof.
  unfold header_chunks.
  apply (line_structured_app [(nl ++ nl)%string]
           [HEADER_MARKER;
            ("; " ++ str_of_Z n ++ " known objects" ++ nl)%string]).
  - split; [right; exists nl; reflexivity |].
    intros open tail H. exact H.
  - apply (line_structured_app [HEADER_MARKER]
             [("; " ++ str_of_Z n ++ " known objects" ++ nl)%string]);
      apply line_structured_one; [reflexivity |].
    rewrite (append_assoc (str_of_Z n)), (append_assoc "; ").
    apply whole_line_app.
    rewrite !single_line_app, str_of_Z_single_line. reflexivity.
Qed.

Lemma dumps_polygon_single_line (polygon : list Point) :
  single_line (dumps_polygon polygon) = true.
Proof.
  unfold dumps_polygon. rewrite !single_line_app.
  rewrite single_line_join; [reflexivity | reflexivity |].
  apply Forall_map, Forall_forall. intros p _.
  rewrite !single_line_app.
  rewrite (proj2 (float_text_line (fst p))), (proj2 (float_text_line (snd p))).
  reflexivity.
Qed.

Lemma definition_structured (o : KnownObject) :
  single_line (name o) = true -> line_structured (definition_chunks o).
Proof.
  intros Hn. apply line_structured_group.
  - apply definition_chunks_no_marker.
  - unfold definition_chunks. rewrite !app_assoc, concat_app, concat_one.
    apply whole_line_app, single_line_concat.
    apply Forall_app. split; [apply Forall_app; split |].
    + constructor; [| constructor].
      rewrite single_line_app, Hn. reflexivity.
    + destruct (center (hull o)) as [[x y] |]; constructor; [| constructor].
      rewrite !single_line_app.
      rewrite (proj1 (float_text_line x)), (proj1 (float_text_line y)).
      reflexivity.
    + destruct (exterior (hull o)) as [polygon |];
        constructor; [| constructor].
      rewrite single_line_app, dumps_polygon_single_line. reflexivity.
  - unfold definition_chunks. cbn [app]. rewrite concat_cons. reflexivity.
Qed.

Lemma definitions_structured (objects : list KnownObject) :
  Forall (fun o => single_line (name o) = true) objects ->
  line_structured (flat_map definition_chunks objects).
Proof.
  induction 1 as [| o rest Ho _ IH]; cbn [flat_map].
  - apply line_structured_nil.
  - apply line_structured_app; [apply definition_structured, Ho | exact IH].
Qed.

Lemma registry_definitions_structured (known : registry) :
  names_single_line known ->
  line_structured (flat_map definition_chunks (dict_values known)).
Proof.
  intros H. apply definitions_structured. unfold dict_values.
  apply Forall_map. exact H.
Qed.

Lemma lookup_single_line (known : registry) (k : string) (o : KnownObject)
  (out : list string) :
  names_single_line known ->
  lookup k known = (out, inr o) ->
  out = [] /\ single_line (name o) = true.
Proof.
  intros Hn. unfold lookup.
  destruct (dict_get k known) as [o' |] eqn:E; [| discriminate].
  intros H. injection H as <- <-. split; [reflexivity |].
  destruct (dict_get_entry k known o' E) as [k' Hk].
  unfold names_single_line in Hn. rewrite Forall_forall in Hn.
  apply (Hn (k', o') Hk).
Qed.

Lemma start_marker_structured (object_name : string) :
  single_line object_name = true ->
  line_structured
    [("START_CURRENT_OBJECT NAME=" ++ object_name ++ nl)%string].
Proof.
  intros H. apply line_structured_one, marker_whole_line;
    [reflexivity | exact H].
Qed.

Lemma end_marker_structured (object_name : string) :
  single_line object_name = true ->
  line_structured
    [("END_CURRENT_OBJECT NAME=" ++ object_name ++ nl)%string].
Proof.
  intros H. apply line_structured_one, marker_whole_line;
    [reflexivity | exact H].
Qed.

(** *** The registry of a scan pass *)

Lemma register_single_line (id source : string) (known : registry) :
  names_single_line known -> names_single_line (register id source known).
Proof.
  intros H. unfold register. destruct (dict_mem id known); [exact H |].
  apply dict_set_Forall; [exact H |]. apply clean_id_single_line.
Qed.

Lemma add_point_to_single_line (id : string) (p : Point) (known : registry) :
  names_single_line known -> names_single_line (add_point_to id p known).
Proof.
  intros H. unfold names_single_line, add_point_to.
  apply Forall_map. revert H. apply Forall_impl.
  intros [k o] Ho. destruct (String.eqb k id); exact Ho.
Qed.

Lemma track_single_line (known known' : registry) (cur : option string)
  (line : string) :
  track known cur line = inr known' ->
  names_single_line known -> names_single_line known'.
Proof.
  unfold track. destruct cur as [id |].
  - destruct (gcode_point line) as [e | [p |]]; cbn [bind ret];
      [discriminate | |]; intros H; injection H as <-.
    + apply add_point_to_single_line.
    + auto.
  - intros H. injection H as <-. auto.
Qed.

Lemma cura_scan_single_line (lines : list string) :
  forall st st' : cura_scan_state,
    for_lines_res cura_scan_line st lines = inr st' ->
    names_single_line (cs_known st) -> names_single_line (cs_known st').
Proof.
  induction lines as [| line rest IH]; intros st st'; cbn [for_lines_res].
  - intros H. injection H as <-. auto.
  - destruct (cura_scan_line st line) as [e | st1] eqn:E1; cbn [bind];
      [discriminate |].
    intros H Hn. apply (IH st1 st' H). revert E1.
    unfold cura_scan_line.
    destruct (startswith line ";MESH:").
    + destruct (String.eqb _ "NONMESH").
      * intros E. injection E as <-. exact Hn.
      * destruct (track _ _ line) as [e' | k1] eqn:Et; cbn [bind ret];
          [discriminate |].
        intros E. injection E as <-. cbn [cs_known].
        apply (track_single_line _ _ _ _ Et), register_single_line, Hn.
    + destruct (track _ _ line) as [e' | k1] eqn:Et; cbn [bind ret];
        [discriminate |].
      intros E. injection E as <-. cbn [cs_known].
      apply (track_single_line _ _ _ _ Et), Hn.
Qed.

Lemma ideamaker_scan_single_line (n : nat) :
  forall (lines : list string) (known known' : registry)
         (cur : option string),
    List.length lines < n ->
    ideamaker_scan known cur lines = inr known' ->
    names_single_line known -> names_single_line known'.
Proof.
  induction n as [| n IH]; intros lines known known' cur Hlen;
    [inversion Hlen |].
  destruct lines as [| line rest]; cbn [ideamaker_scan].
  - intros H. injection H as <-. auto.
  - destruct (startswith line ";PRINTING:").
    + destruct rest as [| id_line rest]; [discriminate |].
      destruct (startswith id_line ";PRINTING_ID:"); cbn [negb];
        [| discriminate].
      cbn [List.length] in Hlen.
      destruct (String.eqb (strip (split_item1 ":" id_line)) "-1").
      * apply IH. lia.
      * destruct (track _ _ line) as [e | k1] eqn:Et; cbn [bind];
          [discriminate |].
        intros H Hn. apply (IH rest k1 known' _ ltac:(lia) H).
        apply (track_single_line _ _ _ _ Et), register_single_line, Hn.
    + destruct (track known cur line) as [e | k1] eqn:Et; cbn [bind];
        [discriminate |].
      cbn [List.length] in Hlen.
      intros H Hn. apply (IH rest k1 known' cur ltac:(lia) H).
      apply (track_single_line _ _ _ _ Et), Hn.
Qed.

(** *** The emission pass of ideaMaker *)

Lemma ideamaker_close_structured (cur cur' : option KnownObject)
  (out : list string) :
  (forall o, cur = Some o -> single_line (name o) = true) ->
  ideamaker_close cur = (out, inr cur') ->
  line_structured out /\ cur' = None.
Proof.
  intros Hcur. destruct cur as [o |]; emit_simpl; intros H;
    injection H as <- <-; (split; [| reflexivity]).
  - apply end_marker_structured, Hcur. reflexivity.
  - apply line_structured_nil.
Qed.

Lemma ideamaker_line_structured (known : registry)
  (cur cur' : option KnownObject) (line : string) (out : list string) :
  names_single_line known ->
  whole_line line = true ->
  (forall o, cur = Some o -> single_line (name o) = true) ->
  ideamaker_emit_line known cur line = (out, inr cur') ->
  line_structured out
  /\ (forall o, cur' = Some o -> single_line (name o) = true).
Proof.
  intros Hn Hline Hcur. unfold ideamaker_emit_line. intros H.
  apply ebind_inr_inv in H as (o1 & [] & o2 & Hy & H & ->).
  injection Hy as <-.
  apply ebind_inr_inv in H as (o3 & [] & o4 & Hp & H & ->).
  assert (H3 : line_structured o3).
  { destruct (startswith line ";TOTAL_NUM:").
    - destruct (int_of_string _) as [total |]; [| discriminate Hp].
      destruct (total =? count known)%Z; [| discriminate Hp].
      rewrite header_yields, define_all_chunks in Hp.
      apply ebind_inr_inv in Hp as (a & [] & b & Ha & Hb & ->).
      injection Ha as <-. injection Hb as <-.
      apply line_structured_app;
        [apply header_structured | apply registry_definitions_structured, Hn].
    - injection Hp as <-. apply line_structured_nil. }
  assert (Hat : forall c c' o,
             (forall x, c = Some x -> single_line (name x) = true) ->
             (if String.eqb line (";REMAINING_TIME: 0" ++ nl)
              then ideamaker_close c else pure c) = (o, inr c') ->
             line_structured o
             /\ (forall x, c' = Some x -> single_line (name x) = true)).
  { intros c c' o Hc. destruct (String.eqb line _).
    - intros E. destruct (ideamaker_close_structured c c' o Hc E) as [Hs ->].
      split; [exact Hs | discriminate].
    - intros E. injection E as <- <-.
      split; [apply line_structured_nil | exact Hc]. }
  assert (H4 : line_structured o4
               /\ (forall o, cur' = Some o -> single_line (name o) = true)).
  { cbv zeta in H.
    destruct (startswith line ";PRINTING_ID:").
    - apply ebind_inr_inv in H as (o5 & c1 & o6 & Hclose & H & ->).
      destruct (ideamaker_close_structured cur c1 o5 Hcur Hclose)
        as [H5 ->].
      destruct (String.eqb _ "-1").
      + injection H as <- <-. rewrite app_nil_r.
        split; [exact H5 | discriminate].
      + apply ebind_inr_inv in H as (o7 & o & o8 & Hlook & H & ->).
        destruct (lookup_single_line known _ o o7 Hn Hlook) as [-> Ho].
        apply ebind_inr_inv in H as (o9 & [] & o10 & Hstart & H & ->).
        unfold object_start_marker, yield in Hstart.
        injection Hstart as <-.
        destruct (Hat (Some o) cur' o10) as [H10 Hc'];
          [intros x Hx; injection Hx as <-; exact Ho | exact H |].
        split; [| exact Hc'].
        apply line_structured_app; [exact H5 |]. cbn [app].
        apply (line_structured_app [_] o10);
          [apply start_marker_structured, Ho | exact H10].
    - apply (Hat cur cur' o4 Hcur H). }
  destruct H4 as [H4 Hc']. split; [| exact Hc'].
  apply (line_structured_app [line] (o3 ++ o4));
    [apply line_structured_one, Hline |].
  apply line_structured_app; assumption.
Qed.

Lemma ideamaker_lines_structured (known : registry) (lines : list string) :
  names_single_line known ->
  Forall (fun l => whole_line l = true) lines ->
  forall (cur cur' : option KnownObject) (out : list string),
    (forall o, cur = Some o -> single_line (name o) = true) ->
    for_lines (ideamaker_emit_line known) cur lines = (out, inr cur') ->
    line_structured out
    /\ (forall o, cur' = Some o -> single_line (name o) = true).
Proof.
  intros Hn.
  induction 1 as [| line rest Hline _ IH]; intros cur cur' out Hcur;
    cbn [for_lines].
  - intros H. injection H as <- <-.
    split; [apply line_structured_nil | exact Hcur].
  - intros H. apply ebind_inr_inv in H
      as (out1 & mid & out2 & Hstep & Hrest & ->).
    destruct (ideamaker_line_structured known cur mid line out1
                Hn Hline Hcur Hstep) as [H1 Hmid].
    destruct (IH mid cur' out2 Hmid Hrest) as [H2 Hc'].
    split; [apply line_structured_app; assumption | exact Hc'].
Qed.

Lemma ideamaker_output_structured (infile out : list string) :
  Forall (fun l => whole_line l = true) infile ->
  preprocess_ideamaker infile = (out, inr tt) ->
  line_structured out.
Proof.
  intros Hlines. unfold preprocess_ideamaker.
  destruct (ideamaker_scan [] None infile) as [e | known] eqn:Hscan;
    [discriminate |].
  assert (Hn : names_single_line known).
  { apply (ideamaker_scan_single_line (S (List.length infile)) infile
             [] known None); [lia | exact Hscan | constructor]. }
  change (lift (inr known)) with (pure known). rewrite ebind_pure_l.
  intros H. apply ebind_inr_inv in H as (out1 & cur & out2 & Hloop & Hend & ->).
  apply ebind_inr_inv in Hend as (out3 & cur' & out4 & Hclose & Hpure & ->).
  injection Hpure as <-. rewrite app_nil_r.
  destruct (ideamaker_lines_structured known infile Hn Hlines None cur out1)
    as [H1 Hcur]; [discriminate | exact Hloop |].
  destruct (ideamaker_close_structured cur cur' out3 Hcur Hclose) as [H3 _].
  apply line_structured_app; assumption.
Qed.

(** *** The emission pass of Cura *)

Lemma cura_close_structured (cur cur' : option string) (out : list string) :
  (forall s, cur = Some s -> single_line s = true) ->
  cura_close cur = (out, inr cur') ->
  line_structured out
  /\ (forall s, cur' = Some s -> single_line s = true).
Proof.
  intros Hcur. destruct cur as [s |]; cbn [cura_close].
  - destruct (String.eqb s ""); cbn [negb]; emit_simpl; intros H;
      injection H as <- <-.
    + split; [apply line_structured_nil | exact Hcur].
    + split; [| discriminate].
      apply end_marker_structured, Hcur. reflexivity.
  - emit_simpl. intros H. injection H as <- <-.
    split; [apply line_structured_nil | discriminate].
Qed.

Lemma cura_line_structured (known : registry) (last : option string)
  (cur cur' : option string) (line : string) (out : list string) :
  names_single_line known ->
  whole_line line = true ->
  (forall s, cur = Some s -> single_line s = true) ->
  cura_emit_line known last cur line = (out, inr cur') ->
  line_structured out
  /\ (forall s, cur' = Some s -> single_line s = true).
Proof.
  intros Hn Hline Hcur. unfold cura_emit_line.
  assert (Hat : forall (c c' : option string) (o : list string),
             (forall s, c = Some s -> single_line s = true) ->
             match last with
             | Some l => if String.eqb line l then cura_close c else pure c
             | None => pure c
             end = (o, inr c') ->
             line_structured o
             /\ (forall s, c' = Some s -> single_line s = true)).
  { intros c c' o Hc.
    destruct last as [l |]; [destruct (String.eqb line l) |].
    - apply cura_close_structured, Hc.
    - intros H. injection H as <- <-.
      split; [apply line_structured_nil | exact Hc].
    - intros H. injection H as <- <-.
      split; [apply line_structured_nil | exact Hc]. }
  cbv zeta. intros H.
  apply ebind_inr_inv in H as (o1 & [] & o2 & Hy & H & ->).
  injection Hy as <-.
  assert (H2 : line_structured o2
               /\ (forall s, cur' = Some s -> single_line s = true)).
  { destruct (startswith line ";MESH:").
    - apply ebind_inr_inv in H as (o3 & c1 & o4 & Hclose & H & ->).
      destruct (cura_close_structured cur c1 o3 Hcur Hclose) as [H3 Hc1].
      destruct (String.eqb (strip (after_first ":" line)) "NONMESH").
      + injection H as <- <-. rewrite app_nil_r. split; assumption.
      + apply ebind_inr_inv in H as (o5 & o & o6 & Hlook & H & ->).
        destruct (lookup_single_line known _ o o5 Hn Hlook) as [-> Ho].
        apply ebind_inr_inv in H as (o7 & [] & o8 & Hstart & H & ->).
        unfold object_start_marker, yield in Hstart.
        injection Hstart as <-.
        destruct (Hat (Some (name o)) cur' o8) as [H8 Hc'];
          [intros s Hs; injection Hs as <-; exact Ho | exact H |].
        split; [| exact Hc'].
        apply line_structured_app; [exact H3 |]. cbn [app].
        apply (line_structured_app [_] o8);
          [apply start_marker_structured, Ho | exact H8].
    - apply (Hat cur cur' o2 Hcur H). }
  destruct H2 as [H2 Hc']. split; [| exact Hc'].
  apply (line_structured_app [line] o2);
    [apply line_structured_one, Hline | exact H2].
Qed.

Lemma cura_lines_structured (known : registry) (last : option string)
  (lines : list string) :
  names_single_line known ->
  Forall (fun l => whole_line l = true) lines ->
  forall (cur cur' : option string) (out : list string),
    (forall s, cur = Some s -> single_line s = true) ->
    for_lines (cura_emit_line known last) cur lines = (out, inr cur') ->
    line_structured out
    /\ (forall s, cur' = Some s -> single_line s = true).
Proof.
  intros Hn.
  induction 1 as [| line rest Hline _ IH]; intros cur cur' out Hcur;
    cbn [for_lines].
  - intros H. injection H as <- <-.
    split; [apply line_structured_nil | exact Hcur].
  - intros H. apply ebind_inr_inv in H
      as (out1 & mid & out2 & Hstep & Hrest & ->).
    destruct (cura_line_structured known last cur mid line out1
                Hn Hline Hcur Hstep) as [H1 Hmid].
    destruct (IH mid cur' out2 Hmid Hrest) as [H2 Hc'].
    split; [apply line_structured_app; assumption | exact Hc'].
Qed.

Lemma whole_lines_structured (lines : list string) :
  Forall (fun l => whole_line l = true) lines -> line_structured lines.
Proof.
  induction 1 as [| line rest Hline _ IH]; [apply line_structured_nil |].
  apply (line_structured_app [line] rest);
    [apply line_structured_one, Hline | exact IH].
Qed.

Lemma cura_output_structured (infile out : list string) :
  Forall (fun l => whole_line l = true) infile ->
  preprocess_cura infile = (out, inr tt) ->
  line_structured out.
Proof.
  intros Hlines. unfold preprocess_cura.
  destruct (cura_scan infile) as [e | st] eqn:Hscan; [discriminate |].
  assert (Hn : names_single_line (cs_known st)).
  { unfold cura_scan in Hscan.
    apply (cura_scan_single_line infile _ st Hscan). constructor. }
  change (lift (inr st)) with (pure st). rewrite ebind_pure_l.
  pose proof (cura_leading_split infile) as Hsplit.
  destruct (cura_leading infile) as [passed remaining]. cbn [fst snd] in Hsplit.
  rewrite <- Hsplit in Hlines. apply Forall_app in Hlines as [Hp Hr].
  rewrite header_yields, define_all_chunks. emit_simpl.
  destruct (for_lines (cura_emit_line (cs_known st)
                         (cs_last_time_elapsed st)) None remaining)
    as [out1 [e | cur]] eqn:Eloop; cbn [ebind]; [discriminate |].
  destruct (cura_lines_structured (cs_known st) (cs_last_time_elapsed st)
              remaining Hn Hr None cur out1) as [H1 Hcur];
    [discriminate | exact Eloop |].
  destruct (cura_close cur) as [out2 [e | cur']] eqn:Eclose;
    cbn [ebind pure]; [discriminate |].
  destruct (cura_close_structured cur cur' out2 Hcur Eclose) as [H2 _].
  intros H. injection H as <-.
  apply line_structured_app; [apply whole_lines_structured, Hp |].
  apply (line_structured_app (header_chunks (count (cs_known st))));
    [apply header_structured |].
  apply line_structured_app;
    [apply registry_definitions_structured, Hn |].
  cbn [app]. rewrite app_nil_r.
  apply line_structured_app; assumption.
Qed.

End TextOfOutput.

(** X17.  On a Cura file of which every line ends with its newline,
    no line is itself a marker and every mesh name has a letter or a
    digit, the markers of a successful run are balanced, over the chunks
    the generator yields and over the lines of the text they are written
    as: START_CURRENT_OBJECT and END_CURRENT_OBJECT alternate, each end
    names the object started before it, and no object is left open at the
    end. *)
Theorem X17_cura_markers_balanced (F : FloatOps) (infile out : list string) :
  Forall (fun l => whole_line l = true) infile ->
  Forall (fun l => marker_of l = None) infile ->
  (forall line n, In line infile -> mesh_name line = Some n ->
                  has_alnum n = true) ->
  preprocess_cura infile = (out, inr tt) ->
  balanced None out /\ balanced None (readlines (concat out)).
Proof.
  intros Hwhole Hlines Hal Hrun.
  assert (Hchunks : balanced None out).
  { destruct (cura_scan infile) as [e | st] eqn:Hs.
    - unfold preprocess_cura in Hrun. rewrite Hs in Hrun. discriminate Hrun.
    - apply (cura_markers_balanced infile out st Hlines Hs); [| exact Hrun].
      apply (cura_names_nonempty infile st Hal Hs). }
  split; [exact Hchunks |].
  destruct (cura_output_structured infile out Hwhole Hrun) as [_ Htext].
  specialize (Htext None []). rewrite !app_nil_r in Htext.
  apply Htext, Hchunks.
Qed.

Lemma cura_one_mesh_whole_lines :
  Forall (fun l => whole_line l = true) cura_one_mesh.
Proof. repeat constructor. Defined.

Lemma cura_one_mesh_no_marker :
  Forall (fun l => marker_of l = None) cura_one_mesh.
Proof. repeat constructor. Defined.

Lemma cura_one_mesh_names (line n : string) :
  In line cura_one_mesh -> mesh_name line = Some n -> has_alnum n = true.
Proof.
  intros Hl. repeat (destruct Hl as [<- | Hl]); try destruct Hl;
    intros H; try discriminate H; injection H as <-; reflexivity.
Defined.

Lemma cura_one_mesh_output :
  preprocess_cura (F := python_floats) cura_one_mesh
  = ( [ ln ";Generated with Cura_SteamEngine";
        ln "G28";
        (nl ++ nl)%string; HEADER_MARKER; ln "; 1 known objects";
        "DEFINE_OBJECT NAME=cube_stl"; " CENTER=1.0,1.0";
        " POLYGON=[[1.0,1.0],[1.0,1.0],[1.0,1.0],[1.0,1.0]]"; nl;
        ln ";MESH:cube.stl";
        ln "START_CURRENT_OBJECT NAME=cube_stl";
        ln "G1 X1 Y1 E1";
        ln ";MESH:NONMESH";
        ln "END_CURRENT_OBJECT NAME=cube_stl";
        ln "G1 X5 Y5";
        ln ";TIME_ELAPSED:12.5" ],
      inr tt ).
Proof. vm_compute. reflexivity. Defined.

Lemma X17_witness :
  Forall (fun l => whole_line l = true) cura_one_mesh
  /\ Forall (fun l => marker_of l = None) cura_one_mesh
  /\ (forall line n, In line cura_one_mesh -> mesh_name line = Some n ->
                     has_alnum n = true)
  /\ preprocess_cura (F := python_floats) cura_one_mesh
     = ( [ ln ";Generated with Cura_SteamEngine";
           ln "G28";
           (nl ++ nl)%string; HEADER_MARKER; ln "; 1 known objects";
           "DEFINE_OBJECT NAME=cube_stl"; " CENTER=1.0,1.0";
           " POLYGON=[[1.0,1.0],[1.0,1.0],[1.0,1.0],[1.0,1.0]]"; nl;
           ln ";MESH:cube.stl";
           ln "START_CURRENT_OBJECT NAME=cube_stl";
           ln "G1 X1 Y1 E1";
           ln ";MESH:NONMESH";
           ln "END_CURRENT_OBJECT NAME=cube_stl";
           ln "G1 X5 Y5";
           ln ";TIME_ELAPSED:12.5" ],
         inr tt )
  /\ balanced None
       [ ln ";Generated with Cura_SteamEngine";
         ln "G28";
         (nl ++ nl)%string; HEADER_MARKER; ln "; 1 known objects";
         "DEFINE_OBJECT NAME=cube_stl"; " CENTER=1.0,1.0";
         " POLYGON=[[1.0,1.0],[1.0,1.0],[1.0,1.0],[1.0,1.0]]"; nl;
         ln ";MESH:cube.stl";
         ln "START_CURRENT_OBJECT NAME=cube_stl";
         ln "G1 X1 Y1 E1";
         ln ";MESH:NONMESH";
         ln "END_CURRENT_OBJECT NAME=cube_stl";
         ln "G1 X5 Y5";
         ln ";TIME_ELAPSED:12.5" ]
  /\ balanced None
       (readlines
          (concat
             [ ln ";Generated with Cura_SteamEngine";
               ln "G28";
               (nl ++ nl)%string; HEADER_MARKER; ln "; 1 known objects";
               "DEFINE_OBJECT NAME=cube_stl"; " CENTER=1.0,1.0";
               " POLYGON=[[1.0,1.0],[1.0,1.0],[1.0,1.0],[1.0,1.0]]"; nl;
               ln ";MESH:cube.stl";
               ln "START_CURRENT_OBJECT NAME=cube_stl";
               ln "G1 X1 Y1 E1";
               ln ";MESH:NONMESH";
               ln "END_CURRENT_OBJECT NAME=cube_stl";
               ln "G1 X5 Y5";
               ln ";TIME_ELAPSED:12.5" ])).
Proof.
  split; [exact cura_one_mesh_whole_lines |].
  split; [exact cura_one_mesh_no_marker |].
  split; [exact cura_one_mesh_names |].
  split; [exact cura_one_mesh_output |].
  exact (X17_cura_markers_balanced python_floats cura_one_mesh _
           cura_one_mesh_whole_lines cura_one_mesh_no_marker
           cura_one_mesh_names cura_one_mesh_output).
Defined.

(* ================================================================== *)
(** ** ideaMaker files *)

(** X18.  On an ideaMaker file of which every line ends with its newline
    and no line is itself a marker, the markers of a successful run are
    balanced, over the chunks the generator yields and over the lines of
    the text they are written as: START_CURRENT_OBJECT and
    END_CURRENT_OBJECT alternate, each end names the object started
    before it, and no object is left open at the end. *)
Theorem X18_ideamaker_markers_balanced (F : FloatOps)
  (infile out : list string) :
  Forall (fun l => whole_line l = true) infile ->
  Forall (fun l => marker_of l = None) infile ->
  preprocess_ideamaker infile = (out, inr tt) ->
  balanced None out /\ balanced None (readlines (concat out)).
Proof.
  intros Hwhole Hlines Hrun.
  pose proof (ideamaker_markers_balanced infile out Hlines Hrun) as Hchunks.
  split; [exact Hchunks |].
  destruct (ideamaker_output_structured infile out Hwhole Hrun) as [_ Htext].
  specialize (Htext None []). rewrite !app_nil_r in Htext.
  apply Htext, Hchunks.
Qed.

Lemma ideamaker_no_total_whole_lines :
  Forall (fun l => whole_line l = true) ideamaker_no_total.
Proof. repeat constructor. Defined.

Lemma ideamaker_no_total_no_marker :
  Forall (fun l => marker_of l = None) ideamaker_no_total.
Proof. repeat constructor. Defined.

Lemma ideamaker_no_total_output :
  preprocess_ideamaker (F := python_floats) ideamaker_no_total
  = ( [ ln ";Sliced by ideaMaker";
        ln ";PRINTING: part.3mf";
        ln ";PRINTING_ID: 0";
        ln "START_CURRENT_OBJECT NAME=part_3mf";
        ln "G1 X1 Y1 E1";
        ln ";PRINTING_ID: -1";
        ln "END_CURRENT_OBJECT NAME=part_3mf";
        ln ";REMAINING_TIME: 0" ],
      inr tt ).
Proof. vm_compute. reflexivity. Defined.

Lemma X18_witness :
  Forall (fun l => whole_line l = true) ideamaker_no_total
  /\ Forall (fun l => marker_of l = None) ideamaker_no_total
  /\ preprocess_ideamaker (F := python_floats) ideamaker_no_total
     = ( [ ln ";Sliced by ideaMaker";
           ln ";PRINTING: part.3mf";
           ln ";PRINTING_ID: 0";
           ln "START_CURRENT_OBJECT NAME=part_3mf";
           ln "G1 X1 Y1 E1";
           ln ";PRINTING_ID: -1";
           ln "END_CURRENT_OBJECT NAME=part_3mf";
           ln ";REMAINING_TIME: 0" ],
         inr tt )
  /\ balanced None
       [ ln ";Sliced by ideaMaker";
         ln ";PRINTING: part.3mf";
         ln ";PRINTING_ID: 0";
         ln "START_CURRENT_OBJECT NAME=part_3mf";
         ln "G1 X1 Y1 E1";
         ln ";PRINTING_ID: -1";
         ln "END_CURRENT_OBJECT NAME=part_3mf";
         ln ";REMAINING_TIME: 0" ]
  /\ balanced None
       (readlines
          (concat
             [ ln ";Sliced by ideaMaker";
               ln ";PRINTING: part.3mf";
               ln ";PRINTING_ID: 0";
               ln "START_CURRENT_OBJECT NAME=part_3mf";
               ln "G1 X1 Y1 E1";
               ln ";PRINTING_ID: -1";
               ln "END_CURRENT_OBJECT NAME=part_3mf";
               ln ";REMAINING_TIME: 0" ])).
Proof.
  split; [exact ideamaker_no_total_whole_lines |].
  split; [exact ideamaker_no_total_no_marker |].
  split; [exact ideamaker_no_total_output |].
  exact (X18_ideamaker_markers_balanced python_floats ideamaker_no_total _
           ideamaker_no_total_whole_lines ideamaker_no_total_no_marker
           ideamaker_no_total_output).
Defined.

(** Without the newline of the last line the end marker is written on
    that line, and the lines of the text no longer carry it. *)
Example ideamaker_unterminated_last_line :
  let infile := [ ln ";Sliced by ideaMaker";
                  ln ";PRINTING: part.3mf";
                  ln ";PRINTING_ID: 0";
                  "G1 X1 Y1 E1" ] in
  exists out,
    preprocess_ideamaker (F := python_floats) infile = (out, inr tt)
    /\ balanced None out
    /\ readlines (concat out)
       = [ ln ";Sliced by ideaMaker";
           ln ";PRINTING: part.3mf";
           ln ";PRINTING_ID: 0";
           ln "START_CURRENT_OBJECT NAME=part_3mf";
           ln "G1 X1 Y1 E1END_CURRENT_OBJECT NAME=part_3mf" ]
    /\ ~ balanced None (readlines (concat out)).
Proof.
  eexists. split; [vm_compute; reflexivity |].
  split; [vm_compute; auto |].
  split; [vm_compute; reflexivity |].
  vm_compute. intros [_ H]. discriminate H.
Qed.

Section IdeamakerScan.
Context {F : FloatOps}.

Lemma printing_line_is_no_id_line (line : string) :
  startswith line ";PRINTING:" = true ->
  startswith line ";PRINTING_ID:" = false.
Proof.
  intros H. apply startswith_inv in H as [t ->]. reflexivity.
Qed.

Lemma track_failure_is_value_error (known : registry)
  (cur : option string) (line : string) (e : exn) :
  track known cur line = inl e -> e = ValueError.
Proof.
  intros H. apply track_failure in H.
  apply gcode_point_failure in H as [-> _]. reflexivity.
Qed.

Lemma ideamaker_scan_cut (line : string) (n : nat) :
  startswith line ";PRINTING:" = true ->
  forall (pre : list string) (known : registry) (cur : option string),
    List.length pre < n ->
    exists e,
      ideamaker_scan known cur (pre ++ [line]) = inl e
      /\ (e = RuntimeError \/ e = AssertionError \/ e = ValueError).
Proof.
  intros Hline. induction n as [| n IH]; intros pre known cur Hlen;
    [inversion Hlen |].
  destruct pre as [| a pre]; cbn [app ideamaker_scan].
  - rewrite Hline. eauto.
  - destruct (startswith a ";PRINTING:").
    + destruct pre as [| b pre]; cbn [app].
      * rewrite (printing_line_is_no_id_line line Hline). cbn [negb]. eauto.
      * destruct (startswith b ";PRINTING_ID:"); cbn [negb]; [| eauto].
        destruct (String.eqb _ "-1").
        -- apply IH. cbn [List.length] in Hlen. lia.
        -- destruct (track _ _ a) as [e | known'] eqn:Et; cbn [bind].
           ++ exists e. split; [reflexivity |].
              right. right. apply (track_failure_is_value_error _ _ _ _ Et).
           ++ apply IH. cbn [List.length] in Hlen. lia.
    + destruct (track known cur a) as [e | known'] eqn:Et; cbn [bind].
      * exists e. split; [reflexivity |].
        right. right. apply (track_failure_is_value_error _ _ _ _ Et).
      * apply IH. cbn [List.length] in Hlen. lia.
Qed.

End IdeamakerScan.

(** X19.  An ideaMaker file that ends with a [;PRINTING:] line is never
    processed: the scan pass asks for the line after it, and the run ends
    with an exception (RuntimeError from the exhausted file, or the
    AssertionError or ValueError of an earlier line) before anything is
    written. *)
Theorem X19_ideamaker_cut_after_printing_line (F : FloatOps)
  (pre : list string) (line : string) :
  startswith line ";PRINTING:" = true ->
  exists e,
    preprocess_ideamaker (pre ++ [line]) = ([], inl e)
    /\ (e = RuntimeError \/ e = AssertionError \/ e = ValueError).
Proof.
  intros Hline.
  destruct (ideamaker_scan_cut line (S (List.length pre)) Hline pre [] None)
    as (e & He & Hcases); [lia |].
  exists e. split; [| exact Hcases].
  unfold preprocess_ideamaker. rewrite He. reflexivity.
Qed.

Lemma X19_witness :
  startswith (ln ";PRINTING: part.3mf") ";PRINTING:" = true
  /\ exists e,
       preprocess_ideamaker (F := python_floats)
         (ideamaker_cut ++ [ln ";PRINTING: part.3mf"]) = ([], inl e)
       /\ (e = RuntimeError \/ e = AssertionError \/ e = ValueError).
Proof.
  assert (H : startswith (ln ";PRINTING: part.3mf") ";PRINTING:" = true)
    by reflexivity.
  split; [exact H |].
  exact (X19_ideamaker_cut_after_printing_line python_floats ideamaker_cut
           (ln ";PRINTING: part.3mf") H).
Defined.

Section IdeamakerNoTotal.
Context {F : FloatOps}.

Lemma ideamaker_close_chunks (cur cur' : option KnownObject)
  (out : list string) :
  ideamaker_close cur = (out, inr cur') ->
  forall chunk, In chunk out -> marker_of chunk <> None.
Proof.
  destruct cur as [o |]; cbn [ideamaker_close]; emit_simpl;
    intros H; injection H as <- <-; intros chunk Hc.
  - destruct Hc as [<- | []]. cbn. discriminate.
  - destruct Hc.
Qed.

Lemma ideamaker_line_chunks (known : registry)
  (cur cur' : option KnownObject) (line : string) (out : list string) :
  startswith line ";TOTAL_NUM:" = false ->
  ideamaker_emit_line known cur line = (out, inr cur') ->
  forall chunk, In chunk out -> chunk = line \/ marker_of chunk <> None.
Proof.
  intros Hn. unfold ideamaker_emit_line. rewrite Hn. intros H.
  apply ebind_inr_inv in H as (o1 & [] & o2 & Hy & H & ->).
  injection Hy as <-.
  apply ebind_inr_inv in H as (o3 & [] & o4 & Hp & H & ->).
  injection Hp as <-. cbn [app].
  assert (Ht : forall c c' o,
             (if String.eqb line (";REMAINING_TIME: 0" ++ nl)
              then ideamaker_close c else pure c) = (o, inr c') ->
             forall chunk, In chunk o -> marker_of chunk <> None).
  { intros c c' o. destruct (String.eqb line _).
    - apply ideamaker_close_chunks.
    - intros E. injection E as <- _. intros chunk []. }
  intros chunk [<- | Hc]; [left; reflexivity | right].
  destruct (startswith line ";PRINTING_ID:").
  - apply ebind_inr_inv in H as (o5 & c5 & o6 & Hclose & H & ->).
    apply in_app_or in Hc as [Hc | Hc];
      [apply (ideamaker_close_chunks _ _ _ Hclose chunk Hc) |].
    destruct (String.eqb _ "-1").
    + injection H as <- _. destruct Hc.
    + apply ebind_inr_inv in H as (o7 & ob & o8 & Hl & H & ->).
      unfold lookup in Hl. destruct (dict_get _ known); [| discriminate Hl].
      injection Hl as <- <-. cbn [app] in Hc.
      apply ebind_inr_inv in H as (o9 & [] & o10 & Hs & H & ->).
      injection Hs as <-.
      destruct Hc as [<- | Hc]; [cbn; discriminate |].
      apply (Ht _ _ _ H chunk Hc).
  - apply (Ht _ _ _ H chunk Hc).
Qed.

Lemma ideamaker_lines_chunks (known : registry) (lines : list string) :
  (forall line, In line lines -> startswith line ";TOTAL_NUM:" = false) ->
  forall (cur cur' : option KnownObject) (out : list string),
    for_lines (ideamaker_emit_line known) cur lines = (out, inr cur') ->
    forall chunk, In chunk out ->
                  In chunk lines \/ marker_of chunk <> None.
Proof.
  induction lines as [| line rest IH]; intros Hn cur cur' out;
    cbn [for_lines].
  - intros H. injection H as <- _. intros chunk [].
  - intros H. apply ebind_inr_inv in H as (o1 & c1 & o2 & Hl & H & ->).
    intros chunk Hc. apply in_app_or in Hc as [Hc | Hc].
    + destruct (ideamaker_line_chunks known cur c1 line o1
                  (Hn line (or_introl eq_refl)) Hl chunk Hc) as [-> | Hm];
        [left; left; reflexivity | right; exact Hm].
    + destruct (IH (fun l Hl' => Hn l (or_intror Hl')) c1 cur' o2 H chunk Hc)
        as [Hi | Hm]; [left; right; exact Hi | right; exact Hm].
Qed.

End IdeamakerNoTotal.

(** X20.  An ideaMaker file without [;TOTAL_NUM:] line gets no header and
    no object definition: when the run succeeds, every chunk of the output
    is a line of the input or a START_CURRENT_OBJECT or END_CURRENT_OBJECT
    marker. *)
Theorem X20_ideamaker_without_total_num (F : FloatOps)
  (infile out : list string) :
  (forall line, In line infile -> startswith line ";TOTAL_NUM:" = false) ->
  preprocess_ideamaker infile = (out, inr tt) ->
  forall chunk, In chunk out -> In chunk infile \/ marker_of chunk <> None.
Proof.
  intros Hn. unfold preprocess_ideamaker. intros H.
  apply ebind_inr_inv in H as (o1 & known & o2 & Hs & H & ->).
  unfold lift in Hs. injection Hs as <- Hs. cbn [app].
  apply ebind_inr_inv in H as (o3 & c3 & o4 & Hl & H & ->).
  apply ebind_inr_inv in H as (o5 & c5 & o6 & Hc & H & ->).
  injection H as <-. rewrite app_nil_r.
  intros chunk Hin. apply in_app_or in Hin as [Hin | Hin].
  - apply (ideamaker_lines_chunks known infile Hn None c3 o3 Hl chunk Hin).
  - right. apply (ideamaker_close_chunks _ _ _ Hc chunk Hin).
Qed.

Lemma ideamaker_no_total_lines (line : string) :
  In line ideamaker_no_total -> startswith line ";TOTAL_NUM:" = false.
Proof.
  intros Hl. repeat (destruct Hl as [<- | Hl]); try destruct Hl;
    reflexivity.
Defined.

Lemma X20_witness :
  (forall line, In line ideamaker_no_total ->
                startswith line ";TOTAL_NUM:" = false)
  /\ preprocess_ideamaker (F := python_floats) ideamaker_no_total
     = ( [ ln ";Sliced by ideaMaker";
           ln ";PRINTING: part.3mf";
           ln ";PRINTING_ID: 0";
           ln "START_CURRENT_OBJECT NAME=part_3mf";
           ln "G1 X1 Y1 E1";
           ln ";PRINTING_ID: -1";
           ln "END_CURRENT_OBJECT NAME=part_3mf";
           ln ";REMAINING_TIME: 0" ],
         inr tt )
  /\ forall chunk,
       In chunk [ ln ";Sliced by ideaMaker";
                  ln ";PRINTING: part.3mf";
                  ln ";PRINTING_ID: 0";
                  ln "START_CURRENT_OBJECT NAME=part_3mf";
                  ln "G1 X1 Y1 E1";
                  ln ";PRINTING_ID: -1";
                  ln "END_CURRENT_OBJECT NAME=part_3mf";
                  ln ";REMAINING_TIME: 0" ] ->
       In chunk ideamaker_no_total \/ marker_of chunk <> None.
Proof.
  split; [exact ideamaker_no_total_lines |].
  split; [exact ideamaker_no_total_output |].
  exact (X20_ideamaker_without_total_num python_floats ideamaker_no_total _
           ideamaker_no_total_lines ideamaker_no_total_output).
Defined.

(* ================================================================== *)
(** ** The input within the output *)

Lemma subsequence_refl {A : Type} (l : list A) : subsequence l l.
Proof. induction l; constructor; assumption. Qed.

Lemma subsequence_skip_app {A : Type} (pre l1 l2 : list A) :
  subsequence l1 l2 -> subsequence l1 (pre ++ l2).
Proof.
  intros H. induction pre as [| x pre IH]; [exact H |].
  cbn [app]. constructor. exact IH.
Qed.

Lemma subsequence_app {A : Type} (a b c d : list A) :
  subsequence a b -> subsequence c d -> subsequence (a ++ c) (b ++ d).
Proof.
  intros Hab Hcd. induction Hab as [l | x l1 l2 _ IH | x l1 l2 _ IH];
    cbn [app].
  - apply subsequence_skip_app, Hcd.
  - constructor. exact IH.
  - constructor. exact IH.
Qed.

Lemma subsequence_app_nil {A : Type} (a b d : list A) :
  subsequence a b -> subsequence a (b ++ d).
Proof.
  intros H. rewrite <- (app_nil_r a). apply subsequence_app; [exact H |].
  constructor.
Qed.

Lemma yield_first {B : Type} (line : string) (k : unit -> emit B)
  (out : list string) (b : B) :
  ebind (yield [line]) k = (out, inr b) -> exists extras, out = line :: extras.
Proof.
  intros H. apply ebind_inr_inv in H as (o1 & [] & o2 & Hy & _ & ->).
  injection Hy as <-. exists o2. reflexivity.
Qed.

Lemma for_lines_subsequence {S : Type} (body : S -> string -> emit S) :
  (forall s line out s',
      body s line = (out, inr s') -> exists extras, out = line :: extras) ->
  forall lines s out s',
    for_lines body s lines = (out, inr s') -> subsequence lines out.
Proof.
  intros Hbody. induction lines as [| line rest IH]; intros s out s';
    cbn [for_lines].
  - intros _. constructor.
  - intros H. apply ebind_inr_inv in H as (o1 & s1 & o2 & Hl & H & ->).
    destruct (Hbody s line o1 s1 Hl) as [extras ->].
    cbn [app]. constructor. apply subsequence_skip_app, (IH s1 o2 s' H).
Qed.

Section InputKept.
Context {F : FloatOps}.

Lemma slicer_keeps_input (infile out : list string) :
  preprocess_slicer infile = (out, inr tt) -> subsequence infile out.
Proof.
  unfold preprocess_slicer. intros H.
  apply ebind_inr_inv in H as (o1 & known & o2 & Hs & H & ->).
  injection Hs as <- _. cbn [app].
  apply (for_lines_subsequence (slicer_emit_line known)) in H; [exact H |].
  intros [] line o []. apply yield_first.
Qed.

Lemma ideamaker_keeps_input (infile out : list string) :
  preprocess_ideamaker infile = (out, inr tt) -> subsequence infile out.
Proof.
  unfold preprocess_ideamaker. intros H.
  apply ebind_inr_inv in H as (o1 & known & o2 & Hs & H & ->).
  injection Hs as <- _. cbn [app].
  apply ebind_inr_inv in H as (o3 & c3 & o4 & Hl & _ & ->).
  apply subsequence_app_nil.
  apply (for_lines_subsequence (ideamaker_emit_line known)) in Hl;
    [exact Hl |].
  intros c line o c'. apply yield_first.
Qed.

Lemma cura_keeps_input (infile out : list string) :
  preprocess_cura infile = (out, inr tt) -> subsequence infile out.
Proof.
  unfold preprocess_cura. intros H.
  apply ebind_inr_inv in H as (o1 & st & o2 & Hs & H & ->).
  injection Hs as <- _. cbn [app].
  pose proof (cura_leading_split infile) as Hsplit.
  destruct (cura_leading infile) as [passed remaining].
  cbn [fst snd] in Hsplit. rewrite <- Hsplit.
  apply ebind_inr_inv in H as (o3 & [] & o4 & Hy & H & ->).
  injection Hy as <-.
  apply subsequence_app; [apply subsequence_refl |].
  apply ebind_inr_inv in H as (o5 & [] & o6 & _ & H & ->).
  apply subsequence_skip_app.
  apply ebind_inr_inv in H as (o7 & [] & o8 & _ & H & ->).
  apply subsequence_skip_app.
  apply ebind_inr_inv in H as (o9 & c9 & o10 & Hl & _ & ->).
  apply subsequence_app_nil.
  apply (for_lines_subsequence
           (cura_emit_line (cs_known st) (cs_last_time_elapsed st))) in Hl;
    [exact Hl |].
  intros c line o c'. apply yield_first.
Qed.

Lemma superslicer_head_keeps_input (lines : list string) :
  forall known known' out rest,
    superslicer_head known lines = (out, inr (known', rest)) ->
    exists consumed,
      lines = consumed ++ rest /\ subsequence consumed out.
Proof.
  induction lines as [| line tail IH]; intros known known' out rest;
    cbn [superslicer_head].
  - intros H. injection H as <- _ <-. exists []. split; constructor.
  - intros H. apply ebind_inr_inv in H as (o1 & [] & o2 & Hy & H & ->).
    injection Hy as <-.
    apply ebind_inr_inv in H as (o3 & k3 & o4 & Ho & H & ->).
    assert (E3 : o3 = []).
    { destruct (startswith line "; object:").
      - unfold lift in Ho. injection Ho as <- _. reflexivity.
      - injection Ho as <- _. reflexivity. }
    subst o3. cbn [app].
    destruct (startswith line "; plater:").
    + apply ebind_inr_inv in H as (o5 & [] & o6 & _ & H & ->).
      apply ebind_inr_inv in H as (o7 & [] & o8 & _ & H & ->).
      injection H as <- _ <-.
      exists [line]. split; [reflexivity |]. constructor. constructor.
    + destruct (IH k3 known' o4 rest H) as (consumed & -> & Hsub).
      exists (line :: consumed). split; [reflexivity |].
      constructor. exact Hsub.
Qed.

Lemma superslicer_keeps_input (infile out : list string) :
  preprocess_superslicer infile = (out, inr tt) -> subsequence infile out.
Proof.
  unfold preprocess_superslicer. intros H.
  apply ebind_inr_inv in H as (o1 & [known rest] & o2 & Hh & H & ->).
  destruct (superslicer_head_keeps_input infile [] known o1 rest Hh)
    as (consumed & -> & Hsub).
  apply subsequence_app; [exact Hsub |].
  apply (for_lines_subsequence (superslicer_emit_line known)) in H;
    [exact H |].
  intros [] line o []. apply yield_first.
Qed.

Lemma processor_keeps_input (p : processor) (infile out : list string) :
  run_processor p infile = (out, inr tt) -> subsequence infile out.
Proof.
  destruct p; cbn [run_processor].
  - apply superslicer_keeps_input.
  - apply slicer_keeps_input.
  - apply cura_keeps_input.
  - apply ideamaker_keeps_input.
Qed.

End InputKept.

(** X21.  The preprocessor only adds to a file: whenever it succeeds,
    what it writes is the lines of the input, all of them and in their
    order, with chunks of its own in between. *)
Theorem X21_preprocessor_keeps_every_line (F : FloatOps) (infile : string) :
  result (preprocessor infile) = ReturnedTrue ->
  exists chunks,
    written (preprocessor infile) = concat chunks
    /\ subsequence (readlines infile) chunks.
Proof.
  unfold preprocessor.
  destruct (already_annotated (readlines infile)).
  - intros _. exists (readlines infile). cbn [written].
    split; [symmetry; apply readlines_concat | apply subsequence_refl].
  - destruct (detect (readlines infile)) as [name p | |];
      cbn [result written]; [| discriminate | discriminate].
    destruct (run_processor p (readlines infile)) as [out [e | []]] eqn:E;
      cbn [raised snd yielded fst]; [discriminate |].
    intros _. exists out. split; [reflexivity |].
    apply (processor_keeps_input p _ _ E).
Qed.

Lemma X21_witness :
  result (preprocessor (F := python_floats) prusa_one_object) = ReturnedTrue
  /\ exists chunks,
       written (preprocessor (F := python_floats) prusa_one_object)
       = concat chunks
       /\ subsequence (readlines prusa_one_object) chunks.
Proof.
  assert (H : result (preprocessor (F := python_floats) prusa_one_object)
              = ReturnedTrue) by (vm_compute; reflexivity).
  split; [exact H |].
  exact (X21_preprocessor_keeps_every_line python_floats prusa_one_object H).
Defined.

(* ================================================================== *)
(** ** SuperSlicer files *)

Section SuperslicerHead.
Context {F : FloatOps}.

Lemma superslicer_head_no_plater (lines : list string) :
  (forall line, In line lines -> startswith line "; plater:" = false) ->
  forall known,
    (exists known', superslicer_head known lines = (lines, inr (known', [])))
    \/ (exists n e, superslicer_head known lines = (firstn n lines, inl e)).
Proof.
  induction lines as [| line rest IH]; intros Hn known;
    cbn [superslicer_head].
  - left. exists known. reflexivity.
  - rewrite (Hn line (or_introl eq_refl)).
    assert (Hrest : forall k,
               (exists known',
                   yield [line] ;;; superslicer_head k rest
                   = (line :: rest, inr (known', [])))
               \/ (exists n e,
                      yield [line] ;;; superslicer_head k rest
                      = (firstn n (line :: rest), inl e))).
    { intros k.
      destruct (IH (fun l Hl => Hn l (or_intror Hl)) k)
        as [(known' & E) | (n & e & E)]; rewrite E.
      - left. exists known'. reflexivity.
      - right. exists (S n), e. reflexivity. }
    destruct (startswith line "; object:").
    + destruct (superslicer_object line known) as [e | k].
      * right. exists 1, e. reflexivity.
      * change (lift (inr k)) with (pure k). rewrite ebind_pure_l.
        apply (Hrest k).
    + rewrite ebind_pure_l. apply (Hrest known).
Qed.

End SuperslicerHead.

(** X22.  A SuperSlicer file without [; plater:] line is never annotated:
    the processor writes the lines of the file as they are, with no
    header, no definition and no marker, all of them when it ends
    normally and a first part of them when an [; object:] line makes it
    fail. *)
Theorem X22_superslicer_without_plater (F : FloatOps)
  (infile : list string) :
  (forall line, In line infile -> startswith line "; plater:" = false) ->
  exists n,
    yielded (preprocess_superslicer infile) = firstn n infile
    /\ (raised (preprocess_superslicer infile) = None ->
        yielded (preprocess_superslicer infile) = infile).
Proof.
  intros Hn. unfold preprocess_superslicer.
  destruct (superslicer_head_no_plater infile Hn [])
    as [(known' & E) | (n & e & E)]; rewrite E.
  - exists (List.length infile). cbn. rewrite app_nil_r, firstn_all. auto.
  - exists n. cbn. split; [reflexivity | discriminate].
Qed.

Lemma superslicer_no_plater_lines (line : string) :
  In line superslicer_no_plater -> startswith line "; plater:" = false.
Proof.
  intros Hl. repeat (destruct Hl as [<- | Hl]); try destruct Hl;
    reflexivity.
Defined.

Lemma X22_witness :
  (forall line, In line superslicer_no_plater ->
                startswith line "; plater:" = false)
  /\ exists n,
       yielded (preprocess_superslicer (F := python_floats)
                  superslicer_no_plater)
       = firstn n superslicer_no_plater
       /\ (raised (preprocess_superslicer (F := python_floats)
                     superslicer_no_plater) = None ->
           yielded (preprocess_superslicer (F := python_floats)
                      superslicer_no_plater)
           = superslicer_no_plater).
Proof.
  split; [exact superslicer_no_plater_lines |].
  exact (X22_superslicer_without_plater python_floats superslicer_no_plater
           superslicer_no_plater_lines).
Defined.

(** Such a run ends normally and reproduces the file. *)
Example superslicer_no_plater_run :
  preprocess_superslicer (F := python_floats) superslicer_no_plater
  = (superslicer_no_plater, inr tt).
Proof. vm_compute. reflexivity. Qed.

Section SuperslicerMarkers.
Context {F : FloatOps}.

Lemma superslicer_object_clean_ids (line : string)
  (known known' : list (string * list (string * pyval))) :
  superslicer_object line known = inr known' ->
  clean_ids_set known -> clean_ids_set known'.
Proof.
  unfold superslicer_object.
  destruct (json_loads _) as [e | v]; cbn [bind]; [discriminate |].
  destruct v as [| | | | | | object_data]; try discriminate.
  destruct (dict_get "id" object_data) as [[| | | | id | |] |];
    try discriminate.
  intros H. injection H as <-. intros Hc k o.
  rewrite dict_get_set. destruct (String.eqb k id) eqn:E; [| apply Hc].
  apply String.eqb_eq in E. subst k.
  intros Ho. injection Ho as <-. rewrite dict_get_set. reflexivity.
Qed.

Lemma superslicer_head_clean_ids (lines : list string) :
  forall known known' out rest,
    superslicer_head known lines = (out, inr (known', rest)) ->
    clean_ids_set known -> clean_ids_set known'.
Proof.
  induction lines as [| line tail IH]; intros known known' out rest;
    cbn [superslicer_head].
  - intros H. injection H as _ <- _. auto.
  - intros H. apply ebind_inr_inv in H as (o1 & [] & o2 & _ & H & _).
    apply ebind_inr_inv in H as (o3 & k3 & o4 & Ho & H & _).
    intros Hc.
    assert (Hc3 : clean_ids_set k3).
    { destruct (startswith line "; object:").
      - unfold lift in Ho. injection Ho as _ Ho.
        apply (superslicer_object_clean_ids line known k3 Ho Hc).
      - injection Ho as _ <-. exact Hc. }
    destruct (startswith line "; plater:").
    + apply ebind_inr_inv in H as (o5 & [] & o6 & _ & H & _).
      apply ebind_inr_inv in H as (o7 & [] & o8 & _ & H & _).
      injection H as _ <- _. exact Hc3.
    + apply (IH k3 known' o4 rest H Hc3).
Qed.

Lemma declared_clean_id {B : Type}
  (known : list (string * list (string * pyval))) (id : string)
  (k : string -> emit B) :
  clean_ids_set known ->
  dict_mem id known = true ->
  (o <~ lookup id known ;; name <~ clean_id_of o ;; k name)
  = k (_clean_id id).
Proof.
  intros Hc Hm. unfold lookup at 1. unfold dict_mem in Hm.
  destruct (dict_get id known) as [o |] eqn:E; [| discriminate Hm].
  rewrite ebind_pure_l. unfold clean_id_of, lookup.
  rewrite (Hc id o E). rewrite !ebind_pure_l. reflexivity.
Qed.

Lemma superslicer_emit_line_ok
  (known : list (string * list (string * pyval))) (line : string) :
  clean_ids_set known ->
  (forall id, printing_object_id line = Some id ->
              dict_mem id known = true) ->
  (forall id, stop_object_id line = Some id -> dict_mem id known = true) ->
  superslicer_emit_line known tt line = (marker_annotation line, inr tt).
Proof.
  intros Hc Hstart Hstop.
  unfold superslicer_emit_line, marker_annotation, printing_object_id,
    stop_object_id in *.
  destruct (startswith line "; printing object ");
    [rewrite (declared_clean_id known _ object_start_marker Hc
                (Hstart _ eq_refl)) |];
    (destruct (startswith line "; stop printing object ");
     [rewrite (declared_clean_id known _ object_end_marker Hc
                 (Hstop _ eq_refl)) |]);
    emit_simpl; reflexivity.
Qed.

Lemma superslicer_emit_lines_ok
  (known : list (string * list (string * pyval))) (lines : list string) :
  clean_ids_set known ->
  (forall line id, In line lines ->
                   printing_object_id line = Some id
                   \/ stop_object_id line = Some id ->
                   dict_mem id known = true) ->
  for_lines (superslicer_emit_line known) tt lines
  = (flat_map marker_annotation lines, inr tt).
Proof.
  intros Hc. induction lines as [| line rest IH]; intros Hreg;
    cbn [for_lines flat_map]; [reflexivity |].
  rewrite superslicer_emit_line_ok; [| exact Hc | |].
  - cbn [ebind]. rewrite IH; [reflexivity |].
    intros l id Hl. apply Hreg. right. exact Hl.
  - intros id Hid. apply (Hreg line id); [left; reflexivity | left; exact Hid].
  - intros id Hid. apply (Hreg line id); [left; reflexivity | right; exact Hid].
Qed.

End SuperslicerMarkers.

(** X24.  After the [; plater:] line of a SuperSlicer file, when every
    [; printing object] and [; stop printing object] line names an object
    declared by an [; object:] line before [; plater:], the processor ends
    normally and writes each remaining line followed by its marker:
    START_CURRENT_OBJECT after a [; printing object] line,
    END_CURRENT_OBJECT after a [; stop printing object] line, each with
    the sanitized id of that line. *)
Theorem X24_superslicer_markers (F : FloatOps) (infile out rest : list string)
  (known : list (string * list (string * pyval))) :
  superslicer_head [] infile = (out, inr (known, rest)) ->
  (forall line id, In line rest ->
                   printing_object_id line = Some id
                   \/ stop_object_id line = Some id ->
                   dict_mem id known = true) ->
  preprocess_superslicer infile
  = (out ++ flat_map marker_annotation rest, inr tt).
Proof.
  intros Hh Hreg. unfold preprocess_superslicer. rewrite Hh.
  cbn [ebind]. rewrite superslicer_emit_lines_ok; [reflexivity | | exact Hreg].
  apply (superslicer_head_clean_ids infile [] known out rest Hh).
  intros k o H. discriminate H.
Qed.

Lemma superslicer_scenario_head :
  superslicer_head (F := python_floats) [] superslicer_scenario
  = ( [ nth 0 superslicer_scenario "";
        ln "; plater:";
        (nl ++ nl)%string; HEADER_MARKER; ln "; 1 known objects";
        "DEFINE_OBJECT NAME=a"; " CENTER=1,1,0"; nl ],
      inr (superslicer_scenario_known, superslicer_scenario_rest) ).
Proof. reflexivity. Defined.

Lemma superslicer_scenario_declared (line id : string) :
  In line superslicer_scenario_rest ->
  printing_object_id line = Some id \/ stop_object_id line = Some id ->
  dict_mem id superslicer_scenario_known = true.
Proof.
  intros Hl. repeat (destruct Hl as [<- | Hl]); try destruct Hl;
    intros [H | H]; try discriminate H; injection H as <-; reflexivity.
Defined.

Lemma X24_witness :
  superslicer_head (F := python_floats) [] superslicer_scenario
  = ( [ nth 0 superslicer_scenario "";
        ln "; plater:";
        (nl ++ nl)%string; HEADER_MARKER; ln "; 1 known objects";
        "DEFINE_OBJECT NAME=a"; " CENTER=1,1,0"; nl ],
      inr (superslicer_scenario_known, superslicer_scenario_rest) )
  /\ (forall line id, In line superslicer_scenario_rest ->
                      printing_object_id line = Some id
                      \/ stop_object_id line = Some id ->
                      dict_mem id superslicer_scenario_known = true)
  /\ preprocess_superslicer (F := python_floats) superslicer_scenario
     = ( [ nth 0 superslicer_scenario "";
           ln "; plater:";
           (nl ++ nl)%string; HEADER_MARKER; ln "; 1 known objects";
           "DEFINE_OBJECT NAME=a"; " CENTER=1,1,0"; nl ]
         ++ flat_map marker_annotation superslicer_scenario_rest,
         inr tt ).
Proof.
  split; [exact superslicer_scenario_head |].
  split; [exact superslicer_scenario_declared |].
  exact (X24_superslicer_markers python_floats superslicer_scenario _
           superslicer_scenario_rest superslicer_scenario_known
           superslicer_scenario_head superslicer_scenario_declared).
Defined.

(* ================================================================== *)
(** ** The scan pass of Cura *)

Section CuraScan.
Context {F : FloatOps}.

Lemma cura_scan_line_inv (st st' : cura_scan_state) (line : string)
  (id : string) (q : Point) :
  cura_scan_line st line = inr st' ->
  cs_hull st' = mesh_at (cs_hull st) [line] 0
  /\ (In q (hull_points id (cs_known st')) ->
      In q (hull_points id (cs_known st))
      \/ (cs_hull st' = Some id /\ gcode_point line = inr (Some q))).
Proof.
  unfold cura_scan_line, mesh_name. cbn [mesh_at]. unfold mesh_name.
  destruct (startswith line ";MESH:").
  - destruct (String.eqb _ "NONMESH").
    + intros H. injection H as <-. auto.
    + destruct (track _ _ line) as [e | k] eqn:Et; cbn [bind ret];
        [discriminate |].
      intros H. injection H as <-. cbn [cs_known cs_hull].
      split; [reflexivity |]. intros Hq.
      destruct (track_adds _ _ _ _ id q Et Hq) as [Hold | Hnew];
        [| right; exact Hnew].
      left. rewrite hull_points_register in Hold. exact Hold.
  - destruct (track _ _ line) as [e | k] eqn:Et; cbn [bind ret];
      [discriminate |].
    intros H. injection H as <-. cbn [cs_known cs_hull].
    split; [reflexivity |]. intros Hq.
    apply (track_adds _ _ _ _ id q Et Hq).
Qed.

Lemma cura_scan_from (lines : list string) :
  forall (st st' : cura_scan_state) (id : string) (q : Point),
    for_lines_res cura_scan_line st lines = inr st' ->
    In q (hull_points id (cs_known st')) ->
    In q (hull_points id (cs_known st))
    \/ exists j line,
         nth_error lines j = Some line
         /\ gcode_point line = inr (Some q)
         /\ mesh_at (cs_hull st) lines j = Some id.
Proof.
  induction lines as [| line rest IH]; intros st st' id q;
    cbn [for_lines_res].
  - intros H. injection H as <-. auto.
  - destruct (cura_scan_line st line) as [e | st1] eqn:E1; cbn [bind];
      [discriminate |].
    intros H Hq.
    destruct (cura_scan_line_inv st st1 line id q E1) as [Hcur Hstep].
    cbn [mesh_at] in Hcur.
    destruct (IH st1 st' id q H Hq) as [Hq1 | (j & l & Hn & Hg & Hat)].
    + destruct (Hstep Hq1) as [Hold | [Hc Hg]]; [left; exact Hold |].
      right. exists 0, line. cbn [nth_error mesh_at].
      rewrite <- Hcur. auto.
    + right. exists (S j), l. cbn [nth_error mesh_at].
      rewrite <- Hcur. auto.
Qed.

End CuraScan.

(** X25.  In the scan pass of Cura, a point is recorded into the hull of a
    mesh only from a G command with E, X and Y parameters for which the
    last [;MESH:] line read so far, NONMESH lines left aside, names that
    mesh: a [;MESH:NONMESH] line does not end the recording. *)
Theorem X25_cura_points_follow_mesh_line (F : FloatOps)
  (lines : list string) (st : cura_scan_state) (id : string) (p : Point) :
  cura_scan lines = inr st ->
  In p (hull_points id (cs_known st)) ->
  exists j line,
    nth_error lines j = Some line
    /\ gcode_point line = inr (Some p)
    /\ mesh_at None lines j = Some id.
Proof.
  unfold cura_scan. intros Hs Hp.
  destruct (cura_scan_from lines _ st id p Hs Hp) as [[] | Hex].
  exact Hex.
Qed.

Lemma X25_witness :
  cura_scan cura_after_nonmesh = inr cura_after_nonmesh_state
  /\ In (pt 9 9) (hull_points "a" (cs_known cura_after_nonmesh_state))
  /\ exists j line,
       nth_error cura_after_nonmesh j = Some line
       /\ gcode_point line = inr (Some (pt 9 9))
       /\ mesh_at None cura_after_nonmesh j = Some "a".
Proof.
  assert (H1 : cura_scan cura_after_nonmesh = inr cura_after_nonmesh_state)
    by reflexivity.
  assert (H2 : In (pt 9 9)
                 (hull_points "a" (cs_known cura_after_nonmesh_state)))
    by (right; left; reflexivity).
  split; [exact H1 |]. split; [exact H2 |].
  exact (X25_cura_points_follow_mesh_line python_floats cura_after_nonmesh
           cura_after_nonmesh_state "a" (pt 9 9) H1 H2).
Defined.

(* ================================================================== *)
(** ** The registry of ideaMaker files *)

Section IdeamakerRegistry.
Context {F : FloatOps}.

Lemma name_of_add_point_to (id c : string) (p : Point) (known : registry) :
  name_of id (add_point_to c p known) = name_of id known.
Proof.
  unfold name_of. rewrite dict_get_add_point_to.
  destruct (dict_get id known) as [o |]; [| reflexivity].
  destruct (String.eqb id c); reflexivity.
Qed.

Lemma name_of_track (known known' : registry) (cur : option string)
  (line id : string) :
  track known cur line = inr known' -> name_of id known' = name_of id known.
Proof.
  unfold track. destruct cur as [c |].
  - destruct (gcode_point line) as [e | [p |]]; cbn [bind ret];
      [discriminate | |]; intros H; injection H as <-;
      [apply name_of_add_point_to | reflexivity].
  - intros H. injection H as <-. reflexivity.
Qed.

Lemma name_of_register (id id' source : string) (known : registry) :
  name_of id (register id' source known)
  = match name_of id known with
    | Some nm => Some nm
    | None => if String.eqb id id' then Some (_clean_id source) else None
    end.
Proof.
  unfold name_of, register, dict_mem.
  destruct (dict_get id' known) as [o' |] eqn:E'.
  - destruct (dict_get id known) as [o |] eqn:E; [reflexivity |].
    destruct (String.eqb id id') eqn:Ei; [| reflexivity].
    apply String.eqb_eq in Ei. subst id'. rewrite E in E'. discriminate E'.
  - rewrite dict_get_set. destruct (String.eqb id id') eqn:Ei.
    + apply String.eqb_eq in Ei. subst id'. rewrite E'. reflexivity.
    + destruct (dict_get id known); reflexivity.
Qed.

Lemma announces_later (a : list string) (lines : list string)
  (id nm : string) :
  announces lines id nm -> announces (a ++ lines) id nm.
Proof.
  intros (pre & line & id_line & post & -> & H).
  exists (a ++ pre), line, id_line, post. rewrite <- app_assoc. auto.
Qed.

Lemma ideamaker_scan_names (n : nat) :
  forall (lines : list string) (known known' : registry)
         (cur : option string) (id nm : string),
    List.length lines < n ->
    ideamaker_scan known cur lines = inr known' ->
    name_of id known' = Some nm ->
    name_of id known = Some nm
    \/ (id <> "-1" /\ announces lines id nm).
Proof.
  induction n as [| n IH]; intros lines known known' cur id nm Hlen;
    [inversion Hlen |].
  destruct lines as [| line rest]; cbn [ideamaker_scan].
  - intros H. injection H as <-. auto.
  - destruct (startswith line ";PRINTING:") eqn:Ep.
    + destruct rest as [| id_line rest]; [discriminate |].
      destruct (startswith id_line ";PRINTING_ID:") eqn:Ei; cbn [negb];
        [| discriminate].
      destruct (String.eqb (strip (split_item1 ":" id_line)) "-1") eqn:Em.
      * intros H Hn. cbn [List.length] in Hlen.
        destruct (IH rest known known' cur id nm ltac:(lia) H Hn)
          as [Hk | [Hid Ha]]; [left; exact Hk |].
        right. split; [exact Hid |].
        apply (announces_later [line; id_line]), Ha.
      * destruct (track _ _ line) as [e | k1] eqn:Et; cbn [bind];
          [discriminate |].
        intros H Hn. cbn [List.length] in Hlen.
        destruct (IH rest k1 known' _ id nm ltac:(lia) H Hn)
          as [Hk | [Hid Ha]].
        -- rewrite (name_of_track _ _ _ _ id Et), name_of_register in Hk.
           destruct (name_of id known) as [nm' |]; [left; exact Hk |].
           destruct (String.eqb id _) eqn:Eid; [| discriminate Hk].
           apply String.eqb_eq in Eid. injection Hk as Hk.
           right. split.
           ++ intros ->. rewrite <- Eid, String.eqb_refl in Em.
              discriminate Em.
           ++ exists [], line, id_line, rest. auto.
        -- right. split; [exact Hid |].
           apply (announces_later [line; id_line]), Ha.
    + destruct (track known cur line) as [e | k1] eqn:Et; cbn [bind];
        [discriminate |].
      intros H Hn. cbn [List.length] in Hlen.
      destruct (IH rest k1 known' cur id nm ltac:(lia) H Hn)
        as [Hk | [Hid Ha]].
      * left. rewrite (name_of_track _ _ _ _ id Et) in Hk. exact Hk.
      * right. split; [exact Hid |].
        apply (announces_later [line]), Ha.
Qed.

End IdeamakerRegistry.

(** X26.  When the scan pass of ideaMaker ends normally, every registered
    object was announced in the file: its id is not -1, and a
    [;PRINTING:] line is directly followed by the [;PRINTING_ID:] line of
    that id; the name of the object is the sanitized form of the second
    of the fields into which the colons divide that [;PRINTING:] line
    (the text between its first colon and its second one, or the end of
    the line when there is no second colon), stripped of whitespace. *)
Theorem X26_ideamaker_registry (F : FloatOps) (infile : list string)
  (known : registry) (id : string) (o : KnownObject) :
  ideamaker_scan [] None infile = inr known ->
  dict_get id known = Some o ->
  id <> "-1" /\ announces infile id (name o).
Proof.
  intros Hs Ho.
  destruct (ideamaker_scan_names (S (List.length infile)) infile [] known
              None id (name o) ltac:(lia) Hs) as [H | H].
  - unfold name_of. rewrite Ho. reflexivity.
  - discriminate H.
  - exact H.
Qed.

Lemma X26_witness :
  ideamaker_scan [] None ideamaker_no_total = inr ideamaker_no_total_known
  /\ dict_get "0" ideamaker_no_total_known
     = Some {| name := "part_3mf"; hull := {| points := [pt 1 1] |} |}
  /\ "0" <> "-1"
  /\ announces ideamaker_no_total "0" "part_3mf".
Proof.
  assert (H1 : ideamaker_scan [] None ideamaker_no_total
               = inr ideamaker_no_total_known) by reflexivity.
  assert (H2 : dict_get "0" ideamaker_no_total_known
               = Some {| name := "part_3mf";
                         hull := {| points := [pt 1 1] |} |})
    by reflexivity.
  split; [exact H1 |]. split; [exact H2 |].
  exact (X26_ideamaker_registry python_floats ideamaker_no_total
           ideamaker_no_total_known "0" _ H1 H2).
Defined.

(** A colon in the name of a part ends the name the object gets. *)
Example ideamaker_name_with_colon :
  ideamaker_scan (F := python_floats) [] None
    [ ln ";PRINTING: left:right.3mf"; ln ";PRINTING_ID: 0" ]
  = inr [ ("0", {| name := "left"; hull := {| points := [] |} |}) ].
Proof. reflexivity. Qed.
